(** * unirest-go: a fluent HTTP request builder with clone-or-mutate semantics

    Shallow embedding of [client.go] and [response.go].  Builders are Go
    pointers ([*HTTPClient]); their [url.Values]/[http.Header] fields are Go
    maps (reference objects) and [files] is a Go slice over a shared backing
    array.  The embedding therefore keeps an explicit store and threads it
    through every operation with a small state-and-failure monad. *)

From Stdlib Require Import Strings.Byte Strings.String Strings.Ascii.
From Stdlib Require Import ZArith NArith Sorting.Permutation.
From stdpp Require Import gmap strings list fin_maps.

Open Scope string_scope.
Open Scope list_scope.

#[local] Set Warnings "-clear-no-such-hyp".

(** ** Go strings, byte slices and errors *)

(** A Go [string] is a sequence of bytes: [string].  A Go [[]byte] is
    [list byte]; a nil-able one is [option (list byte)]. *)

Definition s2b (s : string) : list byte := list_byte_of_string s.
Definition b2s (b : list byte) : string := string_of_list_byte b.

(** A Go [error]: the value [errors.New] builds is identified by its message;
    [net/url] wraps its failures in a [*url.Error]. *)
Inductive error :=
| errorString (msg : string)
| urlError (op : string) (rawurl : string) (cause : string).

Inductive Result (A : Type) : Type :=
| Ok (a : A)
| Err (e : error).
Arguments Ok {A} a.
Arguments Err {A} e.

(** The [Error()] text, up to the quoting of the URL. *)
Definition error_message (e : error) : string :=
  match e with
  | errorString msg => msg
  | urlError op rawurl cause => op +:+ " " +:+ rawurl +:+ ": " +:+ cause
  end.

Definition ErrMultipleContentType : error :=
  errorString "unirest-go: can send this request with multiple content type".
Definition ErrNotSent : error := errorString "the request is not sent".

(** ** [strings.TrimRight] and friends *)

Fixpoint in_cutset (a : ascii) (cutset : string) : bool :=
  match cutset with
  | EmptyString => false
  | String b rest => if Ascii.eqb a b then true else in_cutset a rest
  end.

(** [strings.TrimRight s cutset]: [s] without its trailing bytes that occur
    in [cutset] (an ASCII cutset, so bytes and runes coincide). *)
Fixpoint TrimRight (s : string) (cutset : string) : string :=
  match s with
  | EmptyString => EmptyString
  | String a rest =>
      match TrimRight rest cutset with
      | EmptyString => if in_cutset a cutset then EmptyString else String a EmptyString
      | t => String a t
      end
  end.

Fixpoint last_byte (s : string) : option ascii :=
  match s with
  | EmptyString => None
  | String a EmptyString => Some a
  | String _ rest => last_byte rest
  end.

Definition first_byte (s : string) : option ascii :=
  match s with
  | EmptyString => None
  | String a _ => Some a
  end.

Fixpoint all_in (cutset : string) (s : string) : bool :=
  match s with
  | EmptyString => true
  | String a rest => in_cutset a cutset && all_in cutset rest
  end.

Definition slash : ascii := "/"%char.

(** Number of ['/'] bytes at the front of a string. *)
Fixpoint leading_slashes (s : string) : nat :=
  match s with
  | String a rest => if Ascii.eqb a slash then S (leading_slashes rest) else 0
  | EmptyString => 0
  end.

(** ** The data model *)

Definition loc := positive.

Record fileField := FileField {
  key : string;
  filename : string;
  content : list byte
}.

(** A Go slice header over a backing array of [*fileField] cells. *)
Record slice := Slice {
  sl_arr : loc;
  sl_len : nat;
  sl_cap : nat
}.

Record HTTPClient := mkHTTPClient {
  query : loc;
  form : loc;
  files : slice;
  url : string;
  path : string;
  body : option (list byte);
  method : string;
  header : loc;
  basicAuth : string * string;
  makeCopy : bool
}.

Definition set_query (l : loc) (s : HTTPClient) : HTTPClient :=
  mkHTTPClient l (form s) (files s) (url s) (path s) (body s) (method s)
    (header s) (basicAuth s) (makeCopy s).
Definition set_form (l : loc) (s : HTTPClient) : HTTPClient :=
  mkHTTPClient (query s) l (files s) (url s) (path s) (body s) (method s)
    (header s) (basicAuth s) (makeCopy s).
Definition set_files (sl : slice) (s : HTTPClient) : HTTPClient :=
  mkHTTPClient (query s) (form s) sl (url s) (path s) (body s) (method s)
    (header s) (basicAuth s) (makeCopy s).
Definition set_url (u : string) (s : HTTPClient) : HTTPClient :=
  mkHTTPClient (query s) (form s) (files s) u (path s) (body s) (method s)
    (header s) (basicAuth s) (makeCopy s).
Definition set_path (p : string) (s : HTTPClient) : HTTPClient :=
  mkHTTPClient (query s) (form s) (files s) (url s) p (body s) (method s)
    (header s) (basicAuth s) (makeCopy s).
Definition set_body (b : option (list byte)) (s : HTTPClient) : HTTPClient :=
  mkHTTPClient (query s) (form s) (files s) (url s) (path s) b (method s)
    (header s) (basicAuth s) (makeCopy s).
Definition set_method (m : string) (s : HTTPClient) : HTTPClient :=
  mkHTTPClient (query s) (form s) (files s) (url s) (path s) (body s) m
    (header s) (basicAuth s) (makeCopy s).
Definition set_header (l : loc) (s : HTTPClient) : HTTPClient :=
  mkHTTPClient (query s) (form s) (files s) (url s) (path s) (body s) (method s)
    l (basicAuth s) (makeCopy s).
Definition set_basicAuth (a : string * string) (s : HTTPClient) : HTTPClient :=
  mkHTTPClient (query s) (form s) (files s) (url s) (path s) (body s) (method s)
    (header s) a (makeCopy s).
Definition set_makeCopy (b : bool) (s : HTTPClient) : HTTPClient :=
  mkHTTPClient (query s) (form s) (files s) (url s) (path s) (body s) (method s)
    (header s) (basicAuth s) b.

(** The part of [net/url.URL] the builder touches. *)
Record URL := mkURL {
  Scheme : string;
  Opaque : string;
  Host : string;
  Path : string;
  RawQuery : string;
  Fragment : string
}.

Definition set_RawQuery (q : string) (u : URL) : URL :=
  mkURL (Scheme u) (Opaque u) (Host u) (Path u) q (Fragment u).

(** [http.Request]: [Header] is the map object itself (a reference), [Body]
    the bytes the replayable reader starts from. *)
Record Request := mkRequest {
  Method : string;
  Header : loc;
  ReqURL : URL;
  Body : option (list byte);
  ContentLength : Z;
  GetBody : option (list byte)
}.

(** A response body stream ([io.ReadCloser]): the bytes still to be read, the
    error the transport raises when they run out (none: a clean EOF), whether
    [Close] was called, and what a [Read] answers once it was.  The bodies
    net/http builds for a response with bytes to deliver answer a read after
    [Close] with an error ("http: read on closed response body" over HTTP/1,
    another text over HTTP/2); [http.NoBody], which the library hands over
    for a response that comes without a body, keeps answering with a clean
    EOF ([None]). *)
Record Stream := mkStream {
  pending : list byte;
  failure : option error;
  closed : bool;
  after_close : option error
}.

(** What the transport hands back for an executed request: the status, the
    bytes of the body and the error that interrupts them, and the answer of
    the body it has built to a read after [Close]. *)
Record RawResponse := mkRawResponse {
  StatusCode : Z;
  payload : list byte;
  payload_failure : option error;
  read_after_close : option error
}.

(** [*http.Response] as far as the wrapper uses it: its [Body] stream. *)
Record HTTPResponse := mkHTTPResponse {
  RespStatus : Z;
  RespBody : loc
}.

(** [Response] of response.go: an embedded [*http.Response] (nil-able) and the
    deferred error. *)
Record Response := mkResponse {
  resp : option HTTPResponse;
  RespErr : option error
}.

(** A request as the transport sees it when [Do] is called. *)
Record Wire := mkWire {
  w_request : Request;
  w_header : gmap string (list string)
}.

(** The store: builder structs, map objects, backing arrays of [files],
    response body streams; the number of random draws made so far (map
    iteration order, multipart boundaries); the log of transport calls. *)
Record State := mkState {
  clients : gmap loc HTTPClient;
  maps : gmap loc (gmap string (list string));
  arrays : gmap loc (list (option fileField));
  streams : gmap loc Stream;
  rng : nat;
  wire : list Wire
}.

Definition empty_state : State := mkState ∅ ∅ ∅ ∅ 0 [].

(** ** Library functions the builder calls *)

Definition byte_in (lo hi : N) (c : ascii) : bool :=
  (lo <=? N_of_ascii c)%N && (N_of_ascii c <=? hi)%N.
Definition is_lower (c : ascii) : bool := byte_in 97 122 c.
Definition is_upper (c : ascii) : bool := byte_in 65 90 c.
Definition is_digit (c : ascii) : bool := byte_in 48 57 c.
Definition to_upper (c : ascii) : ascii := ascii_of_N (N_of_ascii c - 32).
Definition to_lower (c : ascii) : ascii := ascii_of_N (N_of_ascii c + 32).

Fixpoint string_forallb (f : ascii → bool) (s : string) : bool :=
  match s with
  | EmptyString => true
  | String a rest => f a && string_forallb f rest
  end.

(** [net/textproto]: the bytes allowed in a header field name (RFC 7230
    token characters). *)
Definition validHeaderFieldByte (c : ascii) : bool :=
  is_lower c || is_upper c || is_digit c || in_cutset c "!#$%&'*+-.^_`|~".

Fixpoint canonical_case (upper : bool) (s : string) : string :=
  match s with
  | EmptyString => EmptyString
  | String c rest =>
      let c' := if upper && is_lower c then to_upper c
                else if negb upper && is_upper c then to_lower c
                else c in
      String c' (canonical_case (Ascii.eqb c' "-"%char) rest)
  end.

(** [textproto.CanonicalMIMEHeaderKey]: a key made of token bytes gets its
    first letter and every letter after a hyphen in upper case and the others
    in lower case; any other key is returned unchanged. *)
Definition CanonicalMIMEHeaderKey (s : string) : string :=
  if string_forallb validHeaderFieldByte s then canonical_case true s else s.

Definition nth_byte (n : N) (alphabet : string) : ascii :=
  default "000"%char (String.get (N.to_nat n) alphabet).

Definition upperhex : string := "0123456789ABCDEF".

(** [net/url]: [shouldEscape c encodeQueryComponent]. *)
Definition shouldEscape (c : ascii) : bool :=
  negb (is_lower c || is_upper c || is_digit c || in_cutset c "-_.~").

Fixpoint QueryEscape (s : string) : string :=
  match s with
  | EmptyString => EmptyString
  | String c rest =>
      if shouldEscape c then
        if Ascii.eqb c " "%char then String "+"%char (QueryEscape rest)
        else String "%"%char
               (String (nth_byte (N_of_ascii c / 16) upperhex)
                  (String (nth_byte (N_of_ascii c mod 16) upperhex) (QueryEscape rest)))
      else String c (QueryEscape rest)
  end.

Fixpoint insert_sorted (k : string) (l : list string) : list string :=
  match l with
  | [] => [k]
  | x :: rest => if String.leb k x then k :: l else x :: insert_sorted k rest
  end.

(** [sort.Strings]. *)
Definition sort_strings (l : list string) : list string :=
  foldr insert_sorted [] l.

(** The key/value pairs [Values.Encode] writes, in the order it writes them:
    keys sorted, the values of a key in their stored order. *)
Definition Encode_pairs (v : gmap string (list string)) : list (string * string) :=
  k ← sort_strings (map_to_list v).*1;
  (λ val, (k, val)) <$> default [] (v !! k).

(** [url.Values.Encode]. *)
Definition Values_Encode (v : gmap string (list string)) : string :=
  foldl (λ buf kv,
           (if String.eqb buf "" then buf else buf +:+ "&")
             +:+ QueryEscape kv.1 +:+ "=" +:+ QueryEscape kv.2)
        "" (Encode_pairs v).

(** [url.Values.Add]: [v[key] = append(v[key], value)]. *)
Definition Values_Add (k value : string) (v : gmap string (list string))
  : gmap string (list string) :=
  <[k := default [] (v !! k) ++ [value]]> v.

(** [http.Header.Add], [Set], [Del] and [Get]: as on [url.Values], with the
    key canonicalised first. *)
Definition Header_Add (k value : string) (h : gmap string (list string))
  : gmap string (list string) :=
  Values_Add (CanonicalMIMEHeaderKey k) value h.
Definition Header_Set (k value : string) (h : gmap string (list string))
  : gmap string (list string) :=
  <[CanonicalMIMEHeaderKey k := [value]]> h.
Definition Header_Del (k : string) (h : gmap string (list string))
  : gmap string (list string) :=
  delete (CanonicalMIMEHeaderKey k) h.

Definition encodeStd : string :=
  "ABCDEFGHIJKLMNOPQRSTUVWXYZabcdefghijklmnopqrstuvwxyz0123456789+/".

Definition sextet (n : N) (i : N) : ascii :=
  nth_byte ((n / 64 ^ (3 - i)) mod 64)%N encodeStd.

Definition group24 (a b c : ascii) : N :=
  (N_of_ascii a * 65536 + N_of_ascii b * 256 + N_of_ascii c)%N.

(** [base64.StdEncoding.EncodeToString]: three bytes give four symbols, a
    shorter tail is padded with ['=']. *)
Fixpoint base64 (s : string) : string :=
  match s with
  | String a (String b (String c rest)) =>
      let n := group24 a b c in
      String (sextet n 0) (String (sextet n 1)
        (String (sextet n 2) (String (sextet n 3) (base64 rest))))
  | String a (String b EmptyString) =>
      let n := group24 a b "000" in
      String (sextet n 0) (String (sextet n 1) (String (sextet n 2) "="))
  | String a EmptyString =>
      let n := group24 a "000" "000" in
      String (sextet n 0) (String (sextet n 1) "==")
  | EmptyString => EmptyString
  end.

(** The value [http.Request.SetBasicAuth] stores under [Authorization]. *)
Definition basicAuthValue (username password : string) : string :=
  "Basic " +:+ base64 (username +:+ ":" +:+ password).

(** ** [mime/multipart.Writer] over a [bytes.Buffer] *)

Definition crlf : string := String (ascii_of_nat 13) (String (ascii_of_nat 10) "").
Definition dquote : ascii := ascii_of_nat 34.
Definition backslash : ascii := ascii_of_nat 92.

(** [escapeQuotes]: a backslash before every backslash and double quote. *)
Fixpoint escapeQuotes (s : string) : string :=
  match s with
  | EmptyString => EmptyString
  | String c rest =>
      if Ascii.eqb c backslash || Ascii.eqb c dquote
      then String backslash (String c (escapeQuotes rest))
      else String c (escapeQuotes rest)
  end.

(** The writer: the buffer it writes to, its boundary, the part that is still
    open (parts are numbered as they are created). *)
Record Writer := mkWriter {
  w_buf : list byte;
  w_boundary : string;
  w_lastpart : option nat;
  w_parts : nat
}.

Definition NewWriter (boundary : string) : Writer := mkWriter [] boundary None 0.

Definition header_lines (h : gmap string (list string)) : list string :=
  k ← sort_strings (map_to_list h).*1;
  (λ v, k +:+ ": " +:+ v +:+ crlf) <$> default [] (h !! k).

Definition concat_strings (l : list string) : string := foldr append "" l.

(** [Writer.CreatePart]: the delimiter line, the header lines sorted by key,
    an empty line.  Writing to a [bytes.Buffer] cannot fail. *)
Definition CreatePart (h : gmap string (list string)) (w : Writer)
  : Result (nat * Writer) :=
  let delim := match w_lastpart w with
               | Some _ => crlf +:+ "--" +:+ w_boundary w +:+ crlf
               | None => "--" +:+ w_boundary w +:+ crlf
               end in
  let p := S (w_parts w) in
  Ok (p, mkWriter (w_buf w ++ s2b (delim +:+ concat_strings (header_lines h) +:+ crlf))
           (w_boundary w) (Some p) p).

Definition CreateFormFile (fieldname fname : string) (w : Writer)
  : Result (nat * Writer) :=
  CreatePart
    (<["Content-Type" := ["application/octet-stream"]]>
       (<["Content-Disposition" :=
            ["form-data; name=" +:+ String dquote (escapeQuotes fieldname)
               +:+ String dquote "; filename="
               +:+ String dquote (escapeQuotes fname) +:+ String dquote ""]]> ∅))
    w.

Definition CreateFormField (fieldname : string) (w : Writer)
  : Result (nat * Writer) :=
  CreatePart
    (<["Content-Disposition" :=
         ["form-data; name=" +:+ String dquote (escapeQuotes fieldname)
            +:+ String dquote ""]]> ∅)
    w.

(** [part.Write]: only the part created last is still open. *)
Definition part_Write (p : nat) (d : list byte) (w : Writer) : Result Writer :=
  if decide (w_lastpart w = Some p)
  then Ok (mkWriter (w_buf w ++ d) (w_boundary w) (w_lastpart w) (w_parts w))
  else Err (errorString "multipart: can't write to finished part").

Definition WriteField (fieldname value : string) (w : Writer) : Result Writer :=
  match CreateFormField fieldname w with
  | Err e => Err e
  | Ok (p, w) => part_Write p (s2b value) w
  end.

Definition Writer_Close (w : Writer) : Result Writer :=
  Ok (mkWriter (w_buf w ++ s2b (crlf +:+ "--" +:+ w_boundary w +:+ "--" +:+ crlf))
        (w_boundary w) None (w_parts w)).

Definition tspecials : string :=
  "()<>@,;:" +:+ String backslash (String dquote "/[]?= ").

Fixpoint ContainsAny (s chars : string) : bool :=
  match s with
  | EmptyString => false
  | String c rest => in_cutset c chars || ContainsAny rest chars
  end.

Definition FormDataContentType (w : Writer) : string :=
  let b := w_boundary w in
  let b := if ContainsAny b tspecials then String dquote b +:+ String dquote "" else b in
  "multipart/form-data; boundary=" +:+ b.

(** ** What the Go runtime and the network decide

    The growth policy of [append], the order in which [range] visits a map,
    the random multipart boundary, [url.Parse] and the transport are not code
    of this repository; the builder is verified against any runtime that
    honours their documented contracts: [append] makes room for the new
    element, [range] visits every entry once, [url.Parse] reports a failure as
    a [*url.Error] of operation "parse".  Random choices are indexed by the
    draw counter of the store. *)
Class GoRuntime := {
  growslice : nat → nat → nat;
  growslice_fits : ∀ oldcap needed : nat, (needed ≤ growslice oldcap needed)%nat;
  range_order : nat → gmap string (list string) → list (string * list string);
  range_order_perm : ∀ n m, range_order n m ≡ₚ map_to_list m;
  randomBoundary : nat → string;
  url_Parse : string → Result URL;
  url_Parse_error : ∀ rawurl e, url_Parse rawurl = Err e →
                    ∃ u cause, e = urlError "parse" u cause;
  http_Do : nat → Wire → Result RawResponse
}.

(** ** The store monad: [None] is a Go panic (nil or dangling reference) *)

Definition M (A : Type) : Type := State → option (A * State).

Definition ret {A} (a : A) : M A := λ σ, Some (a, σ).
Definition bind {A B} (m : M A) (k : A → M B) : M B :=
  λ σ, match m σ with
       | Some (a, σ') => k a σ'
       | None => None
       end.

Declare Scope go_scope.
Delimit Scope go_scope with go.
Notation "x <- m ;; k" := (bind m (λ x, k))
  (at level 100, m at next level, right associativity) : go_scope.
Notation "m ;; k" := (bind m (λ _, k))
  (at level 100, right associativity) : go_scope.
Open Scope go_scope.

Definition upd_clients (f : gmap loc HTTPClient → gmap loc HTTPClient) (σ : State) : State :=
  mkState (f (clients σ)) (maps σ) (arrays σ) (streams σ) (rng σ) (wire σ).
Definition upd_maps (f : gmap loc (gmap string (list string)) → gmap loc (gmap string (list string)))
  (σ : State) : State :=
  mkState (clients σ) (f (maps σ)) (arrays σ) (streams σ) (rng σ) (wire σ).
Definition upd_arrays (f : gmap loc (list (option fileField)) → gmap loc (list (option fileField)))
  (σ : State) : State :=
  mkState (clients σ) (maps σ) (f (arrays σ)) (streams σ) (rng σ) (wire σ).
Definition upd_streams (f : gmap loc Stream → gmap loc Stream) (σ : State) : State :=
  mkState (clients σ) (maps σ) (arrays σ) (f (streams σ)) (rng σ) (wire σ).
Definition upd_rng (f : nat → nat) (σ : State) : State :=
  mkState (clients σ) (maps σ) (arrays σ) (streams σ) (f (rng σ)) (wire σ).
Definition upd_wire (f : list Wire → list Wire) (σ : State) : State :=
  mkState (clients σ) (maps σ) (arrays σ) (streams σ) (rng σ) (f (wire σ)).

(** Dereference, assign through and allocate a [*HTTPClient]. *)
Definition load (c : loc) : M HTTPClient :=
  λ σ, s ← clients σ !! c; Some (s, σ).
Definition modify (c : loc) (f : HTTPClient → HTTPClient) : M unit :=
  λ σ, s ← clients σ !! c; Some (tt, upd_clients <[c := f s]> σ).
Definition new_client (s : HTTPClient) : M loc :=
  λ σ, let c := fresh (dom (clients σ)) in Some (c, upd_clients <[c := s]> σ).

(** Read, update in place and allocate a map object. *)
Definition map_load (l : loc) : M (gmap string (list string)) :=
  λ σ, m ← maps σ !! l; Some (m, σ).
Definition map_modify (l : loc)
  (f : gmap string (list string) → gmap string (list string)) : M unit :=
  λ σ, m ← maps σ !! l; Some (tt, upd_maps <[l := f m]> σ).
Definition map_new (m : gmap string (list string)) : M loc :=
  λ σ, let l := fresh (dom (maps σ)) in Some (l, upd_maps <[l := m]> σ).

(** A random draw. *)
Definition draw : M nat := λ σ, Some (rng σ, upd_rng S σ).

(** Allocate a backing array; read the cells a slice covers (a nil cell or a
    slice header that overruns its array is a panic); [append] one element. *)
Definition array_new (cells : list (option fileField)) : M loc :=
  λ σ, let a := fresh (dom (arrays σ)) in Some (a, upd_arrays <[a := cells]> σ).

Definition read_slice (sl : slice) : M (list fileField) :=
  λ σ, arr ← arrays σ !! sl_arr sl;
       if decide (sl_len sl ≤ sl_cap sl ∧ sl_cap sl ≤ length arr)%nat
       then fs ← mapM id (take (sl_len sl) arr); Some (fs, σ)
       else None.

(** Allocate and use a response body stream: [ioutil.ReadAll] hands over what
    is pending and the error that ends it, [Close] marks the stream closed; a
    closed body has no bytes to give and answers every read as the stream says
    ([after_close]): with its error, or with a clean EOF, which [ReadAll]
    turns into no bytes and no error. *)
Definition stream_new (s : Stream) : M loc :=
  λ σ, let l := fresh (dom (streams σ)) in Some (l, upd_streams <[l := s]> σ).

(** The answer of a body of the HTTP/1 transport to a read after [Close]. *)
Definition ErrReadOnClosedBody : error :=
  errorString "http: read on closed response body".

Definition ReadAll (l : loc) : M (list byte * option error) :=
  λ σ, s ← streams σ !! l;
       if closed s then Some (([], after_close s), σ)
       else Some ((pending s, failure s),
                  upd_streams <[l := mkStream [] (failure s) false (after_close s)]> σ).

Definition Close (l : loc) : M unit :=
  λ σ, s ← streams σ !! l;
       Some (tt, upd_streams <[l := mkStream (pending s) (failure s) true (after_close s)]> σ).

(** [if path[0] != '/' { path = "/" + path }] *)
Definition add_slash (p : string) : string :=
  if decide (first_byte p ≠ Some slash) then "/" +:+ p else p.

Section Client.
Context `{RT : GoRuntime}.

(** [append(sl, x)] on a [[]*fileField]: in place when the backing array has
    room, else into a fresh array of the capacity the runtime picks. *)
Definition append_file (sl : slice) (x : fileField) : M slice :=
  λ σ, arr ← arrays σ !! sl_arr sl;
       if decide (sl_len sl < sl_cap sl)%nat
       then Some (Slice (sl_arr sl) (S (sl_len sl)) (sl_cap sl),
                  upd_arrays <[sl_arr sl := <[sl_len sl := Some x]> arr]> σ)
       else
         let newcap := growslice (sl_cap sl) (S (sl_len sl)) in
         let a := fresh (dom (arrays σ)) in
         Some (Slice a (S (sl_len sl)) newcap,
               upd_arrays <[a := take (sl_len sl) arr ++ Some x
                                   :: replicate (newcap - S (sl_len sl)) None]> σ).

(** [for key, values := range m]: the entries in the order of this draw. *)
Definition range (m : gmap string (list string)) : M (list (string * list string)) :=
  n <- draw ;; ret (range_order n m).

(** [copy(dst, src)] on string slices. *)
Definition copy_slice (dst src : list string) : list string :=
  take (length dst) src ++ drop (length src) dst.

Definition copyMap (m : loc) : M loc :=
  src <- map_load m ;;
  entries <- range src ;;
  map_new (foldl (λ clone kv, <[kv.1 := copy_slice (replicate (length kv.2) "") kv.2]> clone)
             ∅ entries).

Definition New : M loc :=
  q <- map_new ∅ ;;
  f <- map_new ∅ ;;
  hd <- map_new ∅ ;;
  a <- array_new [] ;;
  new_client (mkHTTPClient q f (Slice a 0 0) "" "" None "GET" hd ("", "") true).

Definition Clone (c : loc) : M loc :=
  s <- load c ;;
  q <- copyMap (query s) ;;
  hd <- copyMap (header s) ;;
  f <- copyMap (form s) ;;
  new_client (set_form f (set_header hd (set_query q s))).

Definition AutoClone (b : bool) (c : loc) : M loc :=
  c <- Clone c ;;
  modify c (set_makeCopy b) ;;
  ret c.

(** The opening lines of every mutator:
    [if c.makeCopy { c = c.Clone() }]. *)
Definition cloneIfAuto (c : loc) : M loc :=
  s <- load c ;;
  if makeCopy s then Clone c else ret c.

Definition SetURL (u : string) (c : loc) : M loc :=
  c <- cloneIfAuto c ;;
  modify c (set_url (TrimRight u "/")) ;;
  ret c.

Definition AppendPath (p : string) (c : loc) : M loc :=
  c <- cloneIfAuto c ;;
  if decide (p = "") then ret c
  else
    let p := add_slash p in
    let p := TrimRight p "/" in
    modify c (λ s, set_path (path s +:+ p) s) ;;
    ret c.

Definition AddQuery (k value : string) (c : loc) : M loc :=
  c <- cloneIfAuto c ;;
  s <- load c ;;
  map_modify (query s) (Values_Add k value) ;;
  ret c.

Definition AddHeader (k value : string) (c : loc) : M loc :=
  c <- cloneIfAuto c ;;
  s <- load c ;;
  map_modify (header s) (Header_Add k value) ;;
  ret c.

Definition AddFormField (k value : string) (c : loc) : M loc :=
  c <- cloneIfAuto c ;;
  s <- load c ;;
  map_modify (form s) (Values_Add k value) ;;
  modify c (set_method "POST") ;;
  ret c.

Definition AddFile (k fname : string) (data : list byte) (c : loc) : M loc :=
  c <- cloneIfAuto c ;;
  s <- load c ;;
  sl <- append_file (files s) (FileField k fname data) ;;
  modify c (set_files sl) ;;
  modify c (set_method "POST") ;;
  ret c.

Definition SetBasicAuth (username password : string) (c : loc) : M loc :=
  c <- cloneIfAuto c ;;
  modify c (λ s, set_basicAuth (username, snd (basicAuth s)) s) ;;
  modify c (λ s, set_basicAuth (fst (basicAuth s), password) s) ;;
  ret c.

Definition SetJSONBody (json : option (list byte)) (c : loc) : M loc :=
  c <- cloneIfAuto c ;;
  modify c (set_body json) ;;
  s <- load c ;;
  map_modify (header s) (Header_Set "Content-Type" "application/json") ;;
  modify c (set_method "POST") ;;
  ret c.

Definition SetRawBody (b : option (list byte)) (c : loc) : M loc :=
  c <- cloneIfAuto c ;;
  modify c (set_body b) ;;
  modify c (set_method "POST") ;;
  s <- load c ;;
  map_modify (header s) (Header_Del "Content-Type") ;;
  ret c.

Definition Get (c : loc) : M loc :=
  c <- cloneIfAuto c ;;
  modify c (set_method "GET") ;;
  ret c.

Definition Post (c : loc) : M loc :=
  c <- cloneIfAuto c ;;
  modify c (set_method "POST") ;;
  ret c.

(** The eleven mutators, as data, so that statements can range over them. *)
Inductive Mutator :=
| MSetURL (u : string)
| MAppendPath (p : string)
| MAddQuery (k value : string)
| MAddHeader (k value : string)
| MAddFormField (k value : string)
| MAddFile (k fname : string) (data : list byte)
| MSetBasicAuth (username password : string)
| MSetJSONBody (json : option (list byte))
| MSetRawBody (b : option (list byte))
| MGet
| MPost.

Definition call (m : Mutator) : loc → M loc :=
  match m with
  | MSetURL u => SetURL u
  | MAppendPath p => AppendPath p
  | MAddQuery k v => AddQuery k v
  | MAddHeader k v => AddHeader k v
  | MAddFormField k v => AddFormField k v
  | MAddFile k f d => AddFile k f d
  | MSetBasicAuth u p => SetBasicAuth u p
  | MSetJSONBody j => SetJSONBody j
  | MSetRawBody b => SetRawBody b
  | MGet => Get
  | MPost => Post
  end.

(** A chain of calls, each applied to the builder the previous one returned. *)
Fixpoint chain (ms : list Mutator) (c : loc) : M loc :=
  match ms with
  | [] => ret c
  | m :: rest => c <- call m c ;; chain rest c
  end.

(** The multipart loops of [ParseRequest], stopping at the first error. *)
Fixpoint write_files (fs : list fileField) (w : Writer) : Result Writer :=
  match fs with
  | [] => Ok w
  | file :: rest =>
      match CreateFormFile (key file) (filename file) w with
      | Err e => Err e
      | Ok (fw, w) =>
          match part_Write fw (content file) w with
          | Err e => Err e
          | Ok w => write_files rest w
          end
      end
  end.

Fixpoint write_values (k : string) (values : list string) (w : Writer) : Result Writer :=
  match values with
  | [] => Ok w
  | value :: rest =>
      match WriteField k value w with
      | Err e => Err e
      | Ok w => write_values k rest w
      end
  end.

Fixpoint write_form (entries : list (string * list string)) (w : Writer) : Result Writer :=
  match entries with
  | [] => Ok w
  | (k, values) :: rest =>
      match write_values k values w with
      | Err e => Err e
      | Ok w => write_form rest w
      end
  end.

Definition UserAgent : string := "Unirest-Go/1.0".

(** Attach a reader to the request (the last block of [ParseRequest]). *)
Definition with_reader (req : Request) (reader : option (list byte)) : Request :=
  match reader with
  | None => req
  | Some b =>
      mkRequest (Method req) (Header req) (ReqURL req)
        (Some b) (Z.of_nat (length b)) (Some b)
  end.

Definition zeroURL : URL := mkURL "" "" "" "" "" "".

(** [ParseRequest]: [Ok req] is [(req, nil)], [Err e] is [(nil, e)].  The
    request's [Header] is the builder's own header map. *)
Definition ParseRequest (c : loc) : M (Result Request) :=
  s <- load c ;;
  let req := mkRequest (method s) (header s) zeroURL None 0 None in
  map_modify (Header req) (Header_Set "User-Agent" UserAgent) ;;
  (if decide (fst (basicAuth s) ≠ "")
   then map_modify (Header req)
          (Header_Set "Authorization" (basicAuthValue (fst (basicAuth s)) (snd (basicAuth s))))
   else ret tt) ;;
  match url_Parse (url s +:+ path s) with
  | Err e => ret (Err e)
  | Ok u =>
      q <- map_load (query s) ;;
      let u := if decide (size q ≠ 0) then set_RawQuery (Values_Encode q) u else u in
      let req := mkRequest (Method req) (Header req) u None 0 None in
      f <- map_load (form s) ;;
      if decide (body s ≠ None ∧ (sl_len (files s) ≠ 0 ∨ size f ≠ 0))
      then ret (Err ErrMultipleContentType)
      else
        match body s with
        | Some b => ret (Ok (with_reader req (Some b)))
        | None =>
            if decide (sl_len (files s) ≠ 0) then
              n <- draw ;;
              let writer := NewWriter (randomBoundary n) in
              fs <- read_slice (files s) ;;
              match write_files fs writer with
              | Err e => ret (Err e)
              | Ok writer =>
                  entries <- range f ;;
                  match write_form entries writer with
                  | Err e => ret (Err e)
                  | Ok writer =>
                      match Writer_Close writer with
                      | Err e => ret (Err e)
                      | Ok writer =>
                          map_modify (Header req)
                            (Header_Set "Content-Type" (FormDataContentType writer)) ;;
                          ret (Ok (with_reader req (Some (w_buf writer))))
                      end
                  end
              end
            else if decide (size f ≠ 0) then
              map_modify (Header req)
                (Header_Set "Content-Type" "application/x-www-form-urlencoded") ;;
              ret (Ok (with_reader req (Some (s2b (Values_Encode f)))))
            else ret (Ok (with_reader req None))
        end
  end.

(** [Send]: the transport is called with the request and the header map as
    it then stands; every call is logged in [wire]. *)
Definition Do (req : Request) : M (Result HTTPResponse) :=
  hd <- map_load (Header req) ;;
  n <- draw ;;
  (λ σ, Some (tt, upd_wire (λ l, l ++ [mkWire req hd]) σ)) ;;
  match http_Do n (mkWire req hd) with
  | Err e => ret (Err e)
  | Ok raw =>
      b <- stream_new (mkStream (payload raw) (payload_failure raw) false
                         (read_after_close raw)) ;;
      ret (Ok (mkHTTPResponse (StatusCode raw) b))
  end.

Definition Send (c : loc) : M Response :=
  r <- ParseRequest c ;;
  match r with
  | Err e => ret (mkResponse None (Some e))
  | Ok req =>
      r <- Do req ;;
      match r with
      | Err e => ret (mkResponse None (Some e))
      | Ok hr => ret (mkResponse (Some hr) None)
      end
  end.

End Client.

(** ** response.go *)

(** [AsBytes]: [Ok buf] is [(buf, nil)], [Err e] is [(nil, e)]. *)
Definition AsBytes (r : Response) : M (Result (list byte)) :=
  match RespErr r with
  | Some e => ret (Err e)
  | None =>
      match resp r with
      | None => ret (Err ErrNotSent)
      | Some hr =>
          res <- ReadAll (RespBody hr) ;;
          Close (RespBody hr) ;;
          match res with
          | (_, Some e) => ret (Err e)
          | (buf, None) => ret (Ok buf)
          end
      end
  end.

(** [AsString]: [Ok s] is [(s, nil)], [Err e] is [("", e)]. *)
Definition AsString (r : Response) : M (Result string) :=
  res <- AsBytes r ;;
  match res with
  | Err e => ret (Err e)
  | Ok buf => ret (Ok (b2s buf))
  end.

(** The cells a slice covers, when it can be read. *)
Definition slice_cells (σ : State) (sl : slice) : option (list fileField) :=
  fst <$> read_slice sl σ.

(** ** Observing a builder

    What a builder holds, read through its references: the contents of its
    three maps and the [len] cells of [files] its slice covers. *)
Record View := mkView {
  v_query : gmap string (list string);
  v_form : gmap string (list string);
  v_files : list fileField;
  v_url : string;
  v_path : string;
  v_body : option (list byte);
  v_method : string;
  v_header : gmap string (list string);
  v_basicAuth : string * string;
  v_makeCopy : bool
}.

Definition view_of (σ : State) (s : HTTPClient) : option View :=
  q ← maps σ !! query s;
  f ← maps σ !! form s;
  fs ← slice_cells σ (files s);
  hd ← maps σ !! header s;
  Some (mkView q f fs (url s) (path s) (body s) (method s) hd (basicAuth s) (makeCopy s)).

Definition observe (σ : State) (c : loc) : option View :=
  s ← clients σ !! c; view_of σ s.

(** The map objects a builder struct refers to. *)
Definition maplocs (s : HTTPClient) : list loc := [query s; form s; header s].

(** A well-formed builder: allocated, its three maps distinct live objects,
    its slice within its backing array and free of nil cells. *)
Definition wf (σ : State) (c : loc) : bool :=
  match clients σ !! c with
  | Some s => bool_decide (NoDup (maplocs s)) && bool_decide (is_Some (view_of σ s))
  | None => false
  end.

(** What each mutator does to the observed contents. *)

Definition effect (m : Mutator) (v : View) : View :=
  match m with
  | MSetURL u =>
      mkView (v_query v) (v_form v) (v_files v) (TrimRight u "/") (v_path v)
        (v_body v) (v_method v) (v_header v) (v_basicAuth v) (v_makeCopy v)
  | MAppendPath p =>
      mkView (v_query v) (v_form v) (v_files v) (v_url v)
        (if decide (p = "") then v_path v else v_path v +:+ TrimRight (add_slash p) "/")
        (v_body v) (v_method v) (v_header v) (v_basicAuth v) (v_makeCopy v)
  | MAddQuery k x =>
      mkView (Values_Add k x (v_query v)) (v_form v) (v_files v) (v_url v) (v_path v)
        (v_body v) (v_method v) (v_header v) (v_basicAuth v) (v_makeCopy v)
  | MAddHeader k x =>
      mkView (v_query v) (v_form v) (v_files v) (v_url v) (v_path v)
        (v_body v) (v_method v) (Header_Add k x (v_header v)) (v_basicAuth v) (v_makeCopy v)
  | MAddFormField k x =>
      mkView (v_query v) (Values_Add k x (v_form v)) (v_files v) (v_url v) (v_path v)
        (v_body v) "POST" (v_header v) (v_basicAuth v) (v_makeCopy v)
  | MAddFile k f d =>
      mkView (v_query v) (v_form v) (v_files v ++ [FileField k f d]) (v_url v) (v_path v)
        (v_body v) "POST" (v_header v) (v_basicAuth v) (v_makeCopy v)
  | MSetBasicAuth u p =>
      mkView (v_query v) (v_form v) (v_files v) (v_url v) (v_path v)
        (v_body v) (v_method v) (v_header v) (u, p) (v_makeCopy v)
  | MSetJSONBody j =>
      mkView (v_query v) (v_form v) (v_files v) (v_url v) (v_path v)
        j "POST" (Header_Set "Content-Type" "application/json" (v_header v))
        (v_basicAuth v) (v_makeCopy v)
  | MSetRawBody b =>
      mkView (v_query v) (v_form v) (v_files v) (v_url v) (v_path v)
        b "POST" (Header_Del "Content-Type" (v_header v))
        (v_basicAuth v) (v_makeCopy v)
  | MGet =>
      mkView (v_query v) (v_form v) (v_files v) (v_url v) (v_path v)
        (v_body v) "GET" (v_header v) (v_basicAuth v) (v_makeCopy v)
  | MPost =>
      mkView (v_query v) (v_form v) (v_files v) (v_url v) (v_path v)
        (v_body v) "POST" (v_header v) (v_basicAuth v) (v_makeCopy v)
  end.

(** ** A sample runtime, for running the builder on concrete inputs *)

(** [getScheme] of net/url. *)
Fixpoint getScheme_from (i : nat) (seen rest : string) (rawURL : string)
  : Result (string * string) :=
  match rest with
  | EmptyString => Ok ("", rawURL)
  | String c rest' =>
      if is_lower c || is_upper c then getScheme_from (S i) (seen +:+ String c "") rest' rawURL
      else if is_digit c || in_cutset c "+-." then
        (if decide (i = 0)%nat then Ok ("", rawURL)
         else getScheme_from (S i) (seen +:+ String c "") rest' rawURL)
      else if Ascii.eqb c ":" then
        (if decide (i = 0)%nat then Err (errorString "missing protocol scheme")
         else Ok (seen, rest'))
      else Ok ("", rawURL)
  end.

Definition getScheme (rawURL : string) : Result (string * string) :=
  getScheme_from 0 "" rawURL rawURL.

Definition isCTL (c : ascii) : bool :=
  (N_of_ascii c <? 32)%N || (N_of_ascii c =? 127)%N.

Fixpoint stringContainsCTLByte (s : string) : bool :=
  match s with
  | EmptyString => false
  | String c rest => isCTL c || stringContainsCTLByte rest
  end.

(** [strings.Cut s sep] for a one-byte separator. *)
Fixpoint Cut (s : string) (sep : ascii) : string * string :=
  match s with
  | EmptyString => ("", "")
  | String c rest =>
      if Ascii.eqb c sep then ("", rest)
      else let '(before, after) := Cut rest sep in (String c before, after)
  end.

(** A stand-in for [url.Parse].  It performs the first checks of net/url the
    way the library does (fragment cut off, control bytes rejected, the scheme
    split off by [getScheme], the query cut at ['?']) and then stores what is
    left in [Path] without splitting off the authority or validating escapes. *)
Definition sample_url_Parse (rawURL : string) : Result URL :=
  let '(u, frag) := Cut rawURL "#" in
  if stringContainsCTLByte u
  then Err (urlError "parse" u "net/url: invalid control character in URL")
  else
    match getScheme u with
    | Err e => Err (urlError "parse" u (error_message e))
    | Ok (scheme, rest) =>
        let '(rest, rawq) := Cut rest "?" in
        Ok (mkURL scheme "" "" rest rawq frag)
    end.

Fixpoint sample_boundary (n : nat) : string :=
  match n with
  | O => "f00d"
  | S k => String "0" (sample_boundary k)
  end.

Definition sample_range_order (n : nat) (m : gmap string (list string))
  : list (string * list string) :=
  if Nat.even n then map_to_list m else reverse (map_to_list m).

(** An echo server: the response body is the request body.  An empty answer
    comes with [Content-Length: 0], for which the transport hands over
    [http.NoBody]. *)
Definition sample_http_Do (n : nat) (w : Wire) : Result RawResponse :=
  let echo := default [] (Body (w_request w)) in
  Ok (mkRawResponse 200 echo None
        (if decide (echo = []) then None else Some ErrReadOnClosedBody)).

(** [append] doubles the capacity of a small slice that is full. *)
Definition sample_growslice (oldcap needed : nat) : nat :=
  Nat.max needed (2 * oldcap).

#[local] Program Instance sample_runtime : GoRuntime := {|
  growslice := sample_growslice;
  range_order := sample_range_order;
  randomBoundary := sample_boundary;
  url_Parse := sample_url_Parse;
  http_Do := sample_http_Do
|}.
Next Obligation. intros. unfold sample_growslice. lia. Qed.
Next Obligation.
  intros n m. unfold sample_range_order.
  destruct (Nat.even n); [done | apply reverse_Permutation].
Qed.
Next Obligation.
  intros rawurl e. unfold sample_url_Parse.
  destruct (Cut rawurl "#") as [u frag].
  destruct (stringContainsCTLByte u); [intros [= <-]; eauto|].
  destruct (getScheme u) as [[scheme rest]|e']; [|intros [= <-]; eauto].
  by destruct (Cut rest "?").
Qed.

(** Run a computation from the empty store. *)
Definition run {A} (m : M A) : option (A * State) := m empty_state.

(** ** Sample builders *)

Definition sample_builder : loc * State :=
  default (1%positive, empty_state) (run New).

Definition new_view : View :=
  mkView ∅ ∅ [] "" "" None "GET" ∅ ("", "") true.

Definition with_makeCopy (b : bool) (v : View) : View :=
  mkView (v_query v) (v_form v) (v_files v) (v_url v) (v_path v)
    (v_body v) (v_method v) (v_header v) (v_basicAuth v) b.




Definition with_header (h : gmap string (list string)) (v : View) : View :=
  mkView (v_query v) (v_form v) (v_files v) (v_url v) (v_path v)
    (v_body v) (v_method v) h (v_basicAuth v) (v_makeCopy v).

(** The test [TestExpectedError]: a form field, then a raw body. *)
Definition conflicting_calls : list Mutator :=
  [MAddFormField "1" "1"; MSetRawBody (Some (s2b "123"))].

Definition conflicting_builder : loc * State :=
  default (1%positive, empty_state) (run (c <- New ;; chain conflicting_calls c)).

Definition conflicting_builder_bad_url : loc * State :=
  default (1%positive, empty_state)
    (run (c <- New ;; chain (MSetURL ":" :: conflicting_calls) c)).

Definition header_of (b : loc * State) : loc :=
  default 1%positive (header <$> clients b.2 !! b.1).

(** Two builders with the credentials cleared, the first one materialized
    once while it still held them: the [Authorization] value each of them
    sends. *)
Definition sent_Authorization (c : loc) : M (option (list string)) :=
  r <- ParseRequest c ;;
  match r with
  | Ok req => hd <- map_load (Header req) ;; ret (hd !! "Authorization")
  | Err _ => ret None
  end.

Definition leaked_Authorization
  : option (option (list string) * option (list string)) :=
  fst <$> run (b <- New ;;
               b <- SetBasicAuth "u" "p" b ;;
               ParseRequest b ;;
               b1 <- SetBasicAuth "" "" b ;;
               a1 <- sent_Authorization b1 ;;
               b' <- New ;;
               b' <- SetBasicAuth "u" "p" b' ;;
               b2 <- SetBasicAuth "" "" b' ;;
               a2 <- sent_Authorization b2 ;;
               ret (a1, a2)).

(** A request sent to the echo server, its response read twice. *)
Definition read_twice : option (Response * Result (list byte) * Result (list byte)) :=
  fst <$> run (c <- New ;;
               c <- SetURL "http://x.y" c ;;
               c <- SetRawBody (Some (s2b "raw body")) c ;;
               r <- Send c ;;
               first <- AsBytes r ;;
               second <- AsBytes r ;;
               ret (r, first, second)).

(** The same without a request body: the answer has no body bytes. *)
Definition read_empty_twice : option (Response * Result (list byte) * Result (list byte)) :=
  fst <$> run (c <- New ;;
               c <- SetURL "http://x.y" c ;;
               r <- Send c ;;
               first <- AsBytes r ;;
               second <- AsBytes r ;;
               ret (r, first, second)).

(** The store after [ReadAll] and [Close] on the stream at [l]. *)
Definition consumed (l : loc) (st : Stream) (σ : State) : State :=
  upd_streams <[l := mkStream [] (failure st) true (after_close st)]>
    (upd_streams <[l := mkStream [] (failure st) false (after_close st)]> σ).

(** The test [TestSimpleFile], with a form field added. *)
Definition upload_calls : list Mutator :=
  [MAddFile "file1" "file1.txt" (s2b "file1");
   MAddFile "file1" "file11.txt" (s2b "file11");
   MAddFile "file2" "file2.txt" (s2b "file2");
   MAddFormField "k" "v"].

Definition upload_builder : loc * State :=
  default (1%positive, empty_state) (run (c <- New ;; chain upload_calls c)).

(** A form field, then [SetRawBody(nil)]. *)
Definition form_builder : loc * State :=
  default (1%positive, empty_state) (run (c <- New ;; AddFormField "k" "v" c)).

Definition form_and_file_nil_body : loc * State :=
  default (1%positive, empty_state)
    (run (c <- New ;;
          chain [MAddFormField "k" "v"; MAddFile "f" "f.txt" (s2b "data");
                 MSetRawBody None] c)).

Definition bad_url_nil_body : loc * State :=
  default (1%positive, empty_state)
    (run (c <- New ;;
          chain [MSetURL ":"; MAddFormField "k" "v"; MSetRawBody None] c)).

(** A template with three files, branched twice with [AddFile]: the files
    each branch then holds. *)
Definition sibling_files : option (list fileField * list fileField) :=
  fst <$> run (c <- New ;;
               c <- chain [MAddFile "a" "a.txt" []; MAddFile "b" "b.txt" [];
                           MAddFile "c" "c.txt" []] c ;;
               c1 <- AddFile "x" "x.txt" [] c ;;
               c2 <- AddFile "y" "y.txt" [] c ;;
               (λ σ, Some ((default [] (v_files <$> observe σ c1),
                            default [] (v_files <$> observe σ c2)), σ))).

(** ** Vocabulary of the specifications *)

Section Vocabulary.
Context `{RT : GoRuntime}.

Definition WF (σ : State) (s : HTTPClient) : Prop :=
  NoDup (maplocs s) ∧ is_Some (view_of σ s).

Definition clone_state (σ : State) (s : HTTPClient) (v : View) : loc * State :=
  let lq := fresh (dom (maps σ)) in
  let M1 := <[lq := v_query v]> (maps σ) in
  let lh := fresh (dom M1) in
  let M2 := <[lh := v_header v]> M1 in
  let lf := fresh (dom M2) in
  let M3 := <[lf := v_form v]> M2 in
  let c' := fresh (dom (clients σ)) in
  (c', mkState (<[c' := set_form lf (set_header lh (set_query lq s))]> (clients σ))
         M3 (arrays σ) (streams σ) (S (S (S (rng σ)))) (wire σ)).

Definition inplace (m : Mutator) (c : loc) : M loc :=
  match m with
  | MSetURL u => modify c (set_url (TrimRight u "/")) ;; ret c
  | MAppendPath p =>
      if decide (p = "") then ret c
      else modify c (λ s, set_path (path s +:+ TrimRight (add_slash p) "/") s) ;; ret c
  | MAddQuery k x => s <- load c ;; map_modify (query s) (Values_Add k x) ;; ret c
  | MAddHeader k x => s <- load c ;; map_modify (header s) (Header_Add k x) ;; ret c
  | MAddFormField k x =>
      s <- load c ;; map_modify (form s) (Values_Add k x) ;;
      modify c (set_method "POST") ;; ret c
  | MAddFile k f d =>
      s <- load c ;; sl <- append_file (files s) (FileField k f d) ;;
      modify c (set_files sl) ;; modify c (set_method "POST") ;; ret c
  | MSetBasicAuth u p =>
      modify c (λ s, set_basicAuth (u, snd (basicAuth s)) s) ;;
      modify c (λ s, set_basicAuth (fst (basicAuth s), p) s) ;; ret c
  | MSetJSONBody j =>
      modify c (set_body j) ;; s <- load c ;;
      map_modify (header s) (Header_Set "Content-Type" "application/json") ;;
      modify c (set_method "POST") ;; ret c
  | MSetRawBody b =>
      modify c (set_body b) ;; modify c (set_method "POST") ;; s <- load c ;;
      map_modify (header s) (Header_Del "Content-Type") ;; ret c
  | MGet => modify c (set_method "GET") ;; ret c
  | MPost => modify c (set_method "POST") ;; ret c
  end.

Definition separate (sb sc : HTTPClient) : Prop :=
  (∀ l, l ∈ maplocs sb → l ∉ maplocs sc)
  ∧ (sl_arr (files sb) = sl_arr (files sc) → sl_len (files sb) ≤ sl_len (files sc))%nat.

Record mutated (σ σ' : State) (c : loc) (s s' : HTTPClient) : Prop := {
  mut_clients : clients σ' = <[c := s']> (clients σ);
  mut_query : query s' = query s;
  mut_form : form s' = form s;
  mut_header : header s' = header s;
  mut_makeCopy : makeCopy s' = makeCopy s;
  mut_maps : ∀ l, l ∉ maplocs s → maps σ' !! l = maps σ !! l;
  mut_arrays : ∀ a arr, arrays σ !! a = Some arr →
     ∃ arr', arrays σ' !! a = Some arr' ∧ length arr' = length arr
       ∧ ∀ i, (a ≠ sl_arr (files s) ∨ i < sl_len (files s))%nat → arr' !! i = arr !! i;
  mut_files : (sl_arr (files s') = sl_arr (files s) ∧ sl_len (files s) ≤ sl_len (files s'))%nat
              ∨ arrays σ !! sl_arr (files s') = None;
  mut_streams : streams σ' = streams σ;
  mut_wire : wire σ' = wire σ
}.

Definition effects (ms : list Mutator) (v : View) : View :=
  foldl (λ v m, effect m v) v ms.

(** The parts of a multipart body and the bytes [multipart.Writer] produces
    for them: every part opens with a delimiter line (preceded by CRLF except
    for the first), its header lines and an empty line. *)
Inductive Part :=
| FilePart (f : fileField)
| FieldPart (k value : string).

Definition part_headers (p : Part) : gmap string (list string) :=
  match p with
  | FilePart f =>
      <["Content-Type" := ["application/octet-stream"]]>
        (<["Content-Disposition" :=
             ["form-data; name=" +:+ String dquote (escapeQuotes (key f))
                +:+ String dquote "; filename="
                +:+ String dquote (escapeQuotes (filename f)) +:+ String dquote ""]]> ∅)
  | FieldPart k _ =>
      <["Content-Disposition" :=
          ["form-data; name=" +:+ String dquote (escapeQuotes k)
             +:+ String dquote ""]]> ∅
  end.

Definition part_data (p : Part) : list byte :=
  match p with
  | FilePart f => content f
  | FieldPart _ value => s2b value
  end.

Fixpoint render_parts (first : bool) (boundary : string) (parts : list Part) : list byte :=
  match parts with
  | [] => []
  | p :: rest =>
      s2b ((if first then "--" +:+ boundary +:+ crlf
            else crlf +:+ "--" +:+ boundary +:+ crlf)
           +:+ concat_strings (header_lines (part_headers p)) +:+ crlf)
        ++ part_data p ++ render_parts false boundary rest
  end.

Definition multipart_body (boundary : string) (parts : list Part) : list byte :=
  render_parts true boundary parts
    ++ s2b (crlf +:+ "--" +:+ boundary +:+ "--" +:+ crlf).

(** The writer after one part has been created and its data written. *)
Definition put_part (p : Part) (w : Writer) : Writer :=
  mkWriter
    (w_buf w
       ++ s2b ((match w_lastpart w with
                | Some _ => crlf +:+ "--" +:+ w_boundary w +:+ crlf
                | None => "--" +:+ w_boundary w +:+ crlf
                end) +:+ concat_strings (header_lines (part_headers p)) +:+ crlf)
       ++ part_data p)
    (w_boundary w) (Some (S (w_parts w))) (S (w_parts w)).

(** The form fields in the order a [range] over the form visits them. *)
Definition fields_of (entries : list (string * list string)) : list Part :=
  kv ← entries; FieldPart kv.1 <$> kv.2.

(** The header map once [ParseRequest] has set [User-Agent] and, for a
    non-empty user name, [Authorization]. *)
Definition stamped_header (v : View) : gmap string (list string) :=
  let h := Header_Set "User-Agent" UserAgent (v_header v) in
  if decide (fst (v_basicAuth v) ≠ "")
  then Header_Set "Authorization"
         (basicAuthValue (fst (v_basicAuth v)) (snd (v_basicAuth v))) h
  else h.

Definition base_request (v : View) (hd : loc) (u : URL) : Request :=
  mkRequest (v_method v) hd
    (if decide (size (v_query v) ≠ 0) then set_RawQuery (Values_Encode (v_query v)) u else u)
    None 0 None.

(** What materialization yields from the observed contents [v] of a builder
    whose header map is [hd], at draw counter [n]: the result, the contents of
    the header map afterwards, the number of draws made. *)
Record Outcome := mkOutcome {
  out_result : Result Request;
  out_header : gmap string (list string);
  out_draws : nat
}.

Definition materialize (v : View) (hd : loc) (n : nat) : Outcome :=
  let h := stamped_header v in
  match url_Parse (v_url v +:+ v_path v) with
  | Err e => mkOutcome (Err e) h 0
  | Ok u =>
      let req := base_request v hd u in
      if decide (v_body v ≠ None ∧ (length (v_files v) ≠ 0 ∨ size (v_form v) ≠ 0))
      then mkOutcome (Err ErrMultipleContentType) h 0
      else
        match v_body v with
        | Some b => mkOutcome (Ok (with_reader req (Some b))) h 0
        | None =>
            if decide (length (v_files v) ≠ 0) then
              let boundary := randomBoundary n in
              let parts := (FilePart <$> v_files v)
                             ++ fields_of (range_order (S n) (v_form v)) in
              mkOutcome (Ok (with_reader req (Some (multipart_body boundary parts))))
                (Header_Set "Content-Type"
                   (FormDataContentType (NewWriter boundary)) h) 2
            else if decide (size (v_form v) ≠ 0) then
              mkOutcome (Ok (with_reader req (Some (s2b (Values_Encode (v_form v))))))
                (Header_Set "Content-Type" "application/x-www-form-urlencoded" h) 0
            else mkOutcome (Ok req) h 0
        end
  end.


End Vocabulary.

(** ** Runs of [AddQuery], [AddHeader] and [AddFormField] calls *)

Inductive AddCall :=
| AddQ (k value : string)
| AddH (k value : string)
| AddF (k value : string).

Definition add_mutator (a : AddCall) : Mutator :=
  match a with
  | AddQ k x => MAddQuery k x
  | AddH k x => MAddHeader k x
  | AddF k x => MAddFormField k x
  end.

(** The values a run of calls adds under a key, in call order. *)
Definition query_added (k : string) (calls : list AddCall) : list string :=
  a ← calls; match a with AddQ k' x => if decide (k' = k) then [x] else [] | _ => [] end.
Definition form_added (k : string) (calls : list AddCall) : list string :=
  a ← calls; match a with AddF k' x => if decide (k' = k) then [x] else [] | _ => [] end.
Definition header_added (k : string) (calls : list AddCall) : list string :=
  a ← calls;
  match a with
  | AddH k' x => if decide (CanonicalMIMEHeaderKey k' = k) then [x] else []
  | _ => []
  end.

(** The values an encoded pair list, or a list of multipart parts, carries
    for a key, in the order they are written. *)
Definition values_of (k : string) (pairs : list (string * string)) : list string :=
  p ← pairs; if decide (p.1 = k) then [p.2] else [].
Definition field_values (k : string) (parts : list Part) : list string :=
  p ← parts;
  match p with
  | FieldPart k' x => if decide (k' = k) then [x] else []
  | FilePart _ => []
  end.

(** The tests [TestMultiQuery] and [TestSimpleForm], with a header added. *)
Definition sample_adds : list AddCall :=
  [AddQ "field1" "1"; AddQ "field1" "2"; AddQ "field2" "1";
   AddF "field1" "1"; AddF "field1" "2"; AddH "x-trace" "a"; AddH "X-Trace" "b"].

(** ** Scripts: any sequence of calls of the chaining API

    Besides the eleven mutators a builder offers [AutoClone] and [Clone]. *)

Inductive BuilderCall :=
| Mutate (m : Mutator)
| CallAutoClone (b : bool)
| CallClone.

(** The calls that attach something to the body (they set the method to
    POST), and the two that name the method. *)
Definition attaches (a : BuilderCall) : bool :=
  match a with
  | Mutate (MAddFormField _ _) | Mutate (MAddFile _ _ _)
  | Mutate (MSetJSONBody _) | Mutate (MSetRawBody _) => true
  | _ => false
  end.

Definition names_method (a : BuilderCall) : bool :=
  match a with
  | Mutate MGet | Mutate MPost => true
  | _ => false
  end.

(** What a call does to the observed contents of the builder it returns. *)
Definition step_view (a : BuilderCall) (v : View) : View :=
  match a with
  | Mutate m => effect m v
  | CallAutoClone b => with_makeCopy b v
  | CallClone => v
  end.

Section Scripts.
Context `{RT : GoRuntime}.

Definition builder_call (a : BuilderCall) : loc → M loc :=
  match a with
  | Mutate m => call m
  | CallAutoClone b => AutoClone b
  | CallClone => Clone
  end.

Fixpoint script (calls : list BuilderCall) (c : loc) : M loc :=
  match calls with
  | [] => ret c
  | a :: rest => c <- builder_call a c ;; script rest c
  end.

End Scripts.

(** The shape of a target [url + path]: the base has no trailing slash, the
    path is empty or goes from a slash to a byte that is not one. *)
Definition target_shape (v : View) : Prop :=
  last_byte (v_url v) ≠ Some slash
  ∧ (v_path v = ""
     ∨ first_byte (v_path v) = Some slash ∧ last_byte (v_path v) ≠ Some slash).

(** ** Reading a query string back: [url.ParseQuery]

    The handlers of the tests read what the builder sent with [r.URL.Query()]
    and [r.PostFormValue], both of which decode with [url.ParseQuery]. *)

Definition ishex (c : ascii) : bool :=
  is_digit c || byte_in 97 102 c || byte_in 65 70 c.

Definition unhex (c : ascii) : N :=
  if is_digit c then N_of_ascii c - 48
  else if byte_in 97 102 c then N_of_ascii c - 97 + 10
  else if byte_in 65 70 c then N_of_ascii c - 65 + 10
  else 0.

(** The two failures of [url.ParseQuery]: [url.EscapeError], a string type
    that holds the offending escape, and the error for a semicolon among the
    separators ("invalid semicolon separator in query"). *)
Inductive QueryError :=
| EscapeError (s : string)
| invalidSemicolon.

(** [url.QueryUnescape]: ["%XX"] is the byte [XX], ['+'] a space; a ['%'] that
    is not followed by two hexadecimal digits is an error (the leftmost one is
    reported, with at most three bytes of context). *)
Fixpoint QueryUnescape (s : string) : string + QueryError :=
  match s with
  | EmptyString => inl ""
  | String c rest =>
      if Ascii.eqb c "%" then
        match rest with
        | String h (String l rest') =>
            if ishex h && ishex l then
              match QueryUnescape rest' with
              | inl t => inl (String (ascii_of_N (unhex h * 16 + unhex l)) t)
              | inr e => inr e
              end
            else inr (EscapeError (String c (String h (String l ""))))
        | _ => inr (EscapeError s)
        end
      else
        match QueryUnescape rest with
        | inl t => inl (String (if Ascii.eqb c "+" then " "%char else c) t)
        | inr e => inr e
        end
  end.

(** The pieces the loop of [parseQuery] cuts off at each ['&'], one after the
    other (with an empty last piece when the loop stops on an empty rest; the
    loop skips empty pieces anyway). *)
Fixpoint split_amp (s : string) : list string :=
  match s with
  | EmptyString => [""]
  | String c rest =>
      if Ascii.eqb c "&" then "" :: split_amp rest
      else match split_amp rest with
           | seg :: segs => String c seg :: segs
           | [] => [String c ""]
           end
  end.

(** One round of the loop of [parseQuery]: the map so far and the error to
    return at the end. *)
Definition parse_pair (acc : gmap string (list string) * option QueryError) (piece : string)
  : gmap string (list string) * option QueryError :=
  if in_cutset ";" piece
  then (acc.1, Some invalidSemicolon)
  else if decide (piece = "") then acc
  else
    let '(k, value) := Cut piece "=" in
    match QueryUnescape k with
    | inr e1 => (acc.1, if acc.2 is None then Some e1 else acc.2)
    | inl k =>
        match QueryUnescape value with
        | inr e1 => (acc.1, if acc.2 is None then Some e1 else acc.2)
        | inl value => (Values_Add k value acc.1, acc.2)
        end
    end.

Definition ParseQuery (query : string) : gmap string (list string) * option QueryError :=
  foldl parse_pair (∅, None) (split_amp query).

(** Every value list holds a value: what [Values.Add] and [Header.Add] keep
    true of a map. *)
Definition no_empty_list (m : gmap string (list string)) : Prop :=
  ∀ k, m !! k ≠ Some [].

(** The two hexadecimal digits [QueryEscape] writes for a byte. *)
Definition hex_hi (c : ascii) : ascii := nth_byte (N_of_ascii c / 16) upperhex.
Definition hex_lo (c : ascii) : ascii := nth_byte (N_of_ascii c mod 16) upperhex.

(** The piece [Values.Encode] writes for one key and value. *)
Definition piece (kv : string * string) : string :=
  QueryEscape kv.1 +:+ "=" +:+ QueryEscape kv.2.

(** ** More sample builders *)

Definition struct_of (b : loc * State) : HTTPClient :=
  default (mkHTTPClient 1%positive 1%positive (Slice 1%positive 0 0) "" "" None ""
             1%positive ("", "") true)
    (clients b.2 !! b.1).

(** A template with three files; under the sample runtime its [files] slice
    has length 3 and capacity 4. *)
Definition three_files : list Mutator :=
  [MAddFile "a" "a.txt" []; MAddFile "b" "b.txt" []; MAddFile "c" "c.txt" []].

Definition template_builder : loc * State :=
  default (1%positive, empty_state) (run (c <- New ;; chain three_files c)).

(** The same template with auto-clone off. *)
Definition frozen_template : loc * State :=
  default (1%positive, empty_state)
    (run (c <- New ;; c <- chain three_files c ;; AutoClone false c)).

(** A builder with a form field and an [Authorization] header of its own. *)
Definition login_calls : list Mutator :=
  [MSetURL "http://x.y/"; MAddFormField "k" "v"; MAddHeader "authorization" "Bearer t"].

Definition login_builder : loc * State :=
  default (1%positive, empty_state) (run (c <- New ;; chain login_calls c)).

(** * Properties *)

(** Closed statements about sample runs are settled by evaluation, one
    conjunct after the other. *)
Ltac conjuncts := repeat lazymatch goal with |- _ ∧ _ => split end.
Ltac evaluate := vm_compute; first [reflexivity | discriminate].

(** ** The library models on sample inputs *)

Example base64_rfc4648 :
  base64 "foobar" = "Zm9vYmFy" ∧ base64 "fooba" = "Zm9vYmE=" ∧ base64 "foob" = "Zm9vYg==".
Proof. repeat split; reflexivity. Qed.

Example QueryEscape_sample : QueryEscape "a b&c=d/e~" = "a+b%26c%3Dd%2Fe~".
Proof. reflexivity. Qed.

Example Canonical_sample :
  CanonicalMIMEHeaderKey "content-type" = "Content-Type"
  ∧ CanonicalMIMEHeaderKey "USER-agent" = "User-Agent"
  ∧ CanonicalMIMEHeaderKey "x y" = "x y".
Proof. repeat split; reflexivity. Qed.

Example Encode_sample :
  Values_Encode (<["b" := ["2"]]> (<["a" := ["1"; "x y"]]> ∅)) = "a=1&a=x+y&b=2".
Proof. vm_compute. reflexivity. Qed.

(** ** Strings *)

Lemma TrimRight_last s cutset a :
  last_byte (TrimRight s cutset) = Some a → in_cutset a cutset = false.
Proof.
  induction s as [|b s IH]; simpl; [done|].
  destruct (TrimRight s cutset) as [|b' t] eqn:E.
  - destruct (in_cutset b cutset) eqn:Eb; simpl; [done|]. by intros [= ->].
  - simpl in *. done.
Qed.

Lemma TrimRight_decompose s cutset :
  ∃ t, s = TrimRight s cutset +:+ t ∧ all_in cutset t = true.
Proof.
  induction s as [|b s (t & Hs & Ht)]; simpl.
  - by exists "".
  - destruct (TrimRight s cutset) as [|b' t'] eqn:E.
    + destruct (in_cutset b cutset) eqn:Eb.
      * exists (String b s). simpl. split; [done|].
        rewrite Eb. simpl in Hs. by rewrite Hs.
      * exists t. simpl. split; [by rewrite Hs at 1|done].
    + exists t. simpl. split; [|done]. by rewrite Hs at 1.
Qed.

Lemma TrimRight_id s cutset :
  (∀ a, last_byte s = Some a → in_cutset a cutset = false) →
  TrimRight s cutset = s.
Proof.
  induction s as [|b s IH]; simpl; [done|]. intros H.
  destruct s as [|b' s'].
  - simpl. by rewrite (H b).
  - rewrite IH; [done|]. intros a Ha. by apply H.
Qed.

Lemma first_byte_add_slash p : first_byte (add_slash p) = Some slash.
Proof.
  unfold add_slash. destruct (decide _) as [|H]; [done|].
  by apply dec_stable in H.
Qed.

Lemma append_cons a (s t : string) : String a s +:+ t = String a (s +:+ t).
Proof. reflexivity. Qed.

(** ** Maps copied entry by entry *)

Lemma copy_slice_fresh (l : list string) :
  copy_slice (replicate (length l) "") l = l.
Proof.
  unfold copy_slice. rewrite length_replicate, firstn_all.
  rewrite drop_ge; [by rewrite app_nil_r | by rewrite length_replicate].
Qed.

Lemma foldl_insert_list_to_map {A} (f : list A → list A) (l : list (string * list A)) :
  foldl (λ clone kv, <[kv.1 := f kv.2]> clone) (∅ : gmap string (list A)) l
  = list_to_map (reverse (prod_map id f <$> l)).
Proof.
  induction l as [|x l IH] using rev_ind; [done|].
  rewrite foldl_app, fmap_app, reverse_app. simpl. by rewrite IH.
Qed.

Lemma copy_entries (m : gmap string (list string)) entries :
  entries ≡ₚ map_to_list m →
  foldl (λ clone kv, <[kv.1 := copy_slice (replicate (length kv.2) "") kv.2]> clone)
    ∅ entries = m.
Proof.
  intros Hp.
  rewrite (foldl_insert_list_to_map (λ vs, copy_slice (replicate (length vs) "") vs)).
  symmetry. apply list_to_map_flip.
  rewrite reverse_Permutation, <- Hp.
  assert (prod_map id (λ vs, copy_slice (replicate (length vs) "") vs) <$> entries = entries) as ->; [|done].
  clear. induction entries as [|[k vs] l IH]; csimpl; [done|].
  by rewrite copy_slice_fresh, IH.
Qed.

(** ** Slices *)

Lemma mapM_id_Some {A} (l : list (option A)) (k : list A) :
  mapM id l = Some k ↔ l = Some <$> k.
Proof.
  rewrite mapM_Some. split.
  - induction 1 as [|x y l' k' Hx _ IH]; [done|].
    unfold id in Hx. subst. csimpl. by f_equal.
  - intros ->. induction k; constructor; done.
Qed.

Lemma slice_cells_Some σ sl fs :
  slice_cells σ sl = Some fs ↔
  ∃ arr, arrays σ !! sl_arr sl = Some arr
         ∧ (sl_len sl ≤ sl_cap sl)%nat ∧ (sl_cap sl ≤ length arr)%nat
         ∧ take (sl_len sl) arr = Some <$> fs.
Proof.
  unfold slice_cells, read_slice. split.
  - destruct (arrays σ !! sl_arr sl) as [arr|] eqn:E; simpl; [|done].
    case_decide; simpl; [|done].
    destruct (mapM id (take (sl_len sl) arr)) as [k|] eqn:Em; simpl; [|done].
    intros [= <-]. apply mapM_id_Some in Em. exists arr. naive_solver.
  - intros (arr & -> & H1 & H2 & Ht). simpl.
    rewrite decide_True by done. apply mapM_id_Some in Ht. by rewrite Ht.
Qed.

Lemma read_slice_cells σ sl fs :
  slice_cells σ sl = Some fs → read_slice sl σ = Some (fs, σ).
Proof.
  unfold slice_cells, read_slice.
  destruct (arrays σ !! sl_arr sl) as [arr|]; simpl; [|done].
  case_decide; simpl; [|done].
  destruct (mapM id _); simpl; [|done]. by intros [= ->].
Qed.

Lemma slice_cells_length σ sl fs :
  slice_cells σ sl = Some fs → length fs = sl_len sl.
Proof.
  intros (arr & _ & H1 & H2 & Ht)%slice_cells_Some.
  apply (f_equal length) in Ht. rewrite length_take, length_fmap in Ht. lia.
Qed.

Lemma slice_cells_agree σ σ' sl arr arr' :
  arrays σ !! sl_arr sl = Some arr →
  arrays σ' !! sl_arr sl = Some arr' →
  length arr' = length arr →
  take (sl_len sl) arr' = take (sl_len sl) arr →
  slice_cells σ' sl = slice_cells σ sl.
Proof.
  intros Ha Ha' Hl Ht. unfold slice_cells, read_slice.
  rewrite Ha, Ha'. simpl. rewrite Hl, Ht.
  case_decide; [|done]. by destruct (mapM id _).
Qed.

(** ** The store: cloning and in-place mutation *)

Section Store.
Context `{RT : GoRuntime}.

Lemma bind_Some {A B} (m : M A) (k : A → M B) σ a σ' :
  m σ = Some (a, σ') → bind m k σ = k a σ'.
Proof. unfold bind. by intros ->. Qed.

Lemma copyMap_run σ l m :
  maps σ !! l = Some m →
  copyMap l σ
  = Some (fresh (dom (maps σ)), upd_maps <[fresh (dom (maps σ)) := m]> (upd_rng S σ)).
Proof.
  intros Hl. unfold copyMap, bind, map_load, range, draw, ret, map_new, bind.
  rewrite Hl. simpl. rewrite (copy_entries m); [done|]. apply range_order_perm.
Qed.

Lemma wf_WF σ c : wf σ c = true ↔ ∃ s, clients σ !! c = Some s ∧ WF σ s.
Proof.
  unfold wf, WF. destruct (clients σ !! c) as [s|]; [|naive_solver].
  rewrite andb_true_iff, !bool_decide_eq_true. naive_solver.
Qed.

Lemma view_of_Some σ s v :
  view_of σ s = Some v ↔
  maps σ !! query s = Some (v_query v) ∧ maps σ !! form s = Some (v_form v)
  ∧ maps σ !! header s = Some (v_header v)
  ∧ slice_cells σ (files s) = Some (v_files v)
  ∧ v_url v = url s ∧ v_path v = path s ∧ v_body v = body s
  ∧ v_method v = method s ∧ v_basicAuth v = basicAuth s ∧ v_makeCopy v = makeCopy s.
Proof.
  unfold view_of. fold (slice_cells σ (files s)). split.
  - destruct (maps σ !! query s); simpl; [|done].
    destruct (maps σ !! form s); simpl; [|done].
    destruct (slice_cells σ (files s)); simpl; [|done].
    destruct (maps σ !! header s); simpl; [|done].
    intros [= <-]. simpl. done.
  - intros (-> & -> & -> & -> & H). simpl. destruct v; simpl in *.
    destruct H as (-> & -> & -> & -> & -> & ->). done.
Qed.

Lemma fresh_lookup_ne {V} (m : gmap loc V) l x :
  m !! l = Some x → l ≠ fresh (dom m).
Proof.
  intros Hl ->. pose proof (is_fresh (dom m)) as Hf.
  apply Hf, elem_of_dom. eauto.
Qed.

Lemma fresh_lookup_None {V} (m : gmap loc V) : m !! fresh (dom m) = None.
Proof. apply not_elem_of_dom, is_fresh. Qed.

Lemma Clone_run σ c s v :
  clients σ !! c = Some s → view_of σ s = Some v →
  Clone c σ = Some (clone_state σ s v).
Proof.
  intros Hc (Hq & Hf & Hh & _)%view_of_Some.
  unfold Clone. erewrite bind_Some; [|by unfold load; rewrite Hc].
  erewrite bind_Some; [|by apply copyMap_run].
  erewrite bind_Some.
  2:{ apply copyMap_run. simpl. rewrite lookup_insert_ne; [done|].
      symmetry. by eapply fresh_lookup_ne. }
  erewrite bind_Some.
  2:{ apply copyMap_run. simpl. rewrite !lookup_insert_ne; [done|..];
      symmetry.
      - by eapply fresh_lookup_ne.
      - eapply fresh_lookup_ne. rewrite lookup_insert_ne; [done|].
        symmetry. by eapply fresh_lookup_ne. }
  reflexivity.
Qed.

Lemma call_inplace m c : call m c = (c <- cloneIfAuto c ;; inplace m c).
Proof. destruct m; reflexivity. Qed.

Lemma view_of_frame σ σ' sb :
  (∀ l, l ∈ maplocs sb → maps σ' !! l = maps σ !! l) →
  slice_cells σ' (files sb) = slice_cells σ (files sb) →
  view_of σ' sb = view_of σ sb.
Proof.
  intros Hm Hc. unfold view_of. fold (slice_cells σ' (files sb)) (slice_cells σ (files sb)).
  rewrite Hc, !Hm; [done|unfold maplocs; set_solver..].
Qed.

Lemma mutated_frame σ σ' c s s' b sb vb :
  mutated σ σ' c s s' → b ≠ c →
  clients σ !! b = Some sb → view_of σ sb = Some vb → separate sb s →
  clients σ' !! b = Some sb ∧ view_of σ' sb = Some vb ∧ separate sb s'.
Proof.
  intros [] Hbc Hb Hv [Hsep1 Hsep2]. split; [|split].
  - rewrite mut_clients0, lookup_insert_ne; done.
  - rewrite <- Hv. apply view_of_frame.
    + intros l Hl. apply mut_maps0. by apply Hsep1.
    + apply view_of_Some in Hv as (_ & _ & _ & Hcells & _).
      apply slice_cells_Some in Hcells as (arr & Ha & H1 & H2 & Ht).
      destruct (mut_arrays0 _ _ Ha) as (arr' & Ha' & Hlen & Hi).
      eapply slice_cells_agree; [done..|].
      apply list_eq. intros i. rewrite !lookup_take.
      case_decide; [|done]. apply Hi.
      destruct (decide (sl_arr (files sb) = sl_arr (files s))) as [E|]; [|by left].
      right. specialize (Hsep2 E). lia.
  - split.
    + intros l Hl. unfold maplocs. rewrite mut_query0, mut_form0, mut_header0.
      by apply Hsep1.
    + intros E. destruct mut_files0 as [[E1 Hle]|Hnone].
      * rewrite E1 in E. specialize (Hsep2 E). lia.
      * apply view_of_Some in Hv as (_ & _ & _ & Hcells & _).
        apply slice_cells_Some in Hcells as (arr & Ha & _). congruence.
Qed.

Lemma load_run σ c s : clients σ !! c = Some s → load c σ = Some (s, σ).
Proof. unfold load. by intros ->. Qed.

Lemma modify_run σ c s f :
  clients σ !! c = Some s → modify c f σ = Some (tt, upd_clients <[c := f s]> σ).
Proof. unfold modify. by intros ->. Qed.

Lemma map_modify_run σ l m f :
  maps σ !! l = Some m → map_modify l f σ = Some (tt, upd_maps <[l := f m]> σ).
Proof. unfold map_modify. by intros ->. Qed.

Lemma NoDup_maplocs s :
  NoDup (maplocs s) → query s ≠ form s ∧ query s ≠ header s ∧ form s ≠ header s.
Proof.
  unfold maplocs. rewrite !NoDup_cons. set_solver.
Qed.

Lemma not_in_maplocs l s :
  l ∉ maplocs s → l ≠ query s ∧ l ≠ form s ∧ l ≠ header s.
Proof. unfold maplocs. set_solver. Qed.

Ltac run_step :=
  first
    [ erewrite bind_Some; [|apply load_run; simpl; rewrite ?lookup_insert_eq; eassumption || reflexivity]
    | erewrite bind_Some; [|apply modify_run; simpl; rewrite ?lookup_insert_eq; eassumption || reflexivity]
    | erewrite bind_Some; [|apply map_modify_run; simpl; eassumption] ];
  simpl.

Ltac same_arrays :=
  intros a arr Ha; exists arr; simpl; split; [exact Ha | split; [reflexivity | intros; reflexivity]].

Ltac solve_mutated Hnd :=
  destruct (NoDup_maplocs _ Hnd) as (? & ? & ?);
  split; simpl;
  [ first [ by rewrite ?insert_insert_eq | symmetry; by apply insert_id ]
  | reflexivity | reflexivity | reflexivity | reflexivity
  | try done; intros l (? & ? & ?)%not_in_maplocs; by rewrite lookup_insert_ne
  | same_arrays
  | left; simpl; split; [reflexivity | apply Nat.le_refl]
  | reflexivity | reflexivity ].

Lemma slice_cells_arrays σ σ' sl :
  arrays σ' = arrays σ → slice_cells σ' sl = slice_cells σ sl.
Proof. unfold slice_cells, read_slice. intros ->. by destruct (arrays σ !! _) as [arr|]; simpl; [case_decide; [destruct (mapM id _)|]|]. Qed.

Ltac solve_view Hnd :=
  destruct (NoDup_maplocs _ Hnd) as (? & ? & ?);
  apply view_of_Some; simpl;
  rewrite ?lookup_insert_eq, ?lookup_insert_ne by done;
  repeat split; try done; try congruence;
  try (erewrite slice_cells_arrays; [eassumption | reflexivity]).

Lemma inplace_simple m σ c s v :
  (∀ k f d, m ≠ MAddFile k f d) →
  clients σ !! c = Some s → NoDup (maplocs s) → view_of σ s = Some v →
  ∃ σ' s', inplace m c σ = Some (c, σ') ∧ mutated σ σ' c s s'
           ∧ view_of σ' s' = Some (effect m v).
Proof.
  intros Hm Hc Hnd Hv.
  pose proof Hv as (Hq & Hf & Hh & Hcells & Hurl & Hpath & Hbody & Hmeth & Hauth & Hmk)%view_of_Some.
  destruct m; simpl; try (by edestruct Hm).
  all: try case_decide.
  all: repeat run_step.
  all: eexists _, _; (split; [reflexivity|]); split; [solve_mutated Hnd|solve_view Hnd].
Qed.

Lemma append_file_run σ sl x arr fs :
  arrays σ !! sl_arr sl = Some arr →
  (sl_len sl ≤ sl_cap sl)%nat → (sl_cap sl ≤ length arr)%nat →
  take (sl_len sl) arr = Some <$> fs →
  ∃ sl' σ', append_file sl x σ = Some (sl', σ')
    ∧ clients σ' = clients σ ∧ maps σ' = maps σ
    ∧ streams σ' = streams σ ∧ wire σ' = wire σ
    ∧ slice_cells σ' sl' = Some (fs ++ [x])
    ∧ ((sl_arr sl' = sl_arr sl ∧ sl_len sl ≤ sl_len sl')%nat ∨ arrays σ !! sl_arr sl' = None)
    ∧ (∀ a arr0, arrays σ !! a = Some arr0 →
        ∃ arr', arrays σ' !! a = Some arr' ∧ length arr' = length arr0
          ∧ ∀ i, (a ≠ sl_arr sl ∨ i < sl_len sl)%nat → arr' !! i = arr0 !! i).
Proof.
  intros Ha Hlc Hcl Ht. unfold append_file. rewrite Ha. simpl.
  destruct (decide (sl_len sl < sl_cap sl)%nat) as [Hlt|Hge].
  - eexists _, _. split; [reflexivity|]. simpl. repeat split.
    + apply slice_cells_Some. simpl. rewrite lookup_insert_eq.
      eexists. split; [reflexivity|]. rewrite length_insert.
      split; [lia|]. split; [lia|].
      rewrite (take_S_r _ _ (Some x)).
      * rewrite take_insert_ge by lia. by rewrite Ht, fmap_app.
      * apply list_lookup_insert_eq. lia.
    + left. split; [done|lia].
    + intros a arr0 Ha0. destruct (decide (a = sl_arr sl)) as [->|Hne].
      * rewrite lookup_insert_eq. assert (arr0 = arr) as -> by congruence.
        eexists. split; [reflexivity|]. rewrite length_insert. split; [done|].
        intros i [?|Hi]; [done|]. apply list_lookup_insert_ne. lia.
      * rewrite lookup_insert_ne by done. eauto.
  - pose proof (growslice_fits (sl_cap sl) (S (sl_len sl))) as Hfit.
    eexists _, _. split; [reflexivity|]. simpl. repeat split.
    + apply slice_cells_Some. simpl. rewrite lookup_insert_eq.
      eexists. split; [reflexivity|].
      assert (length (take (sl_len sl) arr) = sl_len sl) as Hlen
        by (rewrite length_take; lia).
      split; [lia|]. split.
      * rewrite length_app, Hlen. simpl. rewrite length_replicate. lia.
      * rewrite (app_assoc _ [Some x] _ : _ ++ Some x :: _ = _).
        rewrite take_app_length'.
        -- by rewrite Ht, fmap_app.
        -- rewrite length_app, Hlen. simpl. lia.
    + right. apply fresh_lookup_None.
    + intros a arr0 Ha0. rewrite lookup_insert_ne; [eauto|].
      symmetry. by eapply fresh_lookup_ne.
Qed.

Lemma inplace_AddFile k f d σ c s v :
  clients σ !! c = Some s → NoDup (maplocs s) → view_of σ s = Some v →
  ∃ σ' s', inplace (MAddFile k f d) c σ = Some (c, σ') ∧ mutated σ σ' c s s'
           ∧ view_of σ' s' = Some (effect (MAddFile k f d) v).
Proof.
  intros Hc Hnd Hv.
  pose proof Hv as (Hq & Hf & Hh & Hcells & Hurl & Hpath & Hbody & Hmeth & Hauth & Hmk)%view_of_Some.
  pose proof Hcells as (arr & Ha & H1 & H2 & Ht)%slice_cells_Some.
  destruct (append_file_run σ (files s) (FileField k f d) arr (v_files v))
    as (sl' & σ1 & Hrun & Hcl & Hmp & Hst & Hw & Hcells' & Hfiles & Harr); [done..|].
  simpl. run_step. erewrite bind_Some; [|exact Hrun].
  assert (clients σ1 !! c = Some s) as Hc1 by by rewrite Hcl.
  repeat run_step.
  eexists _, _. split; [reflexivity|]. split.
  - split; simpl;
      [ by rewrite insert_insert_eq, Hcl | done | done | done | done
      | intros l _; by rewrite Hmp | exact Harr | exact Hfiles
      | by rewrite Hst | by rewrite Hw ].
  - apply view_of_Some. simpl. rewrite Hmp.
    repeat split; try done.
    erewrite slice_cells_arrays; [exact Hcells'|reflexivity].
Qed.

Lemma inplace_mutated m σ c s v :
  clients σ !! c = Some s → NoDup (maplocs s) → view_of σ s = Some v →
  ∃ σ' s', inplace m c σ = Some (c, σ') ∧ mutated σ σ' c s s'
           ∧ view_of σ' s' = Some (effect m v).
Proof.
  destruct m; try (apply inplace_simple; done). apply inplace_AddFile.
Qed.

Lemma mutated_WF σ σ' c s s' v' :
  mutated σ σ' c s s' → NoDup (maplocs s) → view_of σ' s' = Some v' → WF σ' s'.
Proof.
  intros [] Hnd Hv. split; [|eauto].
  unfold maplocs in *. by rewrite mut_query0, mut_form0, mut_header0.
Qed.

(** What [Clone] leaves behind, for the clone and for every builder that
    was there before. *)
Lemma clone_state_fresh σ s v c' σ' :
  clone_state σ s v = (c', σ') →
  view_of σ s = Some v →
  ∃ s', clients σ' = <[c' := s']> (clients σ)
    ∧ clients σ !! c' = None
    ∧ NoDup (maplocs s')
    ∧ (∀ l, l ∈ maplocs s' → maps σ !! l = None)
    ∧ (∀ l, is_Some (maps σ !! l) → maps σ' !! l = maps σ !! l)
    ∧ view_of σ' s' = Some v
    ∧ files s' = files s
    ∧ arrays σ' = arrays σ ∧ streams σ' = streams σ ∧ wire σ' = wire σ.
Proof.
  unfold clone_state. intros [= <- <-] Hv.
  pose proof Hv as (Hq & Hf & Hh & Hcells & Hurl & Hpath & Hbody & Hmeth & Hauth & Hmk)%view_of_Some.
  set (lq := fresh (dom (maps σ))).
  set (M1 := <[lq := v_query v]> (maps σ)).
  set (lh := fresh (dom M1)).
  set (M2 := <[lh := v_header v]> M1).
  set (lf := fresh (dom M2)).
  assert (maps σ !! lq = None) as Hlq by apply fresh_lookup_None.
  assert (M1 !! lh = None) as Hlh by apply fresh_lookup_None.
  assert (M2 !! lf = None) as Hlf by apply fresh_lookup_None.
  assert (lh ≠ lq) as Hne1.
  { intros E. rewrite E in Hlh. unfold M1 in Hlh. by rewrite lookup_insert_eq in Hlh. }
  assert (maps σ !! lh = None) as Hlh'.
  { unfold M1 in Hlh. by rewrite lookup_insert_ne in Hlh. }
  assert (lf ≠ lh) as Hne2.
  { intros E. rewrite E in Hlf. unfold M2 in Hlf. by rewrite lookup_insert_eq in Hlf. }
  assert (M1 !! lf = None) as Hlf1.
  { unfold M2 in Hlf. by rewrite lookup_insert_ne in Hlf. }
  assert (lf ≠ lq) as Hne3.
  { intros E. rewrite E in Hlf1. unfold M1 in Hlf1. by rewrite lookup_insert_eq in Hlf1. }
  assert (maps σ !! lf = None) as Hlf'.
  { unfold M1 in Hlf1. by rewrite lookup_insert_ne in Hlf1. }
  eexists. split; [reflexivity|]. simpl.
  split; [apply fresh_lookup_None|].
  split.
  { unfold maplocs. simpl.
    repeat constructor; rewrite ?not_elem_of_cons, ?elem_of_nil; naive_solver. }
  split.
  { unfold maplocs. simpl. intros l. rewrite !elem_of_cons, elem_of_nil.
    intros [E|[E|[E|[]]]]; by rewrite E. }
  split.
  { intros l [x Hx]. unfold M2, M1.
    rewrite !lookup_insert_ne; [done|..]; intros E; rewrite <- E in Hx; congruence. }
  split.
  { apply view_of_Some. simpl. unfold M2, M1.
    rewrite lookup_insert_eq.
    rewrite (lookup_insert_ne _ lf lq), (lookup_insert_ne _ lh lq), lookup_insert_eq by done.
    rewrite (lookup_insert_ne _ lf lh), lookup_insert_eq by done.
    repeat split; try done.
    erewrite slice_cells_arrays; [exact Hcells|reflexivity]. }
  done.
Qed.

Lemma view_of_maps_live σ s v l :
  view_of σ s = Some v → l ∈ maplocs s → is_Some (maps σ !! l).
Proof.
  intros (Hq & Hf & Hh & _)%view_of_Some. unfold maplocs.
  rewrite !elem_of_cons, elem_of_nil. intros [->|[->|[->|[]]]]; eauto.
Qed.

(** [Clone] disturbs no builder that was there before, and its result shares
    no map with any of them. *)
Lemma Clone_frame σ c s v c' σ' :
  clients σ !! c = Some s → view_of σ s = Some v →
  clone_state σ s v = (c', σ') →
  ∃ s', clients σ' !! c' = Some s' ∧ clients σ !! c' = None
    ∧ NoDup (maplocs s') ∧ view_of σ' s' = Some v ∧ files s' = files s
    ∧ streams σ' = streams σ ∧ wire σ' = wire σ
    ∧ ∀ b sb vb, clients σ !! b = Some sb → view_of σ sb = Some vb →
        b ≠ c' ∧ clients σ' !! b = Some sb ∧ view_of σ' sb = Some vb
        ∧ (∀ l, l ∈ maplocs sb → l ∉ maplocs s').
Proof.
  intros Hc Hv Hcl.
  destruct (clone_state_fresh _ _ _ _ _ Hcl Hv)
    as (s' & Hcs & Hnew & Hnd & Hfresh & Hkeep & Hv' & Hfiles & Harr & Hst & Hw).
  exists s'. rewrite Hcs, lookup_insert_eq. repeat split; try done.
  - intros ->. congruence.
  - rewrite lookup_insert_ne; [done|]. intros ->. congruence.
  - rewrite <- H0. apply view_of_frame.
    + intros l Hl. apply Hkeep. by eapply view_of_maps_live.
    + by apply slice_cells_arrays.
  - intros l Hl Hl'. apply Hfresh in Hl'.
    destruct (view_of_maps_live _ _ _ _ H0 Hl) as [x Hx]. congruence.
Qed.

Lemma cloneIfAuto_run σ c s :
  clients σ !! c = Some s →
  cloneIfAuto c σ = if makeCopy s then Clone c σ else Some (c, σ).
Proof.
  intros Hc. unfold cloneIfAuto. erewrite bind_Some; [|by apply load_run].
  by destruct (makeCopy s).
Qed.

Lemma call_spec m σ c s v :
  clients σ !! c = Some s → NoDup (maplocs s) → view_of σ s = Some v →
  ∃ c' σ' s', call m c σ = Some (c', σ')
    ∧ clients σ' !! c' = Some s' ∧ NoDup (maplocs s')
    ∧ view_of σ' s' = Some (effect m v)
    ∧ (if makeCopy s
       then clients σ !! c' = None ∧ clients σ' !! c = Some s
            ∧ view_of σ' s = Some v ∧ separate s s'
       else c' = c)
    ∧ (∀ b sb vb, b ≠ c → clients σ !! b = Some sb → view_of σ sb = Some vb →
         separate sb s →
         b ≠ c' ∧ clients σ' !! b = Some sb ∧ view_of σ' sb = Some vb ∧ separate sb s')
    ∧ streams σ' = streams σ ∧ wire σ' = wire σ.
Proof.
  intros Hc Hnd Hv. rewrite call_inplace.
  unfold bind at 1. rewrite (cloneIfAuto_run _ _ _ Hc).
  destruct (makeCopy s) eqn:Hmk.
  - rewrite (Clone_run _ _ _ _ Hc Hv).
    destruct (clone_state σ s v) as [c1 σ1] eqn:Hcl.
    destruct (Clone_frame _ _ _ _ _ _ Hc Hv Hcl)
      as (s1 & Hc1 & Hnew & Hnd1 & Hv1 & Hfiles & Hst & Hw & Hold).
    destruct (inplace_mutated m σ1 c1 s1 v Hc1 Hnd1 Hv1) as (σ' & s' & Hrun & Hmut & Hv').
    exists c1, σ', s'. split; [done|].
    split. { rewrite (mut_clients _ _ _ _ _ Hmut). apply lookup_insert_eq. }
    split. { by eapply mutated_WF. }
    split; [done|].
    assert (∀ b sb vb, clients σ !! b = Some sb → view_of σ sb = Some vb →
              (sl_arr (files sb) = sl_arr (files s) → sl_len (files sb) ≤ sl_len (files s))%nat →
              b ≠ c1 ∧ clients σ' !! b = Some sb ∧ view_of σ' sb = Some vb ∧ separate sb s')
      as Hgen.
    { intros b sb vb Hb Hvb Hlen.
      destruct (Hold b sb vb Hb Hvb) as (Hne & Hb1 & Hvb1 & Hdisj).
      split; [done|].
      eapply mutated_frame; [done..|]. split; [done|]. by rewrite Hfiles. }
    split.
    { split; [done|]. destruct (Hgen c s v) as (_ & ? & ? & ?); done. }
    split.
    { intros b sb vb _ Hb Hvb [_ Hlen]. by apply Hgen. }
    rewrite (mut_streams _ _ _ _ _ Hmut), (mut_wire _ _ _ _ _ Hmut). done.
  - simpl.
    destruct (inplace_mutated m σ c s v Hc Hnd Hv) as (σ' & s' & Hrun & Hmut & Hv').
    exists c, σ', s'. split; [done|].
    split. { rewrite (mut_clients _ _ _ _ _ Hmut). apply lookup_insert_eq. }
    split. { by eapply mutated_WF. }
    split; [done|]. split; [done|].
    split.
    { intros b sb vb Hne Hb Hvb Hsep. split; [done|]. by eapply mutated_frame. }
    rewrite (mut_streams _ _ _ _ _ Hmut), (mut_wire _ _ _ _ _ Hmut). done.
Qed.

Lemma effect_makeCopy m v : v_makeCopy (effect m v) = v_makeCopy v.
Proof. by destruct m. Qed.

Lemma chain_spec ms σ c s v :
  clients σ !! c = Some s → NoDup (maplocs s) → view_of σ s = Some v →
  ∃ c' σ' s', chain ms c σ = Some (c', σ')
    ∧ clients σ' !! c' = Some s' ∧ NoDup (maplocs s')
    ∧ view_of σ' s' = Some (effects ms v)
    ∧ (makeCopy s = false → c' = c)
    ∧ (∀ b sb vb, b ≠ c → clients σ !! b = Some sb → view_of σ sb = Some vb →
         separate sb s →
         b ≠ c' ∧ clients σ' !! b = Some sb ∧ view_of σ' sb = Some vb ∧ separate sb s')
    ∧ streams σ' = streams σ ∧ wire σ' = wire σ.
Proof.
  revert σ c s v. induction ms as [|m ms IH]; intros σ c s v Hc Hnd Hv.
  - exists c, σ, s. simpl. do 5 (split; [done|]). split; [|done].
    by intros b sb vb ? ? ? ?.
  - simpl.
    destruct (call_spec m σ c s v Hc Hnd Hv)
      as (c1 & σ1 & s1 & Hrun & Hc1 & Hnd1 & Hv1 & Hmode & Hframe & Hst & Hw).
    erewrite bind_Some; [|exact Hrun].
    destruct (IH σ1 c1 s1 _ Hc1 Hnd1 Hv1)
      as (c' & σ' & s' & Hrun' & Hc' & Hnd' & Hv' & Hmode' & Hframe' & Hst' & Hw').
    exists c', σ', s'. split; [done|]. split; [done|]. split; [done|].
    split; [done|]. split.
    { intros Hmk. rewrite Hmk in Hmode. subst c1. apply Hmode'.
      apply view_of_Some in Hv1 as (_ & _ & _ & _ & _ & _ & _ & _ & _ & <-).
      rewrite effect_makeCopy.
      by apply view_of_Some in Hv as (_ & _ & _ & _ & _ & _ & _ & _ & _ & ->). }
    split; [|by rewrite Hst', Hw'].
    intros b sb vb Hne Hb Hvb Hsep.
    destruct (Hframe b sb vb Hne Hb Hvb Hsep) as (Hne1 & Hb1 & Hvb1 & Hsep1).
    by apply Hframe'.
Qed.
End Store.

(** ** The multipart writer *)

Lemma write_file_part f w :
  match CreateFormFile (key f) (filename f) w with
  | Err e => Err e
  | Ok (fw, w) => part_Write fw (content f) w
  end = Ok (put_part (FilePart f) w).
Proof.
  unfold CreateFormFile, CreatePart, part_Write. simpl.
  rewrite decide_True by done. unfold put_part. simpl. by rewrite <- app_assoc.
Qed.

Lemma WriteField_part k value w :
  WriteField k value w = Ok (put_part (FieldPart k value) w).
Proof.
  unfold WriteField, CreateFormField, CreatePart, part_Write. simpl.
  rewrite decide_True by done. unfold put_part. simpl. by rewrite <- app_assoc.
Qed.

Lemma write_files_parts fs w :
  write_files fs w = Ok (foldl (λ w p, put_part p w) w (FilePart <$> fs)).
Proof.
  revert w. induction fs as [|f fs IH]; intros w; [done|].
  cbn [write_files]. pose proof (write_file_part f w) as H.
  destruct (CreateFormFile (key f) (filename f) w) as [[fw w1]|e]; [|done].
  rewrite H. apply IH.
Qed.

Lemma write_values_parts k values w :
  write_values k values w = Ok (foldl (λ w p, put_part p w) w (FieldPart k <$> values)).
Proof.
  revert w. induction values as [|x values IH]; intros w; [done|].
  cbn [write_values]. rewrite WriteField_part. apply IH.
Qed.

Lemma write_form_parts entries w :
  write_form entries w = Ok (foldl (λ w p, put_part p w) w (fields_of entries)).
Proof.
  revert w. induction entries as [|[k values] entries IH]; intros w; [done|].
  cbn [write_form]. rewrite write_values_parts, IH.
  unfold fields_of. cbn. by rewrite foldl_app.
Qed.

Lemma put_parts_boundary parts w :
  w_boundary (foldl (λ w p, put_part p w) w parts) = w_boundary w.
Proof. revert w. induction parts as [|p parts IH]; intros w; [done|]. simpl. by rewrite IH. Qed.

Lemma put_parts_buf parts w :
  w_buf (foldl (λ w p, put_part p w) w parts)
  = w_buf w ++ render_parts (bool_decide (w_lastpart w = None)) (w_boundary w) parts.
Proof.
  revert w. induction parts as [|p parts IH]; intros w.
  - simpl. by rewrite app_nil_r.
  - cbn [foldl]. rewrite IH. cbn [put_part w_buf w_lastpart w_boundary render_parts].
    rewrite bool_decide_eq_false_2 by done.
    rewrite <- !app_assoc. do 2 f_equal.
    by destruct (w_lastpart w).
Qed.

Lemma put_parts_count parts w :
  w_parts (foldl (λ w p, put_part p w) w parts) = (w_parts w + length parts)%nat.
Proof.
  revert w. induction parts as [|p parts IH]; intros w; simpl; [lia|].
  rewrite IH. simpl. lia.
Qed.

(** The multipart branch of [ParseRequest] cannot fail, and produces the
    file parts in attachment order followed by the field parts. *)
Lemma multipart_run boundary fs entries :
  match write_files fs (NewWriter boundary) with
  | Err e => Err e
  | Ok w => match write_form entries w with
            | Err e => Err e
            | Ok w => Writer_Close w
            end
  end
  = Ok (mkWriter (multipart_body boundary ((FilePart <$> fs) ++ fields_of entries))
          boundary None (length fs + length (fields_of entries))).
Proof.
  rewrite write_files_parts, write_form_parts, <- foldl_app.
  unfold Writer_Close.
  rewrite put_parts_buf, put_parts_boundary, put_parts_count. simpl.
  by rewrite length_app, length_fmap.
Qed.

(** ** Materialization *)

Section Materialize.
Context `{RT : GoRuntime}.

Lemma range_run σ m :
  range m σ = Some (range_order (rng σ) m, upd_rng S σ).
Proof. reflexivity. Qed.

Lemma draw_run σ : draw σ = Some (rng σ, upd_rng S σ).
Proof. reflexivity. Qed.

Lemma map_load_run σ l m : maps σ !! l = Some m → map_load l σ = Some (m, σ).
Proof. unfold map_load. by intros ->. Qed.

Lemma closed_writer_buf boundary fs entries :
  w_buf (foldl (λ w p, put_part p w)
           (foldl (λ w p, put_part p w) (NewWriter boundary) (FilePart <$> fs))
           (fields_of entries))
    ++ s2b (crlf +:+ "--" +:+ boundary +:+ "--" +:+ crlf)
  = multipart_body boundary ((FilePart <$> fs) ++ fields_of entries).
Proof. by rewrite <- foldl_app, put_parts_buf. Qed.

Ltac pr_step :=
  first
    [ erewrite bind_Some; [|apply load_run; eassumption]
    | erewrite bind_Some;
      [|apply map_modify_run; simpl; rewrite ?lookup_insert_eq; first [eassumption|reflexivity]]
    | erewrite bind_Some;
      [|apply map_load_run; simpl; rewrite ?lookup_insert_ne by done; eassumption]
    | erewrite bind_Some; [|apply draw_run]
    | erewrite bind_Some; [|apply range_run]
    | erewrite bind_Some;
      [|apply read_slice_cells; erewrite slice_cells_arrays; [eassumption|reflexivity]] ];
  cbn [Header Method ReqURL].

Lemma ParseRequest_run σ c s v :
  clients σ !! c = Some s → NoDup (maplocs s) → view_of σ s = Some v →
  ∃ σ', ParseRequest c σ = Some (out_result (materialize v (header s) (rng σ)), σ')
    ∧ clients σ' = clients σ
    ∧ maps σ' = <[header s := out_header (materialize v (header s) (rng σ))]> (maps σ)
    ∧ arrays σ' = arrays σ ∧ streams σ' = streams σ ∧ wire σ' = wire σ
    ∧ rng σ' = (out_draws (materialize v (header s) (rng σ)) + rng σ)%nat.
Proof.
  intros Hc Hnd Hv.
  pose proof Hv as (Hq & Hf & Hh & Hcells & Hurl & Hpath & Hbody & Hmeth & Hauth & Hmk)%view_of_Some.
  destruct (NoDup_maplocs _ Hnd) as (Hqf & Hqh & Hfh).
  pose proof (slice_cells_length _ _ _ Hcells) as Hlen.
  unfold ParseRequest, materialize, stamped_header, base_request.
  rewrite Hurl, Hpath, Hbody, Hmeth, Hauth, Hlen.
  do 2 pr_step.
  destruct (decide ((basicAuth s).1 ≠ "")); [pr_step|unfold bind at 1, ret at 1].
  all: destruct (url_Parse (url s +:+ path s)) as [u|e];
    [|eexists; split; [reflexivity|]; simpl; rewrite ?insert_insert_eq; done].
  all: do 2 pr_step.
  all: destruct (decide (body s ≠ None ∧ (sl_len (files s) ≠ 0 ∨ size (v_form v) ≠ 0)));
    [eexists; split; [reflexivity|]; simpl; rewrite ?insert_insert_eq; done|].
  all: destruct (body s) as [b|];
    [eexists; split; [reflexivity|]; simpl; rewrite ?insert_insert_eq; done|].
  all: destruct (decide (sl_len (files s) ≠ 0)).
  all: try (destruct (decide (size (v_form v) ≠ 0)); [pr_step|];
            eexists; (split; [reflexivity|]); simpl; rewrite ?insert_insert_eq; done).
  all: do 2 pr_step.
  all: rewrite write_files_parts; pr_step; rewrite write_form_parts.
  all: unfold Writer_Close; pr_step.
  all: eexists; (split; [unfold ret; cbn [w_buf w_boundary]; rewrite !put_parts_boundary; cbn [NewWriter w_boundary]; rewrite closed_writer_buf; reflexivity|]).
  all: simpl; rewrite ?insert_insert_eq; done.
Qed.
End Materialize.

(** ** The builder: cloning, bodies, paths *)

Section Claims.
Context `{RT : GoRuntime}.

Lemma observe_WF σ c v :
  wf σ c = true → observe σ c = Some v →
  ∃ s, clients σ !! c = Some s ∧ NoDup (maplocs s) ∧ view_of σ s = Some v.
Proof.
  intros (s & Hc & Hnd & _)%wf_WF. unfold observe. rewrite Hc. simpl. eauto.
Qed.

Lemma WF_wf σ c s v :
  clients σ !! c = Some s → NoDup (maplocs s) → view_of σ s = Some v →
  wf σ c = true ∧ observe σ c = Some v.
Proof.
  intros Hc Hnd Hv. split.
  - apply wf_WF. exists s. split; [done|]. split; [done|eauto].
  - unfold observe. by rewrite Hc.
Qed.

Lemma New_spec σ :
  ∃ c σ' s, New σ = Some (c, σ')
    ∧ clients σ !! c = None ∧ clients σ' !! c = Some s
    ∧ NoDup (maplocs s) ∧ view_of σ' s = Some new_view
    ∧ streams σ' = streams σ ∧ wire σ' = wire σ.
Proof.
  unfold New, bind, map_new, array_new, new_client. simpl.
  set (lq := fresh (dom (maps σ))).
  set (M1 := <[lq := ∅]> (maps σ)).
  set (lf := fresh (dom M1)).
  set (M2 := <[lf := ∅]> M1).
  set (lh := fresh (dom M2)).
  set (a := fresh (dom (arrays σ))).
  set (c := fresh (dom (clients σ))).
  assert (M1 !! lf = None) as Hlf by apply fresh_lookup_None.
  assert (M2 !! lh = None) as Hlh by apply fresh_lookup_None.
  assert (lf ≠ lq) as Hne1.
  { intros E. rewrite E in Hlf. unfold M1 in Hlf. by rewrite lookup_insert_eq in Hlf. }
  assert (lh ≠ lf) as Hne2.
  { intros E. rewrite E in Hlh. unfold M2 in Hlh. by rewrite lookup_insert_eq in Hlh. }
  assert (lh ≠ lq) as Hne3.
  { intros E. rewrite E in Hlh. unfold M2, M1 in Hlh.
    by rewrite lookup_insert_ne, lookup_insert_eq in Hlh. }
  eexists _, _, _. split; [reflexivity|]. simpl.
  split; [apply fresh_lookup_None|]. split; [apply lookup_insert_eq|].
  split.
  { unfold maplocs. simpl.
    repeat constructor; rewrite ?not_elem_of_cons, ?elem_of_nil; naive_solver. }
  split; [|done].
  apply view_of_Some. simpl. fold M1 lf M2 lh. unfold M2, M1.
  rewrite (lookup_insert_ne _ lh lq), (lookup_insert_ne _ lf lq), lookup_insert_eq by done.
  rewrite (lookup_insert_ne _ lh lf), !lookup_insert_eq by done.
  repeat split; try done.
  apply slice_cells_Some. simpl. rewrite lookup_insert_eq. eexists. split; [done|].
  simpl. repeat split; lia.
Qed.

Lemma AutoClone_spec b σ c s v :
  clients σ !! c = Some s → NoDup (maplocs s) → view_of σ s = Some v →
  ∃ c1 σ1 s1, AutoClone b c σ = Some (c1, σ1)
    ∧ clients σ !! c1 = None ∧ clients σ1 !! c1 = Some s1
    ∧ NoDup (maplocs s1) ∧ view_of σ1 s1 = Some (with_makeCopy b v)
    ∧ clients σ1 !! c = Some s ∧ view_of σ1 s = Some v ∧ separate s s1.
Proof.
  intros Hc Hnd Hv. unfold AutoClone.
  unfold bind at 1. rewrite (Clone_run _ _ _ _ Hc Hv).
  destruct (clone_state σ s v) as [c1 σ1] eqn:Hcl.
  destruct (Clone_frame _ _ _ _ _ _ Hc Hv Hcl)
    as (s1 & Hc1 & Hnew & Hnd1 & Hv1 & Hfiles & Hst & Hw & Hold).
  erewrite bind_Some; [|by apply modify_run].
  destruct (Hold c s v Hc Hv) as (Hne & Hc' & Hv' & Hdisj).
  eexists _, _, _. split; [reflexivity|]. simpl.
  split; [done|]. split; [apply lookup_insert_eq|]. split; [done|].
  apply view_of_Some in Hv1 as Hf1.
  destruct Hf1 as (? & ? & ? & Hcells & ? & ? & ? & ? & ? & ?).
  split.
  { apply view_of_Some. simpl. repeat split; try done.
    erewrite slice_cells_arrays; [exact Hcells|reflexivity]. }
  split; [by rewrite lookup_insert_ne|].
  split.
  { rewrite <- Hv'. apply view_of_frame; [done|]. by apply slice_cells_arrays. }
  split; [done|]. simpl. rewrite Hfiles. lia.
Qed.

(** A mutator call on a well-formed builder returns a well-formed builder
    with the contents [effect] describes, and reaches no transport. *)
Lemma call_observed (m : Mutator) σ c v :
  wf σ c = true → observe σ c = Some v →
  ∃ c' σ', call m c σ = Some (c', σ')
    ∧ wf σ' c' = true
    ∧ observe σ' c' = Some (effect m v)
    ∧ wire σ' = wire σ.
Proof.
  intros Hwf Hobs. destruct (observe_WF _ _ _ Hwf Hobs) as (s & Hc & Hnd & Hv).
  destruct (call_spec m σ c s v Hc Hnd Hv)
    as (c' & σ' & s' & Hrun & Hc' & Hnd' & Hv' & _ & _ & _ & Hw).
  exists c', σ'. split; [done|].
  destruct (WF_wf _ _ _ _ Hc' Hnd' Hv') as [Hwf' Hobs']. done.
Qed.

(** C1. Copy-on-write protocol.  For each of the eleven mutators, called on
    a well-formed builder [c] whose observed contents are [v]: the call
    returns a builder [c'] whose contents are [effect m v].  When the
    auto-clone flag of [c] is set, [c'] is a newly allocated builder and the
    contents of [c] (query, header, form, files, body and every scalar field)
    are what they were before the call.  When the flag is not set, [c'] is
    [c] itself: the mutation happened in place. *)
Theorem clone_or_mutate (m : Mutator) σ c v :
  wf σ c = true → observe σ c = Some v →
  ∃ c' σ', call m c σ = Some (c', σ')
    ∧ wf σ' c' = true
    ∧ observe σ' c' = Some (effect m v)
    ∧ (v_makeCopy v = true →
         c' ≠ c ∧ clients σ !! c' = None ∧ observe σ' c = Some v)
    ∧ (v_makeCopy v = false → c' = c).
Proof.
  intros Hwf Hobs. destruct (observe_WF _ _ _ Hwf Hobs) as (s & Hc & Hnd & Hv).
  destruct (call_spec m σ c s v Hc Hnd Hv)
    as (c' & σ' & s' & Hrun & Hc' & Hnd' & Hv' & Hmode & _).
  exists c', σ'. split; [done|].
  destruct (WF_wf _ _ _ _ Hc' Hnd' Hv') as [Hwf' Hobs'].
  do 2 (split; [done|]).
  apply view_of_Some in Hv as Hfields.
  destruct Hfields as (_ & _ & _ & _ & _ & _ & _ & _ & _ & Hmk).
  rewrite Hmk. destruct (makeCopy s).
  - destruct Hmode as (Hnew & Hc2 & Hv2 & _). split; [|done]. intros _.
    split; [intros ->; congruence|]. split; [done|].
    unfold observe. by rewrite Hc2.
  - subst c'. split; done.
Qed.


Lemma effects_snoc ms m v : effects (ms ++ [m]) v = effect m (effects ms v).
Proof. unfold effects. by rewrite foldl_app. Qed.

Lemma effects_cons m ms v : effects (m :: ms) v = effects ms (effect m v).
Proof. reflexivity. Qed.






Lemma TrimRight_no_trailing_slash s : last_byte (TrimRight s "/") ≠ Some slash.
Proof. intros H. by apply TrimRight_last in H. Qed.

(** C7 (amended).  Path joining.  [SetURL u] stores [u] without its trailing
    slashes.  [AppendPath ""] changes nothing.  [AppendPath p], for a
    non-empty [p], prepends one slash when [p] does not start with one (a [p]
    that starts with slashes is taken as it is), strips the trailing slashes
    and appends the result to the accumulated path.  On a new builder, base
    "https://a.com/" followed by the segments "p1", "/p2", "", "/p3/", "/p4/"
    gives the target "https://a.com/p1/p2/p3/p4". *)
Theorem path_joining σ c v :
  wf σ c = true → observe σ c = Some v →
  (∀ u, ∃ c' σ' v', SetURL u c σ = Some (c', σ') ∧ observe σ' c' = Some v'
      ∧ v_url v' = TrimRight u "/" ∧ v_path v' = v_path v
      ∧ last_byte (v_url v') ≠ Some slash
      ∧ ∃ t, u = v_url v' +:+ t ∧ all_in "/" t = true)
  ∧ (∃ c' σ', AppendPath "" c σ = Some (c', σ') ∧ observe σ' c' = Some v)
  ∧ (∀ p, p ≠ "" →
      ∃ c' σ' v', AppendPath p c σ = Some (c', σ') ∧ observe σ' c' = Some v'
        ∧ v_url v' = v_url v
        ∧ v_path v' = v_path v +:+ TrimRight (add_slash p) "/"
        ∧ last_byte (TrimRight (add_slash p) "/") ≠ Some slash
        ∧ first_byte (add_slash p) = Some slash
        ∧ (first_byte p = Some slash → add_slash p = p)
        ∧ (first_byte p ≠ Some slash → add_slash p = "/" +:+ p))
  ∧ (∃ c' σ' v',
       (c0 <- New ;;
        chain [MSetURL "https://a.com/"; MAppendPath "p1"; MAppendPath "/p2";
               MAppendPath ""; MAppendPath "/p3/"; MAppendPath "/p4/"] c0) σ
         = Some (c', σ')
       ∧ observe σ' c' = Some v'
       ∧ v_url v' = "https://a.com" ∧ v_path v' = "/p1/p2/p3/p4"
       ∧ v_url v' +:+ v_path v' = "https://a.com/p1/p2/p3/p4").
Proof.
  intros Hwf Hobs. split; [|split; [|split]].
  - intros u.
    destruct (call_observed (MSetURL u) σ c v Hwf Hobs)
      as (c' & σ' & Hrun & _ & Hobs' & _).
    exists c', σ', (effect (MSetURL u) v). do 2 (split; [done|]). simpl.
    do 2 (split; [done|]). split; [apply TrimRight_no_trailing_slash|].
    apply TrimRight_decompose.
  - destruct (call_observed (MAppendPath "") σ c v Hwf Hobs)
      as (c' & σ' & Hrun & _ & Hobs' & _).
    exists c', σ'. split; [done|]. rewrite Hobs'. simpl. by destruct v.
  - intros p Hp.
    destruct (call_observed (MAppendPath p) σ c v Hwf Hobs)
      as (c' & σ' & Hrun & _ & Hobs' & _).
    exists c', σ', (effect (MAppendPath p) v). do 2 (split; [done|]). simpl.
    rewrite decide_False by done. do 2 (split; [done|]).
    split; [apply TrimRight_no_trailing_slash|].
    split; [apply first_byte_add_slash|].
    unfold add_slash. split; intros H.
    + by rewrite decide_False by (by intros ?).
    + by rewrite decide_True.
  - destruct (New_spec σ) as (c0 & σ0 & s0 & Hnew & _ & Hc0 & Hnd0 & Hv0 & _).
    set (ms := [MSetURL "https://a.com/"; MAppendPath "p1"; MAppendPath "/p2";
                MAppendPath ""; MAppendPath "/p3/"; MAppendPath "/p4/"]).
    destruct (chain_spec ms σ0 c0 s0 _ Hc0 Hnd0 Hv0)
      as (c' & σ' & s' & Hrun & Hc' & Hnd' & Hv' & _).
    exists c', σ', (effects ms new_view).
    split; [by erewrite bind_Some by exact Hnew|].
    split; [by apply (WF_wf _ _ _ _ Hc' Hnd' Hv')|].
    conjuncts; evaluate.
Qed.
End Claims.

Lemma clone_or_mutate_witness :
  wf sample_builder.2 sample_builder.1 = true
  ∧ observe sample_builder.2 sample_builder.1 = Some new_view
  ∧ ∃ c' σ', call (MAddQuery "q" "1") sample_builder.1 sample_builder.2 = Some (c', σ')
      ∧ wf σ' c' = true
      ∧ observe σ' c' = Some (effect (MAddQuery "q" "1") new_view)
      ∧ (v_makeCopy new_view = true →
           c' ≠ sample_builder.1 ∧ clients sample_builder.2 !! c' = None
           ∧ observe σ' sample_builder.1 = Some new_view)
      ∧ (v_makeCopy new_view = false → c' = sample_builder.1).
Proof.
  split; [vm_compute; reflexivity|]. split; [vm_compute; reflexivity|].
  apply (clone_or_mutate (MAddQuery "q" "1") sample_builder.2 sample_builder.1 new_view);
    vm_compute; reflexivity.
Defined.


(** Branches of one template are separate builders with separate maps, but
    [Clone] copies the [files] slice header only: when the backing array has
    spare capacity, the [append] of each branch writes the same cell, and the
    first branch ends up with the second branch's file. *)
Example sibling_clones_share_files :
  sibling_files
  = Some ([FileField "a" "a.txt" []; FileField "b" "b.txt" [];
           FileField "c" "c.txt" []; FileField "y" "y.txt" []],
          [FileField "a" "a.txt" []; FileField "b" "b.txt" [];
           FileField "c" "c.txt" []; FileField "y" "y.txt" []]).
Proof. evaluate. Qed.




Lemma path_joining_witness :
  wf sample_builder.2 sample_builder.1 = true
  ∧ observe sample_builder.2 sample_builder.1 = Some new_view
  ∧ ∃ c' σ' v', AppendPath "seg/" sample_builder.1 sample_builder.2 = Some (c', σ')
      ∧ observe σ' c' = Some v'
      ∧ v_url v' = v_url new_view
      ∧ v_path v' = v_path new_view +:+ TrimRight (add_slash "seg/") "/"
      ∧ last_byte (TrimRight (add_slash "seg/") "/") ≠ Some slash
      ∧ first_byte (add_slash "seg/") = Some slash
      ∧ (first_byte "seg/" = Some slash → add_slash "seg/" = "seg/")
      ∧ (first_byte "seg/" ≠ Some slash → add_slash "seg/" = "/" +:+ "seg/").
Proof.
  split; [vm_compute; reflexivity|]. split; [vm_compute; reflexivity|].
  refine (proj1 (proj2 (proj2
    (path_joining sample_builder.2 sample_builder.1 new_view _ _))) "seg/" _);
    [vm_compute; reflexivity..|discriminate].
Defined.

Lemma single_leading_slash_counterexample :
  ∃ c σ v, run (c <- New ;; AppendPath "//p" c) = Some (c, σ)
    ∧ observe σ c = Some v
    ∧ v_path v = "//p"
    ∧ leading_slashes (v_path v) = 2%nat.
Proof. eexists _, _, _. conjuncts; evaluate. Qed.

(** ** Materializing and sending *)

Section Sending.
Context `{RT : GoRuntime}.

Lemma ParseRequest_spec σ c v :
  wf σ c = true → observe σ c = Some v →
  ∃ s σ', clients σ !! c = Some s
    ∧ ParseRequest c σ = Some (out_result (materialize v (header s) (rng σ)), σ')
    ∧ maps σ' !! header s = Some (out_header (materialize v (header s) (rng σ)))
    ∧ wf σ' c = true
    ∧ observe σ' c
      = Some (with_header (out_header (materialize v (header s) (rng σ))) v)
    ∧ wire σ' = wire σ ∧ streams σ' = streams σ.
Proof.
  intros Hwf Hobs. destruct (observe_WF _ _ _ Hwf Hobs) as (s & Hc & Hnd & Hv).
  destruct (ParseRequest_run σ c s v Hc Hnd Hv)
    as (σ' & Hrun & Hcl & Hmaps & Harr & Hst & Hw & _).
  exists s, σ'. split; [done|]. split; [done|].
  split; [by rewrite Hmaps, lookup_insert_eq|].
  assert (clients σ' !! c = Some s) as Hc' by by rewrite Hcl.
  destruct (NoDup_maplocs _ Hnd) as (Hqf & Hqh & Hfh).
  pose proof Hv as (Hq & Hf & Hh & Hcells & Hrest)%view_of_Some.
  assert (view_of σ' s
          = Some (with_header (out_header (materialize v (header s) (rng σ))) v)) as Hv'.
  { apply view_of_Some. simpl. rewrite Hmaps.
    rewrite !lookup_insert_ne, lookup_insert_eq by done.
    repeat split; try done; try tauto.
    by erewrite slice_cells_arrays. }
  destruct (WF_wf _ _ _ _ Hc' Hnd Hv') as [? ?]. done.
Qed.

Lemma Send_parse_error σ c e σ' :
  ParseRequest c σ = Some (Err e, σ') →
  Send c σ = Some (mkResponse None (Some e), σ').
Proof. intros H. unfold Send. by erewrite bind_Some by exact H. Qed.

Lemma materialize_conflict v hd n u :
  url_Parse (v_url v +:+ v_path v) = Ok u →
  is_Some (v_body v) → (v_files v ≠ [] ∨ v_form v ≠ ∅) →
  materialize v hd n = mkOutcome (Err ErrMultipleContentType) (stamped_header v) 0.
Proof.
  intros Hu [b Hb] Hff. unfold materialize. rewrite Hu.
  rewrite decide_True; [done|]. split; [by rewrite Hb|].
  destruct Hff as [Hfs|Hfm]; [left|right].
  - by rewrite length_zero_iff_nil.
  - by rewrite map_size_empty_iff.
Qed.

(** C4 (amended).  Conflict detection.  On a builder whose URL parses, with
    a raw or JSON body set and at least one form field or file attached,
    [ParseRequest] fails with the "multiple content type" error, [Send]
    returns a wrapper that carries only that error and leaves the log of
    transport calls as it was, and [AsBytes] on that wrapper returns the
    error. *)
Theorem conflict_detection σ c v u :
  wf σ c = true → observe σ c = Some v →
  is_Some (v_body v) → (v_files v ≠ [] ∨ v_form v ≠ ∅) →
  url_Parse (v_url v +:+ v_path v) = Ok u →
  ∃ σ', ParseRequest c σ = Some (Err ErrMultipleContentType, σ')
    ∧ Send c σ = Some (mkResponse None (Some ErrMultipleContentType), σ')
    ∧ wire σ' = wire σ
    ∧ AsBytes (mkResponse None (Some ErrMultipleContentType)) σ'
      = Some (Err ErrMultipleContentType, σ').
Proof.
  intros Hwf Hobs Hb Hff Hu.
  destruct (ParseRequest_spec σ c v Hwf Hobs) as (s & σ' & Hc & Hrun & _ & _ & _ & Hw & _).
  rewrite (materialize_conflict _ _ _ _ Hu Hb Hff) in Hrun. simpl in Hrun.
  exists σ'. split; [done|]. split; [by apply Send_parse_error|]. done.
Qed.

Lemma Header_Set_Content_Type x h :
  Header_Set "Content-Type" x h !! "Content-Type" = Some [x].
Proof.
  unfold Header_Set. change (CanonicalMIMEHeaderKey "Content-Type") with "Content-Type".
  apply lookup_insert_eq.
Qed.

(** C5. Body selection: once the URL has parsed and the conflict check has
    passed, [ParseRequest] takes exactly one branch, in this order: the raw
    body when one is set; else, when files are attached, a multipart body
    with one part per file in attachment order followed by one part per form
    field, and [Content-Type] naming the boundary; else, when there are form
    fields, the URL-encoded form with its [Content-Type]; else no body. *)
Theorem body_selection σ c v u :
  wf σ c = true → observe σ c = Some v →
  url_Parse (v_url v +:+ v_path v) = Ok u →
  ¬ (is_Some (v_body v) ∧ (v_files v ≠ [] ∨ v_form v ≠ ∅)) →
  ∃ req σ' hdr,
    ParseRequest c σ = Some (Ok req, σ')
    ∧ maps σ' !! Header req = Some hdr
    ∧ observe σ' c = Some (with_header hdr v)
    ∧ match v_body v with
      | Some b =>
          Body req = Some b ∧ ContentLength req = Z.of_nat (length b)
          ∧ GetBody req = Some b ∧ hdr = stamped_header v
      | None =>
          match v_files v with
          | _ :: _ =>
              let boundary := randomBoundary (rng σ) in
              let entries := range_order (S (rng σ)) (v_form v) in
              Body req = Some (multipart_body boundary
                                 ((FilePart <$> v_files v) ++ fields_of entries))
              ∧ entries ≡ₚ map_to_list (v_form v)
              ∧ hdr !! "Content-Type" = Some [FormDataContentType (NewWriter boundary)]
              ∧ hdr = Header_Set "Content-Type"
                        (FormDataContentType (NewWriter boundary)) (stamped_header v)
          | [] =>
              if decide (v_form v = ∅)
              then Body req = None ∧ GetBody req = None ∧ hdr = stamped_header v
              else Body req = Some (s2b (Values_Encode (v_form v)))
                   ∧ hdr !! "Content-Type" = Some ["application/x-www-form-urlencoded"]
                   ∧ hdr = Header_Set "Content-Type" "application/x-www-form-urlencoded"
                             (stamped_header v)
          end
      end.
Proof.
  intros Hwf Hobs Hu Hok.
  destruct (ParseRequest_spec σ c v Hwf Hobs)
    as (s & σ' & Hc & Hrun & Hhdr & _ & Hobs' & _).
  revert Hrun Hhdr Hobs'. unfold materialize. rewrite Hu.
  rewrite decide_False.
  2:{ intros [Hb Hff]. apply Hok. split.
      - by destruct (v_body v).
      - destruct Hff as [H|H]; [left|right].
        + by rewrite <- length_zero_iff_nil.
        + by rewrite <- map_size_empty_iff. }
  destruct (v_body v) as [b|]; cbn [out_result out_header].
  { intros Hrun Hhdr Hobs'. eexists _, σ', _. split; [exact Hrun|]. by simpl. }
  destruct (v_files v) as [|f fs] eqn:Hfs; simpl length.
  - rewrite decide_False by (by intros ?).
    destruct (decide (v_form v = ∅)) as [He|Hne].
    + rewrite decide_False by (rewrite He, map_size_empty; by intros ?).
      intros Hrun Hhdr Hobs'. eexists _, σ', _. split; [exact Hrun|]. by simpl.
    + rewrite decide_True by (by rewrite map_size_empty_iff).
      intros Hrun Hhdr Hobs'. eexists _, σ', _. split; [exact Hrun|]. simpl.
      split; [done|]. split; [done|]. split; [done|]. split; [|done].
      apply Header_Set_Content_Type.
  - rewrite decide_True by done. cbn [out_result out_header].
    intros Hrun Hhdr Hobs'. eexists _, σ', _. split; [exact Hrun|]. simpl.
    split; [done|]. split; [done|]. split; [done|].
    split; [apply range_order_perm|]. split; [|done].
    apply Header_Set_Content_Type.
Qed.

Lemma materialize_without_body v hd n :
  v_body v = None → out_result (materialize v hd n) ≠ Err ErrMultipleContentType.
Proof.
  intros Hb. unfold materialize.
  destruct (url_Parse _) as [u|e] eqn:Hu.
  - destruct (decide (v_body v ≠ None ∧ _)) as [[H _]|_]; [done|].
    rewrite Hb. destruct (decide (length _ ≠ 0)); [done|].
    by destruct (decide (size _ ≠ 0)).
  - destruct (url_Parse_error _ _ Hu) as (u' & cause & ->). done.
Qed.

Lemma materialize_form_only v hd n u :
  v_body v = None → v_files v = [] → v_form v ≠ ∅ →
  url_Parse (v_url v +:+ v_path v) = Ok u →
  materialize v hd n
  = mkOutcome
      (Ok (with_reader (base_request v hd u) (Some (s2b (Values_Encode (v_form v))))))
      (Header_Set "Content-Type" "application/x-www-form-urlencoded" (stamped_header v)) 0.
Proof.
  intros Hb Hfs Hfm Hu. unfold materialize. rewrite Hu.
  destruct (decide (v_body v ≠ None ∧ _)) as [[H _]|_]; [done|].
  rewrite Hb, Hfs. simpl.
  destruct (decide (0%nat ≠ 0%nat)); [done|].
  destruct (decide (size _ ≠ 0)) as [|H]; [done|].
  apply dec_stable in H. by apply map_size_empty_iff in H.
Qed.

(** C10 (amended).  [SetRawBody(nil)] leaves the body unset, while it still
    forces the method to POST and deletes [Content-Type].  [ParseRequest] on
    the result never fails with the "multiple content type" error; when form
    fields are present, no file is attached and the URL parses, it produces
    the URL-encoded form body with its [Content-Type]. *)
Theorem SetRawBody_nil σ c v :
  wf σ c = true → observe σ c = Some v →
  ∃ c1 σ1 v1, SetRawBody None c σ = Some (c1, σ1)
    ∧ wf σ1 c1 = true ∧ observe σ1 c1 = Some v1
    ∧ v_body v1 = None ∧ v_method v1 = "POST"
    ∧ v_header v1 !! "Content-Type" = None
    ∧ (∃ r σ2, ParseRequest c1 σ1 = Some (r, σ2) ∧ r ≠ Err ErrMultipleContentType)
    ∧ (∀ u, v_form v ≠ ∅ → v_files v = [] →
         url_Parse (v_url v +:+ v_path v) = Ok u →
         ∃ req σ2 hdr, ParseRequest c1 σ1 = Some (Ok req, σ2)
           ∧ Method req = "POST"
           ∧ Body req = Some (s2b (Values_Encode (v_form v)))
           ∧ maps σ2 !! Header req = Some hdr
           ∧ hdr !! "Content-Type" = Some ["application/x-www-form-urlencoded"]).
Proof.
  intros Hwf Hobs.
  destruct (call_observed (MSetRawBody None) σ c v Hwf Hobs)
    as (c1 & σ1 & Hrun & Hwf1 & Hobs1 & _).
  exists c1, σ1, (effect (MSetRawBody None) v).
  do 3 (split; [done|]). simpl. do 2 (split; [done|]).
  split.
  { unfold Header_Del. change (CanonicalMIMEHeaderKey "Content-Type") with "Content-Type".
    apply lookup_delete_eq. }
  destruct (ParseRequest_spec σ1 c1 _ Hwf1 Hobs1)
    as (s1 & σ2 & Hc1 & Hparse & Hhdr & _).
  split.
  { eexists _, σ2. split; [exact Hparse|]. by apply materialize_without_body. }
  intros u Hfm Hfs Hu.
  rewrite (materialize_form_only _ _ _ u) in Hparse, Hhdr by done.
  eexists _, σ2, _. split; [exact Hparse|]. simpl.
  split; [done|]. split; [done|]. split; [exact Hhdr|].
  apply Header_Set_Content_Type.
Qed.
End Sending.

Lemma conflict_detection_witness :
  wf conflicting_builder.2 conflicting_builder.1 = true
  ∧ observe conflicting_builder.2 conflicting_builder.1
    = Some (effects conflicting_calls new_view)
  ∧ is_Some (v_body (effects conflicting_calls new_view))
  ∧ url_Parse "" = Ok zeroURL
  ∧ ∃ σ', ParseRequest conflicting_builder.1 conflicting_builder.2
          = Some (Err ErrMultipleContentType, σ')
    ∧ Send conflicting_builder.1 conflicting_builder.2
      = Some (mkResponse None (Some ErrMultipleContentType), σ')
    ∧ wire σ' = wire conflicting_builder.2
    ∧ AsBytes (mkResponse None (Some ErrMultipleContentType)) σ'
      = Some (Err ErrMultipleContentType, σ').
Proof.
  split; [vm_compute; reflexivity|]. split; [vm_compute; reflexivity|].
  split; [vm_compute; eauto|]. split; [reflexivity|].
  apply (conflict_detection conflicting_builder.2 conflicting_builder.1
           (effects conflicting_calls new_view) zeroURL).
  - vm_compute; reflexivity.
  - vm_compute; reflexivity.
  - vm_compute; eauto.
  - right. vm_compute. discriminate.
  - reflexivity.
Defined.

Lemma conflict_detection_counterexample :
  ∃ v σ',
    observe conflicting_builder_bad_url.2 conflicting_builder_bad_url.1 = Some v
    ∧ v_body v = Some (s2b "123")
    ∧ v_form v !! "1" = Some ["1"]
    ∧ v_url v = ":"
    ∧ ParseRequest conflicting_builder_bad_url.1 conflicting_builder_bad_url.2
      = Some (Err (urlError "parse" ":" "missing protocol scheme"), σ')
    ∧ Send conflicting_builder_bad_url.1 conflicting_builder_bad_url.2
      = Some (mkResponse None (Some (urlError "parse" ":" "missing protocol scheme")), σ')
    ∧ urlError "parse" ":" "missing protocol scheme" ≠ ErrMultipleContentType.
Proof.
  eexists _, _. conjuncts; evaluate.
Qed.

Lemma body_selection_witness :
  wf upload_builder.2 upload_builder.1 = true
  ∧ observe upload_builder.2 upload_builder.1 = Some (effects upload_calls new_view)
  ∧ ∃ req σ' hdr,
      ParseRequest upload_builder.1 upload_builder.2 = Some (Ok req, σ')
      ∧ maps σ' !! Header req = Some hdr
      ∧ Body req
        = Some (multipart_body (randomBoundary (rng upload_builder.2))
                  [FilePart (FileField "file1" "file1.txt" (s2b "file1"));
                   FilePart (FileField "file1" "file11.txt" (s2b "file11"));
                   FilePart (FileField "file2" "file2.txt" (s2b "file2"));
                   FieldPart "k" "v"])
      ∧ hdr !! "Content-Type"
        = Some ["multipart/form-data; boundary=" +:+ randomBoundary (rng upload_builder.2)].
Proof.
  split; [vm_compute; reflexivity|]. split; [vm_compute; reflexivity|].
  destruct (body_selection upload_builder.2 upload_builder.1
              (effects upload_calls new_view) zeroURL)
    as (req & σ' & hdr & Hrun & Hhdr & _ & Hbody & _ & Hct & _).
  - vm_compute; reflexivity.
  - vm_compute; reflexivity.
  - reflexivity.
  - intros [[b Hb] _]. vm_compute in Hb. discriminate.
  - exists req, σ', hdr. split; [exact Hrun|]. split; [exact Hhdr|].
    split; [exact Hbody|exact Hct].
Defined.

Lemma SetRawBody_nil_witness :
  wf form_builder.2 form_builder.1 = true
  ∧ observe form_builder.2 form_builder.1 = Some (effect (MAddFormField "k" "v") new_view)
  ∧ ∃ c1 σ1 v1, SetRawBody None form_builder.1 form_builder.2 = Some (c1, σ1)
    ∧ v_body v1 = None ∧ v_method v1 = "POST"
    ∧ ∃ req σ2 hdr, ParseRequest c1 σ1 = Some (Ok req, σ2)
        ∧ Method req = "POST"
        ∧ Body req = Some (s2b "k=v")
        ∧ maps σ2 !! Header req = Some hdr
        ∧ hdr !! "Content-Type" = Some ["application/x-www-form-urlencoded"].
Proof.
  split; [vm_compute; reflexivity|]. split; [vm_compute; reflexivity|].
  destruct (SetRawBody_nil form_builder.2 form_builder.1
              (effect (MAddFormField "k" "v") new_view))
    as (c1 & σ1 & v1 & Hrun & _ & _ & Hb & Hm & _ & _ & Hform);
    [vm_compute; reflexivity..|].
  exists c1, σ1, v1. do 3 (split; [assumption|]).
  apply (Hform zeroURL).
  - vm_compute. discriminate.
  - reflexivity.
  - reflexivity.
Defined.

Lemma SetRawBody_nil_counterexample :
  (∃ v req σ' hdr,
     observe form_and_file_nil_body.2 form_and_file_nil_body.1 = Some v
     ∧ v_body v = None ∧ v_form v !! "k" = Some ["v"]
     ∧ ParseRequest form_and_file_nil_body.1 form_and_file_nil_body.2 = Some (Ok req, σ')
     ∧ maps σ' !! Header req = Some hdr
     ∧ hdr !! "Content-Type"
       = Some ["multipart/form-data; boundary="
                 +:+ randomBoundary (rng form_and_file_nil_body.2)]
     ∧ Body req ≠ Some (s2b (Values_Encode (v_form v))))
  ∧ (∃ v σ',
       observe bad_url_nil_body.2 bad_url_nil_body.1 = Some v
       ∧ v_body v = None ∧ v_form v !! "k" = Some ["v"]
       ∧ ParseRequest bad_url_nil_body.1 bad_url_nil_body.2
         = Some (Err (urlError "parse" ":" "missing protocol scheme"), σ')).
Proof.
  split.
  - eexists _, _, _, _. conjuncts; evaluate.
  - eexists _, _. conjuncts; evaluate.
Qed.

(** C3 (code bug).  [ParseRequest] writes to the builder it materializes:
    the request's [Header] is the builder's own header map, so on a new
    builder the header map goes from empty to [User-Agent: Unirest-Go/1.0].
    What is written stays: a builder materialized while it held credentials
    hands [Authorization] on to the builder derived from it by clearing them,
    where the same calls without the materialization send none. *)
Theorem ParseRequest_writes_to_the_builder :
  (∃ req σ',
     observe sample_builder.2 sample_builder.1 = Some new_view
     ∧ ParseRequest sample_builder.1 sample_builder.2 = Some (Ok req, σ')
     ∧ Header req = header_of sample_builder
     ∧ observe σ' sample_builder.1
       = Some (with_header (<["User-Agent" := ["Unirest-Go/1.0"]]> ∅) new_view))
  ∧ leaked_Authorization = Some (Some ["Basic dTpw"], None).
Proof.
  split.
  - eexists _, _. conjuncts; evaluate.
  - evaluate.
Qed.

(** ** The response wrapper *)

Lemma b2s_s2b s : b2s (s2b s) = s.
Proof. apply string_of_list_byte_of_string. Qed.

Lemma s2b_b2s b : s2b (b2s b) = b.
Proof. apply list_byte_of_string_of_list_byte. Qed.

Lemma AsString_AsBytes r σ :
  AsString r σ = match AsBytes r σ with
                 | Some (Ok buf, σ') => Some (Ok (b2s buf), σ')
                 | Some (Err e, σ') => Some (Err e, σ')
                 | None => None
                 end.
Proof.
  unfold AsString, bind. destruct (AsBytes r σ) as [[[buf|e] σ']|]; reflexivity.
Qed.

(** C9 (amended).  The response wrapper.  [AsBytes] returns the deferred
    error, and no bytes, when there is one; else the "request is not sent"
    error when there is no response; else it reads the body to its end and
    closes it, returning the bytes read when the read succeeds and the read
    error, and no bytes, when it fails.  On a body that was closed already,
    as on a second call, it returns what that body answers to a read after
    [Close]: its error, or, for a body that keeps answering EOF
    ([http.NoBody]), no bytes and no error.  [AsString] returns the same
    errors, and the bytes of [AsBytes] as text, byte for byte. *)
Theorem response_wrapper r σ :
  (∀ e, RespErr r = Some e →
        AsBytes r σ = Some (Err e, σ) ∧ AsString r σ = Some (Err e, σ))
  ∧ (RespErr r = None → resp r = None →
        AsBytes r σ = Some (Err ErrNotSent, σ)
        ∧ AsString r σ = Some (Err ErrNotSent, σ))
  ∧ (∀ hr st, RespErr r = None → resp r = Some hr →
        streams σ !! RespBody hr = Some st →
        match closed st, failure st with
        | false, None =>
            AsBytes r σ = Some (Ok (pending st), consumed (RespBody hr) st σ)
            ∧ AsString r σ = Some (Ok (b2s (pending st)), consumed (RespBody hr) st σ)
            ∧ s2b (b2s (pending st)) = pending st
        | false, Some e =>
            AsBytes r σ = Some (Err e, consumed (RespBody hr) st σ)
            ∧ AsString r σ = Some (Err e, consumed (RespBody hr) st σ)
        | true, _ =>
            ∃ σ', match after_close st with
                  | Some e => AsBytes r σ = Some (Err e, σ')
                              ∧ AsString r σ = Some (Err e, σ')
                  | None => AsBytes r σ = Some (Ok [], σ')
                            ∧ AsString r σ = Some (Ok "", σ')
                  end
        end)
  ∧ (∀ hr st, RespErr r = None → resp r = Some hr →
        streams σ !! RespBody hr = Some st → closed st = false →
        ∃ first σ1 σ2,
          AsBytes r σ = Some (first, σ1)
          ∧ AsBytes r σ1 = Some (match after_close st with
                                 | Some e => Err e
                                 | None => Ok []
                                 end, σ2)).
Proof.
  split; [|split; [|split]].
  - intros e He. rewrite AsString_AsBytes. unfold AsBytes. rewrite He. done.
  - intros He Hr. rewrite AsString_AsBytes. unfold AsBytes. rewrite He, Hr. done.
  - intros hr st He Hr Hst. rewrite AsString_AsBytes. unfold AsBytes.
    rewrite He, Hr. unfold bind, ReadAll, Close. rewrite Hst. simpl.
    destruct (closed st) eqn:Hcl; simpl.
    + rewrite Hst. simpl. destruct (after_close st) as [e|]; by eexists.
    + rewrite lookup_insert_eq. simpl. unfold consumed.
      destruct (failure st) as [e|]; simpl; [done|].
      split; [done|]. split; [done|]. apply s2b_b2s.
  - intros hr st He Hr Hst Hcl.
    exists (match failure st with Some e => Err e | None => Ok (pending st) end),
      (consumed (RespBody hr) st σ).
    unfold AsBytes. rewrite He, Hr. unfold bind, ReadAll, Close, consumed.
    rewrite Hst. simpl. rewrite Hcl. simpl. rewrite !lookup_insert_eq. simpl.
    rewrite !lookup_insert_eq. simpl.
    destruct (after_close st) as [e|]; eexists; (split; [by destruct (failure st)|done]).
Qed.

Lemma response_wrapper_counterexample :
  ∃ r hr bytes,
    read_twice = Some (r, Ok bytes, Err ErrReadOnClosedBody)
    ∧ RespErr r = None ∧ resp r = Some hr ∧ bytes = s2b "raw body".
Proof. eexists _, _, _. conjuncts; evaluate. Qed.

(** An answer without body bytes comes with [http.NoBody]: the second read
    finds nothing, and no error. *)
Example empty_response_read_twice :
  ∃ r hr, read_empty_twice = Some (r, Ok [], Ok [])
          ∧ RespErr r = None ∧ resp r = Some hr.
Proof. eexists _, _. conjuncts; evaluate. Qed.

(** ** Multi-value accumulation *)

Lemma Values_Add_lookup_total k' x (q : gmap string (list string)) k :
  Values_Add k' x q !!! k = q !!! k ++ (if decide (k' = k) then [x] else []).
Proof.
  unfold Values_Add. rewrite !lookup_total_alt.
  destruct (decide (k' = k)) as [->|Hne].
  - by rewrite lookup_insert_eq.
  - rewrite lookup_insert_ne by done. by rewrite app_nil_r.
Qed.

Lemma accumulate calls v :
  let v' := effects (add_mutator <$> calls) v in
  (∀ k, v_query v' !!! k = v_query v !!! k ++ query_added k calls)
  ∧ (∀ k, v_form v' !!! k = v_form v !!! k ++ form_added k calls)
  ∧ (∀ k, v_header v' !!! k = v_header v !!! k ++ header_added k calls)
  ∧ ((∃ k x, AddF k x ∈ calls) → v_method v' = "POST")
  ∧ v_body v' = v_body v ∧ v_files v' = v_files v
  ∧ v_url v' = v_url v ∧ v_path v' = v_path v ∧ v_basicAuth v' = v_basicAuth v.
Proof.
  revert v. induction calls as [|a calls IH]; intros v; cbv zeta.
  - cbn. repeat split; intros; rewrite ?app_nil_r; try done.
    destruct H as (k & x & H). by apply elem_of_nil in H.
  - rewrite fmap_cons, effects_cons.
    destruct (IH (effect (add_mutator a) v)) as (Hq & Hf & Hh & Hm & Hb & Hfs & Hu & Hp & Hau).
    split; [|split; [|split; [|split]]].
    + intros k. rewrite Hq. unfold query_added. rewrite bind_cons.
      destruct a; simpl; rewrite ?Values_Add_lookup_total, <- ?app_assoc; done.
    + intros k. rewrite Hf. unfold form_added. rewrite bind_cons.
      destruct a; simpl; rewrite ?Values_Add_lookup_total, <- ?app_assoc; done.
    + intros k. rewrite Hh. unfold header_added. rewrite bind_cons.
      destruct a; simpl; unfold Header_Add;
        rewrite ?Values_Add_lookup_total, <- ?app_assoc; done.
    + intros (k & x & [<-|Hin]%elem_of_cons).
      * clear -IH. simpl.
        assert (∀ calls v, v_method v = "POST" →
                  v_method (effects (add_mutator <$> calls) v) = "POST") as Hkeep.
        { clear. induction calls as [|a calls IH]; intros v Hv; [done|].
          rewrite fmap_cons, effects_cons. apply IH. by destruct a. }
        by apply Hkeep.
      * apply Hm. eauto.
    + rewrite Hb, Hfs, Hu, Hp, Hau. by destruct a.
Qed.

Lemma insert_sorted_perm k l : insert_sorted k l ≡ₚ k :: l.
Proof.
  induction l as [|x l IH]; simpl; [done|].
  destruct (String.leb k x); [done|]. rewrite IH. apply perm_swap.
Qed.

Lemma sort_strings_perm l : sort_strings l ≡ₚ l.
Proof.
  induction l as [|x l IH]; simpl; [done|].
  unfold sort_strings in *. simpl. by rewrite insert_sorted_perm, IH.
Qed.

Lemma values_of_keys k (ks : list string) (f : string → list string) :
  NoDup ks →
  values_of k (k' ← ks; (λ x, (k', x)) <$> f k') = if decide (k ∈ ks) then f k else [].
Proof.
  unfold values_of. induction 1 as [|k' ks Hk' Hnd IH].
  - done.
  - rewrite bind_cons, bind_app, IH.
    assert ((p ← (λ x, (k', x)) <$> f k'; if decide (p.1 = k) then [p.2] else [])
            = if decide (k' = k) then f k' else []) as ->.
    { clear. induction (f k') as [|x l IHl].
      - simpl. by destruct (decide _).
      - rewrite fmap_cons, bind_cons, IHl. simpl. by destruct (decide (k' = k)). }
    destruct (decide (k' = k)) as [->|Hne];
      destruct (decide (k ∈ ks)) as [Hin|Hnin];
      destruct (decide (k ∈ _ :: ks)) as [Hin'|Hnin'];
      simpl; rewrite ?app_nil_r; try done.
    + exfalso. apply Hnin'. by left.
    + exfalso. apply Hnin'. by right.
    + apply elem_of_cons in Hin' as [->|?]; done.
Qed.

(** Every value stored under a key is written by [Values.Encode], in its
    stored order. *)
Lemma Encode_pairs_values (q : gmap string (list string)) k :
  values_of k (Encode_pairs q) = q !!! k.
Proof.
  unfold Encode_pairs.
  rewrite (values_of_keys k _ (λ k', default [] (q !! k'))).
  - rewrite lookup_total_alt. destruct (decide _) as [|Hn]; [done|].
    rewrite sort_strings_perm in Hn.
    destruct (q !! k) as [vs|] eqn:E; [|done].
    exfalso. apply Hn. apply list_elem_of_fmap. exists (k, vs). split; [done|].
    by apply elem_of_map_to_list.
  - rewrite sort_strings_perm. apply NoDup_fst_map_to_list.
Qed.

Lemma field_values_app k l1 l2 :
  field_values k (l1 ++ l2) = field_values k l1 ++ field_values k l2.
Proof. unfold field_values. apply bind_app. Qed.

Lemma field_values_same k k' vs :
  field_values k (FieldPart k' <$> vs) = if decide (k' = k) then vs else [].
Proof.
  unfold field_values. induction vs as [|x vs IH].
  - simpl. by destruct (decide _).
  - rewrite fmap_cons, bind_cons, IH. simpl. by destruct (decide (k' = k)).
Qed.

(** Every value stored under a form key appears as a field part, in its
    stored order, whatever the order in which the keys are visited. *)
Lemma fields_of_values (f : gmap string (list string)) entries k :
  entries ≡ₚ map_to_list f →
  field_values k (fields_of entries) = f !!! k.
Proof.
  intros Hp.
  assert (NoDup entries.*1) as Hnd by (rewrite Hp; apply NoDup_fst_map_to_list).
  rewrite (list_to_map_flip f entries) by done. clear Hp.
  rewrite lookup_total_alt.
  induction entries as [|[k' vs] entries IH]; [done|].
  apply NoDup_cons in Hnd as [Hk' Hnd].
  unfold fields_of. rewrite bind_cons. fold (fields_of entries).
  rewrite field_values_app, field_values_same, IH by done. simpl.
  destruct (decide (k' = k)) as [->|Hne].
  - rewrite lookup_insert_eq. simpl.
    rewrite (not_elem_of_list_to_map_1 _ k) by done. by rewrite app_nil_r.
  - by rewrite lookup_insert_ne.
Qed.

Section Accumulation.
Context `{RT : GoRuntime}.

Lemma stamped_header_User_Agent v : stamped_header v !! "User-Agent" = Some [UserAgent].
Proof.
  unfold stamped_header, Header_Set.
  change (CanonicalMIMEHeaderKey "User-Agent") with "User-Agent".
  change (CanonicalMIMEHeaderKey "Authorization") with "Authorization".
  destruct (decide _); [rewrite lookup_insert_ne by done|]; apply lookup_insert_eq.
Qed.

(** The header values [ParseRequest] leaves as the builder holds them: all
    but those under [User-Agent], and under [Authorization] when there is a
    user name. *)
Lemma stamped_header_kept v k :
  k ≠ "User-Agent" → (k = "Authorization" → fst (v_basicAuth v) = "") →
  stamped_header v !! k = v_header v !! k.
Proof.
  intros H1 H2. unfold stamped_header, Header_Set.
  change (CanonicalMIMEHeaderKey "User-Agent") with "User-Agent".
  change (CanonicalMIMEHeaderKey "Authorization") with "Authorization".
  destruct (decide _) as [Hu|_].
  - rewrite !lookup_insert_ne; [done..|]. intros E. symmetry in E. by apply Hu, H2.
  - by rewrite lookup_insert_ne.
Qed.

(** C8 (amended).  Multi-value accumulation.  After any run of [AddQuery],
    [AddHeader] and [AddFormField] calls the values under each key (header
    keys in canonical form) are the earlier ones followed by the added ones
    in call order; a run with an [AddFormField] call leaves the method POST,
    and so does every [AddFile] call.  When the URL of the builder parses and
    the builder does not hold a raw body together with a form field or a
    file, materialization succeeds and carries every accumulated query value
    (the encoded query string), every form value (the URL-encoded body, or
    the field parts of the multipart body when files are attached), the raw
    body when there is one, and every header value except under the keys
    [ParseRequest] sets itself: [User-Agent] always, [Authorization] when a
    user name is set, [Content-Type] when there is a form field or a file. *)
Theorem multi_value_accumulation (calls : list AddCall) σ c v :
  wf σ c = true → observe σ c = Some v →
  ∃ c' σ' v', chain (add_mutator <$> calls) c σ = Some (c', σ')
    ∧ wf σ' c' = true ∧ observe σ' c' = Some v'
    ∧ (∀ k, v_query v' !!! k = v_query v !!! k ++ query_added k calls)
    ∧ (∀ k, v_form v' !!! k = v_form v !!! k ++ form_added k calls)
    ∧ (∀ k, v_header v' !!! k = v_header v !!! k ++ header_added k calls)
    ∧ ((∃ k x, AddF k x ∈ calls) → v_method v' = "POST")
    ∧ (∀ k f d, ∃ c2 σ2 v2, AddFile k f d c' σ' = Some (c2, σ2)
         ∧ observe σ2 c2 = Some v2 ∧ v_method v2 = "POST"
         ∧ v_files v2 = v_files v' ++ [FileField k f d])
    ∧ (∀ u, url_Parse (v_url v +:+ v_path v) = Ok u →
         v_body v = None ∨ v_files v = [] ∧ v_form v' = ∅ →
         ∃ req σ2 hdr, ParseRequest c' σ' = Some (Ok req, σ2)
           ∧ maps σ2 !! Header req = Some hdr
           ∧ (v_query v' ≠ ∅ → RawQuery (ReqURL req) = Values_Encode (v_query v'))
           ∧ (∀ k, values_of k (Encode_pairs (v_query v')) = v_query v' !!! k)
           ∧ (v_files v = [] → v_form v' ≠ ∅ →
                Body req = Some (s2b (Values_Encode (v_form v'))))
           ∧ (∀ k, values_of k (Encode_pairs (v_form v')) = v_form v' !!! k)
           ∧ (v_files v ≠ [] →
                ∃ parts, Body req = Some (multipart_body (randomBoundary (rng σ'))
                                            ((FilePart <$> v_files v) ++ parts))
                         ∧ ∀ k, field_values k parts = v_form v' !!! k)
           ∧ (∀ b, v_body v = Some b → Body req = Some b)
           ∧ hdr !! "User-Agent" = Some [UserAgent]
           ∧ (∀ k, k ≠ "User-Agent" →
                (k = "Authorization" → fst (v_basicAuth v) = "") →
                (k = "Content-Type" → v_files v = [] ∧ v_form v' = ∅) →
                hdr !!! k = v_header v' !!! k)).
Proof.
  intros Hwf Hobs. destruct (observe_WF _ _ _ Hwf Hobs) as (s & Hc & Hnd & Hv).
  destruct (chain_spec (add_mutator <$> calls) σ c s v Hc Hnd Hv)
    as (c' & σ' & s' & Hrun & Hc' & Hnd' & Hv' & _).
  destruct (WF_wf _ _ _ _ Hc' Hnd' Hv') as [Hwf' Hobs'].
  destruct (accumulate calls v) as (Hq & Hf & Hh & Hm & Hb & Hfs & Hu & Hp & Hau).
  set (v' := effects (add_mutator <$> calls) v) in *.
  exists c', σ', v'. do 3 (split; [done|]). do 4 (split; [done|]).
  split.
  { intros k f d.
    destruct (call_observed (MAddFile k f d) σ' c' v' Hwf' Hobs')
      as (c2 & σ2 & Hrun2 & _ & Hobs2 & _).
    by exists c2, σ2, (effect (MAddFile k f d) v'). }
  intros u Hurl Hok.
  destruct (ParseRequest_spec σ' c' v' Hwf' Hobs')
    as (s1 & σ2 & Hc1 & Hparse & Hhdr & _).
  revert Hparse Hhdr. unfold materialize. rewrite Hu, Hp, Hurl.
  destruct (decide (v_body v' ≠ None ∧ _)) as [[H1 H2]|_].
  { exfalso. rewrite Hb in H1. rewrite Hfs in H2.
    destruct Hok as [E|[E1 E2]]; [done|].
    destruct H2 as [H2|H2]; [by rewrite E1 in H2|by rewrite E2, map_size_empty in H2]. }
  rewrite Hb, Hfs.
  assert (∀ k, k ≠ "User-Agent" →
               (k = "Authorization" → fst (v_basicAuth v) = "") →
               stamped_header v' !!! k = v_header v' !!! k) as Hkept.
  { intros k H1 H2. rewrite !lookup_total_alt. f_equal.
    apply stamped_header_kept; [done|]. by rewrite Hau. }
  assert (∀ x k, k ≠ "Content-Type" → k ≠ "User-Agent" →
               (k = "Authorization" → fst (v_basicAuth v) = "") →
               Header_Set "Content-Type" x (stamped_header v') !!! k
               = v_header v' !!! k) as Hset.
  { intros x k H0 H1 H2. rewrite <- (Hkept k H1 H2). rewrite !lookup_total_alt. f_equal.
    unfold Header_Set. change (CanonicalMIMEHeaderKey "Content-Type") with "Content-Type".
    by rewrite lookup_insert_ne. }
  assert (∀ x, Header_Set "Content-Type" x (stamped_header v') !! "User-Agent"
               = Some [UserAgent]) as Hagent.
  { intros x. unfold Header_Set at 1.
    change (CanonicalMIMEHeaderKey "Content-Type") with "Content-Type".
    rewrite lookup_insert_ne by discriminate. apply stamped_header_User_Agent. }
  assert (v_query v' ≠ ∅ → size (v_query v') ≠ 0) as Hsize.
  { intros Hne. by rewrite map_size_empty_iff. }
  destruct (v_body v) as [b|] eqn:Hbody.
  - assert (v_files v = [] ∧ v_form v' = ∅) as [Hnil Hempty] by (by destruct Hok).
    cbn [out_result out_header]. intros Hparse Hhdr.
    eexists _, σ2, _. split; [exact Hparse|]. split; [exact Hhdr|].
    simpl. split.
    { intros Hne. by rewrite decide_True by (by apply Hsize). }
    split; [apply Encode_pairs_values|].
    split; [done|].
    split; [apply Encode_pairs_values|].
    split; [done|].
    split; [by intros ? [= ->]|].
    split; [apply stamped_header_User_Agent|].
    intros k H1 H2 _. by apply Hkept.
  - destruct (decide (length (v_files v) ≠ 0)) as [Hfiles|Hnofiles].
    + assert (v_files v ≠ []) as Hne0 by (intros E; by rewrite E in Hfiles).
      cbn [out_result out_header]. intros Hparse Hhdr.
      eexists _, σ2, _. split; [exact Hparse|]. split; [exact Hhdr|].
      simpl. split.
      { intros Hne. by rewrite decide_True by (by apply Hsize). }
      split; [apply Encode_pairs_values|].
      split; [done|].
      split; [apply Encode_pairs_values|].
      split.
      { intros _. eexists. split; [reflexivity|].
        intros k. apply fields_of_values, range_order_perm. }
      split; [done|].
      split; [apply Hagent|].
      intros k H1 H2 H3. apply Hset; [|done..].
      intros E. by destruct (H3 E).
    + apply dec_stable in Hnofiles. apply length_zero_iff_nil in Hnofiles.
      destruct (decide (size (v_form v') ≠ 0)) as [Hform|Hnoform];
        cbn [out_result out_header]; intros Hparse Hhdr;
        (eexists _, σ2, _; split; [exact Hparse|]; split; [exact Hhdr|]);
        simpl.
      * split.
        { intros Hne. by rewrite decide_True by (by apply Hsize). }
        split; [apply Encode_pairs_values|].
        split; [done|].
        split; [apply Encode_pairs_values|].
        split; [done|].
        split; [done|].
        split; [apply Hagent|].
        intros k H1 H2 H3. apply Hset; [|done..].
        intros E. destruct (H3 E) as [_ E']. by rewrite E', map_size_empty in Hform.
      * split.
        { intros Hne. by rewrite decide_True by (by apply Hsize). }
        split; [apply Encode_pairs_values|].
        split.
        { intros _ Hne. exfalso. apply Hnoform. by rewrite map_size_empty_iff. }
        split; [apply Encode_pairs_values|].
        split; [done|].
        split; [done|].
        split; [apply stamped_header_User_Agent|].
        intros k H1 H2 _. by apply Hkept.
Qed.
End Accumulation.

Lemma multi_value_accumulation_witness :
  wf sample_builder.2 sample_builder.1 = true
  ∧ observe sample_builder.2 sample_builder.1 = Some new_view
  ∧ ∃ c' σ' v', chain (add_mutator <$> sample_adds) sample_builder.1 sample_builder.2
                = Some (c', σ')
    ∧ observe σ' c' = Some v'
    ∧ v_query v' !!! "field1" = ["1"; "2"]
    ∧ v_form v' !!! "field1" = ["1"; "2"]
    ∧ v_header v' !!! "X-Trace" = ["a"; "b"]
    ∧ v_method v' = "POST"
    ∧ ∃ req σ2 hdr, ParseRequest c' σ' = Some (Ok req, σ2)
        ∧ maps σ2 !! Header req = Some hdr
        ∧ RawQuery (ReqURL req) = Values_Encode (v_query v')
        ∧ Body req = Some (s2b (Values_Encode (v_form v')))
        ∧ hdr !!! "X-Trace" = ["a"; "b"].
Proof.
  split; [vm_compute; reflexivity|]. split; [vm_compute; reflexivity|].
  destruct (multi_value_accumulation sample_adds sample_builder.2 sample_builder.1 new_view)
    as (c' & σ' & v' & Hrun & _ & Hobs & Hq & Hf & Hh & Hm & _ & Hparse);
    [vm_compute; reflexivity..|].
  exists c', σ', v'. split; [exact Hrun|]. split; [exact Hobs|].
  split; [exact (Hq "field1")|]. split; [exact (Hf "field1")|].
  split; [exact (Hh "X-Trace")|].
  split.
  { apply Hm. exists "field1", "1". unfold sample_adds. rewrite !elem_of_cons.
    do 3 right. left. reflexivity. }
  destruct (Hparse zeroURL eq_refl (or_introl eq_refl))
    as (req & σ2 & hdr & Hp & Hhdr & Hrq & _ & Hbody & _ & _ & _ & _ & Hother).
  exists req, σ2, hdr. split; [exact Hp|]. split; [exact Hhdr|].
  split.
  { apply Hrq. intros E. pose proof (Hq "field1") as H. rewrite E in H. discriminate H. }
  split.
  { apply Hbody; [reflexivity|].
    intros E. pose proof (Hf "field1") as H. rewrite E in H. discriminate H. }
  rewrite Hother; [exact (Hh "X-Trace")|discriminate..].
Defined.

Lemma multi_value_accumulation_counterexample :
  ∃ c σ v req σ' hdr,
    run (c <- New ;; AddHeader "User-Agent" "my-agent" c) = Some (c, σ)
    ∧ observe σ c = Some v
    ∧ v_header v !! "User-Agent" = Some ["my-agent"]
    ∧ ParseRequest c σ = Some (Ok req, σ')
    ∧ maps σ' !! Header req = Some hdr
    ∧ hdr !! "User-Agent" = Some ["Unirest-Go/1.0"].
Proof.
  eexists _, _, _, _, _, _. conjuncts.
  - evaluate.
  - evaluate.
  - evaluate.
  - evaluate.
  - evaluate.
  - evaluate.
Qed.

(** * Beyond the specification: copies, shared cells, requests, scripts *)

(** ** Strings, once more *)

Lemma append_empty_r (s : string) : s +:+ "" = s.
Proof. induction s as [|a s IH]; [done|]. by rewrite append_cons, IH. Qed.

Lemma last_byte_app (s t : string) :
  t ≠ "" → last_byte (s +:+ t) = last_byte t.
Proof.
  intros Ht. induction s as [|a s IH]; [done|].
  rewrite append_cons. cbn [last_byte]. rewrite IH.
  destruct (s +:+ t) eqn:E; [|done].
  destruct s; [simpl in E; by subst|done].
Qed.

Lemma first_byte_app (s t : string) :
  first_byte (s +:+ t) = if decide (s = "") then first_byte t else first_byte s.
Proof. by destruct s. Qed.

Lemma TrimRight_first s cutset :
  TrimRight s cutset ≠ "" → first_byte (TrimRight s cutset) = first_byte s.
Proof.
  destruct s as [|a s]; [done|]. simpl.
  destruct (TrimRight s cutset); [|done]. by destruct (in_cutset a cutset).
Qed.

Lemma TrimRight_all_in s cutset :
  TrimRight s cutset = "" ↔ all_in cutset s = true.
Proof.
  induction s as [|a s IH]; [done|]. simpl.
  destruct (TrimRight s cutset) as [|b t].
  - destruct (in_cutset a cutset); simpl; [tauto|]. split; [done|done].
  - split; [done|]. intros [_ H]%andb_true_iff. by apply IH in H.
Qed.

Lemma append_cancel_empty (s t : string) : s +:+ t = s → t = "".
Proof.
  induction s as [|a s IH]; [done|]. rewrite append_cons. intros [= H]. auto.
Qed.

Lemma all_in_add_slash p : all_in "/" (add_slash p) = all_in "/" p.
Proof. unfold add_slash. by destruct (decide _). Qed.

Lemma no_trailing_slash s : last_byte (TrimRight s "/") ≠ Some slash.
Proof. intros H. by apply TrimRight_last in H. Qed.

(** ** [copyMap], [New] and [Clone] *)

Section Copies.
Context `{RT : GoRuntime}.

(** X1. [copyMap] on a live map returns a new map object with the same
    entries, whatever the order in which [range] visited them, and changes no
    other object; the two maps are separate from then on: an update through
    either one leaves the other as it was. *)
Theorem copyMap_fresh_copy σ l m :
  maps σ !! l = Some m →
  ∃ l' σ', copyMap l σ = Some (l', σ')
    ∧ l' ≠ l ∧ maps σ !! l' = None
    ∧ maps σ' !! l' = Some m
    ∧ (∀ l0, l0 ≠ l' → maps σ' !! l0 = maps σ !! l0)
    ∧ clients σ' = clients σ ∧ arrays σ' = arrays σ
    ∧ (∀ f, ∃ σ'', map_modify l' f σ' = Some (tt, σ'')
          ∧ maps σ'' !! l' = Some (f m) ∧ maps σ'' !! l = Some m)
    ∧ (∀ f, ∃ σ'', map_modify l f σ' = Some (tt, σ'')
          ∧ maps σ'' !! l = Some (f m) ∧ maps σ'' !! l' = Some m).
Proof.
  intros Hl. rewrite (copyMap_run _ _ _ Hl).
  pose proof (fresh_lookup_ne _ _ _ Hl) as Hne.
  eexists _, _. split; [reflexivity|]. simpl.
  split; [done|]. split; [apply fresh_lookup_None|].
  split; [apply lookup_insert_eq|].
  split; [intros l0 H0; by rewrite lookup_insert_ne|].
  split; [done|]. split; [done|]. split.
  - intros f. unfold map_modify. simpl. rewrite lookup_insert_eq. simpl.
    eexists. split; [reflexivity|]. simpl.
    rewrite lookup_insert_eq, lookup_insert_ne, lookup_insert_ne by done. done.
  - intros f. unfold map_modify. simpl. rewrite lookup_insert_ne, Hl by done. simpl.
    eexists. split; [reflexivity|]. simpl.
    rewrite lookup_insert_eq, lookup_insert_ne, lookup_insert_eq by done. done.
Qed.

Lemma New_frame σ :
  ∃ c σ' s, New σ = Some (c, σ')
    ∧ clients σ !! c = None ∧ clients σ' = <[c := s]> (clients σ)
    ∧ NoDup (maplocs s) ∧ view_of σ' s = Some new_view
    ∧ (∀ l, l ∈ maplocs s → maps σ !! l = None)
    ∧ arrays σ !! sl_arr (files s) = None
    ∧ (∀ l, is_Some (maps σ !! l) → maps σ' !! l = maps σ !! l)
    ∧ (∀ a, is_Some (arrays σ !! a) → arrays σ' !! a = arrays σ !! a)
    ∧ streams σ' = streams σ ∧ wire σ' = wire σ ∧ rng σ' = rng σ.
Proof.
  unfold New, bind, map_new, array_new, new_client. simpl.
  set (lq := fresh (dom (maps σ))).
  set (M1 := <[lq := ∅]> (maps σ)).
  set (lf := fresh (dom M1)).
  set (M2 := <[lf := ∅]> M1).
  set (lh := fresh (dom M2)).
  set (a := fresh (dom (arrays σ))).
  set (c := fresh (dom (clients σ))).
  assert (maps σ !! lq = None) as Hlq by apply fresh_lookup_None.
  assert (M1 !! lf = None) as Hlf by apply fresh_lookup_None.
  assert (M2 !! lh = None) as Hlh by apply fresh_lookup_None.
  assert (lf ≠ lq) as Hne1.
  { intros E. rewrite E in Hlf. unfold M1 in Hlf. by rewrite lookup_insert_eq in Hlf. }
  assert (lh ≠ lf) as Hne2.
  { intros E. rewrite E in Hlh. unfold M2 in Hlh. by rewrite lookup_insert_eq in Hlh. }
  assert (lh ≠ lq) as Hne3.
  { intros E. rewrite E in Hlh. unfold M2, M1 in Hlh.
    by rewrite lookup_insert_ne, lookup_insert_eq in Hlh. }
  assert (maps σ !! lf = None) as Hlf'.
  { unfold M1 in Hlf. by rewrite lookup_insert_ne in Hlf. }
  assert (maps σ !! lh = None) as Hlh'.
  { unfold M2, M1 in Hlh. by rewrite !lookup_insert_ne in Hlh. }
  eexists _, _, _. split; [reflexivity|]. simpl.
  split; [apply fresh_lookup_None|]. split; [reflexivity|].
  split.
  { unfold maplocs. simpl.
    repeat constructor; rewrite ?not_elem_of_cons, ?elem_of_nil; naive_solver. }
  split.
  { apply view_of_Some. simpl. fold M1 lf M2 lh. unfold M2, M1.
    rewrite (lookup_insert_ne _ lh lq), (lookup_insert_ne _ lf lq), lookup_insert_eq by done.
    rewrite (lookup_insert_ne _ lh lf), !lookup_insert_eq by done.
    repeat split; try done.
    apply slice_cells_Some. simpl. rewrite lookup_insert_eq. eexists. split; [done|].
    simpl. repeat split; lia. }
  split.
  { unfold maplocs. simpl. intros l. rewrite !elem_of_cons, elem_of_nil.
    intros [E|[E|[E|[]]]]; by rewrite E. }
  split; [apply fresh_lookup_None|].
  split.
  { intros l [x Hx]. fold M1 lf M2 lh. unfold M2, M1.
    rewrite !lookup_insert_ne; [done|..]; intros E; rewrite <- E in Hx; congruence. }
  split; [|done].
  intros a' [x Hx]. fold a. rewrite lookup_insert_ne; [done|].
  intros E. rewrite <- E in Hx. unfold a in Hx. by rewrite fresh_lookup_None in Hx.
Qed.

(** X2. [New] never fails.  It returns a builder that was not allocated
    before, well formed, with the default contents (method GET, no URL, no
    path, no body, empty maps, no files, auto-clone on), without touching the
    transport; every builder that was there before keeps its contents, also
    through any chain of mutators applied to the new builder. *)
Theorem New_shares_nothing σ :
  ∃ c σ', New σ = Some (c, σ')
    ∧ clients σ !! c = None
    ∧ wf σ' c = true ∧ observe σ' c = Some new_view
    ∧ wire σ' = wire σ
    ∧ (∀ b vb, wf σ b = true → observe σ b = Some vb →
         b ≠ c ∧ wf σ' b = true ∧ observe σ' b = Some vb
         ∧ ∀ ms, ∃ c2 σ2, chain ms c σ' = Some (c2, σ2)
             ∧ observe σ2 c2 = Some (effects ms new_view)
             ∧ observe σ2 b = Some vb).
Proof.
  destruct (New_frame σ)
    as (c & σ' & s & Hrun & Hnew & Hcl & Hnd & Hv & Hfresh & Hafresh & Hmaps & Harr & Hst & Hw & _).
  exists c, σ'. split; [done|]. split; [done|].
  assert (clients σ' !! c = Some s) as Hc by (rewrite Hcl; apply lookup_insert_eq).
  destruct (WF_wf _ _ _ _ Hc Hnd Hv) as [Hwf Hobs].
  do 3 (split; [done|]).
  intros b vb Hwfb Hobsb.
  destruct (observe_WF _ _ _ Hwfb Hobsb) as (sb & Hb & Hndb & Hvb).
  assert (b ≠ c) as Hne by (intros ->; congruence).
  assert (clients σ' !! b = Some sb) as Hb' by (rewrite Hcl, lookup_insert_ne; done).
  assert (view_of σ' sb = Some vb) as Hvb'.
  { rewrite <- Hvb. apply view_of_frame.
    - intros l Hl. apply Hmaps. by eapply view_of_maps_live.
    - apply view_of_Some in Hvb as (_ & _ & _ & Hcells & _).
      apply slice_cells_Some in Hcells as (arr & Ha & H1 & H2 & Ht).
      eapply slice_cells_agree; [exact Ha| |reflexivity|reflexivity].
      rewrite Harr; eauto. }
  destruct (WF_wf _ _ _ _ Hb' Hndb Hvb') as [Hwfb' Hobsb'].
  do 3 (split; [done|]).
  intros ms.
  destruct (chain_spec ms σ' c s new_view Hc Hnd Hv)
    as (c2 & σ2 & s2 & Hrun2 & Hc2 & Hnd2 & Hv2 & _ & Hframe & _).
  exists c2, σ2. split; [done|]. split; [unfold observe; by rewrite Hc2|].
  destruct (Hframe b sb vb Hne Hb' Hvb') as (_ & Hb2 & Hvb2 & _).
  - split.
    + intros l Hl Hl'. apply Hfresh in Hl'.
      destruct (view_of_maps_live _ _ _ _ Hvb Hl) as [x Hx]. congruence.
    + intros E. exfalso.
      apply view_of_Some in Hvb as (_ & _ & _ & Hcells & _).
      apply slice_cells_Some in Hcells as (arr & Ha & _). congruence.
  - unfold observe. by rewrite Hb2.
Qed.

(** X3. [Clone] returns a new well-formed builder with the contents and the
    auto-clone flag of the receiver.  From there, a chain of mutators applied
    to the clone leaves the receiver as it was, and a chain applied to the
    receiver leaves the clone as it was. *)
Theorem Clone_isolates σ c v :
  wf σ c = true → observe σ c = Some v →
  ∃ c' σ', Clone c σ = Some (c', σ')
    ∧ c' ≠ c ∧ clients σ !! c' = None
    ∧ wf σ' c' = true
    ∧ observe σ' c' = Some v
    ∧ observe σ' c = Some v
    ∧ (∀ ms, ∃ c2 σ2, chain ms c' σ' = Some (c2, σ2)
         ∧ observe σ2 c2 = Some (effects ms v)
         ∧ observe σ2 c = Some v)
    ∧ (∀ ms, ∃ c2 σ2, chain ms c σ' = Some (c2, σ2)
         ∧ observe σ2 c2 = Some (effects ms v)
         ∧ observe σ2 c' = Some v).
Proof.
  intros Hwf Hobs. destruct (observe_WF _ _ _ Hwf Hobs) as (s & Hc & Hnd & Hv).
  rewrite (Clone_run _ _ _ _ Hc Hv).
  destruct (clone_state σ s v) as [c' σ'] eqn:Hcl.
  destruct (Clone_frame _ _ _ _ _ _ Hc Hv Hcl)
    as (s' & Hc' & Hnew & Hnd' & Hv' & Hfiles & Hst & Hw & Hold).
  destruct (Hold c s v Hc Hv) as (Hne & Hc1 & Hv1 & Hdisj).
  exists c', σ'. split; [done|]. split; [done|]. split; [done|].
  destruct (WF_wf _ _ _ _ Hc' Hnd' Hv') as [Hwf' Hobs'].
  split; [done|]. split; [done|].
  split; [unfold observe; by rewrite Hc1|]. split.
  - intros ms.
    destruct (chain_spec ms σ' c' s' v Hc' Hnd' Hv')
      as (c2 & σ2 & s2 & Hrun2 & Hc2 & Hnd2 & Hv2 & _ & Hframe & _).
    exists c2, σ2. split; [done|]. split; [unfold observe; by rewrite Hc2|].
    destruct (Hframe c s v) as (_ & Hb2 & Hvb2 & _); [done..| |unfold observe; by rewrite Hb2].
    split; [done|]. rewrite Hfiles. lia.
  - intros ms.
    destruct (chain_spec ms σ' c s v Hc1 Hnd Hv1)
      as (c2 & σ2 & s2 & Hrun2 & Hc2 & Hnd2 & Hv2 & _ & Hframe & _).
    exists c2, σ2. split; [done|]. split; [unfold observe; by rewrite Hc2|].
    destruct (Hframe c' s' v) as (_ & Hb2 & Hvb2 & _); [done..| |unfold observe; by rewrite Hb2].
    split; [|rewrite Hfiles; lia].
    intros l Hl Hl'. by apply (Hdisj l).
Qed.

End Copies.

Lemma copyMap_fresh_copy_witness :
  maps sample_builder.2 !! header_of sample_builder = Some ∅
  ∧ ∃ l' σ', copyMap (header_of sample_builder) sample_builder.2 = Some (l', σ')
      ∧ l' ≠ header_of sample_builder
      ∧ maps σ' !! l' = Some ∅
      ∧ ∀ f, ∃ σ'', map_modify l' f σ' = Some (tt, σ'')
          ∧ maps σ'' !! l' = Some (f ∅)
          ∧ maps σ'' !! header_of sample_builder = Some ∅.
Proof.
  split; [vm_compute; reflexivity|].
  destruct (copyMap_fresh_copy sample_builder.2 (header_of sample_builder) ∅)
    as (l' & σ' & Hrun & Hne & _ & Hl' & _ & _ & _ & Hmod & _);
    [vm_compute; reflexivity|].
  exists l', σ'. split; [exact Hrun|]. split; [exact Hne|]. split; [exact Hl'|exact Hmod].
Defined.

Lemma Clone_isolates_witness :
  wf sample_builder.2 sample_builder.1 = true
  ∧ observe sample_builder.2 sample_builder.1 = Some new_view
  ∧ ∃ c' σ', Clone sample_builder.1 sample_builder.2 = Some (c', σ')
      ∧ c' ≠ sample_builder.1
      ∧ observe σ' c' = Some new_view
      ∧ (∀ ms, ∃ c2 σ2, chain ms sample_builder.1 σ' = Some (c2, σ2)
           ∧ observe σ2 c2 = Some (effects ms new_view)
           ∧ observe σ2 c' = Some new_view).
Proof.
  split; [vm_compute; reflexivity|]. split; [vm_compute; reflexivity|].
  destruct (Clone_isolates sample_builder.2 sample_builder.1 new_view)
    as (c' & σ' & Hrun & Hne & _ & _ & Hobs & _ & _ & Hms);
    [vm_compute; reflexivity..|].
  exists c', σ'. split; [exact Hrun|]. split; [exact Hne|]. split; [exact Hobs|exact Hms].
Defined.

(** ** The backing array of [files] is shared

    [Clone] copies the slice header of [files], not its cells.  [append]
    writes the cell past the end of the slice in place whenever the capacity
    allows it, so two builders that hold the same slice write the same cell. *)

Section Sharing.
Context `{RT : GoRuntime}.

Ltac run_step :=
  first
    [ erewrite bind_Some; [|apply load_run; simpl; rewrite ?lookup_insert_eq; eassumption || reflexivity]
    | erewrite bind_Some; [|apply modify_run; simpl; rewrite ?lookup_insert_eq; eassumption || reflexivity]
    | erewrite bind_Some; [|apply map_modify_run; simpl; eassumption] ];
  simpl.

(** The cells [AddFile] leaves behind: on a slice with room the cell past its
    end is written in place; a full slice moves to a new array. *)
Lemma inplace_AddFile_cells k f d σ c s v arr :
  clients σ !! c = Some s → view_of σ s = Some v →
  arrays σ !! sl_arr (files s) = Some arr →
  ∃ σ' s', inplace (MAddFile k f d) c σ = Some (c, σ')
    ∧ clients σ' = <[c := s']> (clients σ) ∧ maps σ' = maps σ
    ∧ query s' = query s ∧ form s' = form s ∧ header s' = header s
    ∧ sl_len (files s') = S (sl_len (files s))
    ∧ (sl_len (files s') ≤ sl_cap (files s'))%nat
    ∧ if decide (sl_len (files s) < sl_cap (files s))%nat
      then sl_arr (files s') = sl_arr (files s)
           ∧ arrays σ'
             = <[sl_arr (files s) := <[sl_len (files s) := Some (FileField k f d)]> arr]>
                 (arrays σ)
      else arrays σ !! sl_arr (files s') = None
           ∧ ∃ cells, arrays σ' = <[sl_arr (files s') := cells]> (arrays σ)
               ∧ (sl_cap (files s') ≤ length cells)%nat
               ∧ take (S (sl_len (files s))) cells = Some <$> (v_files v ++ [FileField k f d]).
Proof.
  intros Hc Hv Ha.
  pose proof Hv as (_ & _ & _ & Hcells & _)%view_of_Some.
  apply slice_cells_Some in Hcells as (arr' & Ha' & H1 & H2 & Ht).
  assert (arr' = arr) as -> by congruence.
  simpl. run_step. unfold bind at 1. unfold append_file at 1. rewrite Ha. simpl.
  destruct (decide (sl_len (files s) < sl_cap (files s))%nat) as [Hlt|Hge].
  - simpl.
    assert (clients
              (upd_arrays
                 <[sl_arr (files s) := <[sl_len (files s) := Some (FileField k f d)]> arr]> σ)
            !! c = Some s) as Hc1 by done.
    repeat run_step.
    eexists _, _. split; [reflexivity|]. simpl.
    rewrite insert_insert_eq. repeat split; try done.
  - pose proof (growslice_fits (sl_cap (files s)) (S (sl_len (files s)))) as Hfit.
    simpl.
    set (σ1 := upd_arrays _ σ).
    assert (clients σ1 !! c = Some s) as Hc1 by done.
    unfold σ1. repeat run_step.
    eexists _, _. split; [reflexivity|]. simpl.
    rewrite insert_insert_eq. repeat split; try done.
    + apply fresh_lookup_None.
    + eexists. split; [reflexivity|].
      assert (length (take (sl_len (files s)) arr) = sl_len (files s)) as Hlen
        by (rewrite length_take; lia).
      split.
      * rewrite length_app, Hlen. simpl. rewrite length_replicate. lia.
      * rewrite (app_assoc _ [Some (FileField k f d)] _ : _ ++ Some _ :: _ = _).
        rewrite take_app_length'.
        -- by rewrite Ht, fmap_app.
        -- rewrite length_app, Hlen. simpl. lia.
Qed.

Lemma AddFile_cells k f d σ c s v arr :
  clients σ !! c = Some s → NoDup (maplocs s) → view_of σ s = Some v →
  arrays σ !! sl_arr (files s) = Some arr →
  ∃ c' σ' s', AddFile k f d c σ = Some (c', σ')
    ∧ clients σ' = <[c' := s']> (clients σ)
    ∧ (if makeCopy s then clients σ !! c' = None else c' = c)
    ∧ NoDup (maplocs s')
    ∧ (∀ l, is_Some (maps σ !! l) → maps σ' !! l = maps σ !! l)
    ∧ (∀ l, l ∈ maplocs s' → is_Some (maps σ' !! l))
    ∧ view_of σ' s' = Some (effect (MAddFile k f d) v)
    ∧ sl_len (files s') = S (sl_len (files s))
    ∧ (sl_len (files s') ≤ sl_cap (files s'))%nat
    ∧ if decide (sl_len (files s) < sl_cap (files s))%nat
      then sl_arr (files s') = sl_arr (files s)
           ∧ arrays σ'
             = <[sl_arr (files s) := <[sl_len (files s) := Some (FileField k f d)]> arr]>
                 (arrays σ)
      else arrays σ !! sl_arr (files s') = None
           ∧ ∃ cells, arrays σ' = <[sl_arr (files s') := cells]> (arrays σ)
               ∧ (sl_cap (files s') ≤ length cells)%nat
               ∧ take (S (sl_len (files s))) cells = Some <$> (v_files v ++ [FileField k f d]).
Proof.
  intros Hc Hnd Hv Ha.
  change (AddFile k f d) with (call (MAddFile k f d)). rewrite call_inplace.
  unfold bind at 1. rewrite (cloneIfAuto_run _ _ _ Hc).
  destruct (makeCopy s) eqn:Hmk.
  - rewrite (Clone_run _ _ _ _ Hc Hv).
    destruct (clone_state σ s v) as [c1 σ1] eqn:Hcl.
    destruct (clone_state_fresh _ _ _ _ _ Hcl Hv)
      as (s1 & Hcs & Hnew & Hnd1 & Hfresh & Hkeep & Hv1 & Hfiles & Harr & Hst & Hw).
    assert (clients σ1 !! c1 = Some s1) as Hc1 by (rewrite Hcs; apply lookup_insert_eq).
    destruct (inplace_AddFile_cells k f d σ1 c1 s1 v arr Hc1 Hv1)
      as (σ' & s' & Hrun & Hcl' & Hmaps & Hq & Hf & Hh & Hlen & Hcap & Hcases).
    { by rewrite Hfiles, Harr. }
    destruct (inplace_AddFile k f d σ1 c1 s1 v Hc1 Hnd1 Hv1)
      as (σ'' & s'' & Hrun' & Hmut & Hv').
    rewrite Hrun in Hrun'. injection Hrun' as <-.
    assert (s'' = s') as ->.
    { pose proof (mut_clients _ _ _ _ _ Hmut) as E. rewrite Hcl' in E.
      apply (f_equal (λ m, m !! c1)) in E. rewrite !lookup_insert_eq in E. congruence. }
    exists c1, σ', s'. split; [done|].
    split; [by rewrite Hcl', Hcs, insert_insert_eq|].
    split; [done|].
    split; [unfold maplocs in *; by rewrite Hq, Hf, Hh|].
    split; [intros l Hl; rewrite Hmaps; by apply Hkeep|].
    split; [intros l Hl; by eapply view_of_maps_live|].
    split; [done|].
    rewrite Hfiles, Harr in Hcases. rewrite Hfiles in Hlen. done.
  - destruct (inplace_AddFile_cells k f d σ c s v arr Hc Hv Ha)
      as (σ' & s' & Hrun & Hcl' & Hmaps & Hq & Hf & Hh & Hlen & Hcap & Hcases).
    destruct (inplace_AddFile k f d σ c s v Hc Hnd Hv)
      as (σ'' & s'' & Hrun' & Hmut & Hv').
    rewrite Hrun in Hrun'. injection Hrun' as <-.
    assert (s'' = s') as ->.
    { pose proof (mut_clients _ _ _ _ _ Hmut) as E. rewrite Hcl' in E.
      apply (f_equal (λ m, m !! c)) in E. rewrite !lookup_insert_eq in E. congruence. }
    exists c, σ', s'. split; [done|]. split; [done|]. split; [done|].
    split; [unfold maplocs in *; by rewrite Hq, Hf, Hh|].
    split; [intros l Hl; by rewrite Hmaps|].
    split; [intros l Hl; by eapply view_of_maps_live|].
    done.
Qed.

(** Two slices over one backing array: what the longer one reads after
    an [append] to the shorter one. *)
Lemma shared_cell σ1 σ2 sl sl1 arr arr1 fs x1 x2 :
  take (sl_len sl) arr = Some <$> fs →
  (sl_len sl ≤ sl_cap sl)%nat → (sl_cap sl ≤ length arr)%nat →
  arrays σ1 !! sl_arr sl = Some arr1 →
  slice_cells σ1 sl1 = Some (fs ++ [x1]) →
  sl_len sl1 = S (sl_len sl) →
  (if decide (sl_len sl < sl_cap sl)%nat
   then sl_arr sl1 = sl_arr sl ∧ arr1 = <[sl_len sl := Some x1]> arr
        ∧ arrays σ2 = <[sl_arr sl := <[sl_len sl := Some x2]> arr1]> (arrays σ1)
   else ∃ a cells, arrays σ1 !! a = None ∧ arrays σ2 = <[a := cells]> (arrays σ1)) →
  slice_cells σ2 sl1
  = Some (fs ++ [if decide (sl_len sl < sl_cap sl)%nat then x2 else x1]).
Proof.
  intros Ht Hle Hcap Ha1 Hcells1 Hlen1 Hcase.
  pose proof Hcells1 as (a1 & Ha1' & Hle1 & Hcap1 & _)%slice_cells_Some.
  destruct (decide (sl_len sl < sl_cap sl)%nat) as [Hlt|Hge].
  - destruct Hcase as (Harr1 & -> & Harrs2).
    rewrite Harr1, Ha1 in Ha1'. injection Ha1' as <-.
    rewrite length_insert in Hcap1.
    apply slice_cells_Some. exists (<[sl_len sl := Some x2]> arr).
    split; [by rewrite Harrs2, Harr1, lookup_insert_eq, list_insert_insert_eq|].
    rewrite length_insert. split; [done|]. split; [done|].
    rewrite Hlen1, (take_S_r _ _ (Some x2)).
    + rewrite take_insert_ge by lia. by rewrite Ht, fmap_app.
    + apply list_lookup_insert_eq. lia.
  - destruct Hcase as (a & cells & Hfresh & Harrs2).
    rewrite <- Hcells1.
    eapply slice_cells_agree; [exact Ha1'| |reflexivity|reflexivity].
    rewrite Harrs2, lookup_insert_ne; [done|]. intros E. congruence.
Qed.

Lemma array_after_first σ σ1 (sl sl1 : slice) arr x (P : list (option fileField) → Prop) :
  arrays σ !! sl_arr sl = Some arr →
  (if decide (sl_len sl < sl_cap sl)%nat
   then sl_arr sl1 = sl_arr sl
        ∧ arrays σ1 = <[sl_arr sl := <[sl_len sl := Some x]> arr]> (arrays σ)
   else arrays σ !! sl_arr sl1 = None
        ∧ ∃ cells, arrays σ1 = <[sl_arr sl1 := cells]> (arrays σ) ∧ P cells) →
  arrays σ1 !! sl_arr sl
  = Some (if decide (sl_len sl < sl_cap sl)%nat then <[sl_len sl := Some x]> arr else arr).
Proof.
  intros Ha Hcase. destruct (decide (sl_len sl < sl_cap sl)%nat).
  - destruct Hcase as [_ ->]. by rewrite lookup_insert_eq.
  - destruct Hcase as (Hfresh & cells & -> & _).
    rewrite lookup_insert_ne; [done|]. intros E. congruence.
Qed.

(** X4. Two branches of one template.  On a builder with auto-clone on,
    [AddFile] called twice on the same receiver returns two new builders.
    The second call gives its result the receiver's files followed by the
    second file.  The first result, which held the receiver's files followed
    by the first file, afterwards holds the second file in that place when
    the receiver's slice has spare capacity ([len < cap]); it keeps the first
    file exactly when the slice is full. *)
Theorem sibling_branches_share_files k1 f1 d1 k2 f2 d2 σ c s v :
  wf σ c = true → observe σ c = Some v →
  clients σ !! c = Some s → makeCopy s = true →
  ∃ c1 σ1 c2 σ2,
    AddFile k1 f1 d1 c σ = Some (c1, σ1)
    ∧ AddFile k2 f2 d2 c σ1 = Some (c2, σ2)
    ∧ c1 ≠ c ∧ c2 ≠ c ∧ c1 ≠ c2
    ∧ v_files <$> observe σ1 c1 = Some (v_files v ++ [FileField k1 f1 d1])
    ∧ v_files <$> observe σ2 c2 = Some (v_files v ++ [FileField k2 f2 d2])
    ∧ v_files <$> observe σ2 c1
      = Some (v_files v ++ [if decide (sl_len (files s) < sl_cap (files s))%nat
                            then FileField k2 f2 d2 else FileField k1 f1 d1]).
Proof.
  intros Hwf Hobs Hc Hmk.
  destruct (observe_WF _ _ _ Hwf Hobs) as (s0 & Hc0 & Hnd & Hv).
  assert (s0 = s) as -> by congruence. clear Hc0.
  pose proof Hv as (_ & _ & _ & Hcells & _)%view_of_Some.
  apply slice_cells_Some in Hcells as (arr & Ha & Hle & Hcap & Ht).
  destruct (AddFile_cells k1 f1 d1 σ c s v arr Hc Hnd Hv Ha)
    as (c1 & σ1 & s1 & Hrun1 & Hcl1 & Hnew1 & Hnd1 & Hkeep1 & Hlive1 & Hv1 & Hlen1 & Hcap1 & Hcase1).
  rewrite Hmk in Hnew1.
  assert (c1 ≠ c) as Hne1 by (intros ->; congruence).
  assert (clients σ1 !! c = Some s) as Hc' by (rewrite Hcl1, lookup_insert_ne; done).
  assert (clients σ1 !! c1 = Some s1) as Hc1 by (rewrite Hcl1; apply lookup_insert_eq).
  destruct (call_spec (MAddFile k1 f1 d1) σ c s v Hc Hnd Hv)
    as (c1' & σ1' & s1' & Hrun1' & _ & _ & _ & Hmode & _).
  simpl in Hrun1'. rewrite Hrun1 in Hrun1'. injection Hrun1' as <- <-.
  rewrite Hmk in Hmode. destruct Hmode as (_ & _ & Hv' & _).
  pose proof (array_after_first _ _ _ _ _ _ _ Ha Hcase1) as Ha1.
  destruct (AddFile_cells k2 f2 d2 σ1 c s v _ Hc' Hnd Hv' Ha1)
    as (c2 & σ2 & s2 & Hrun2 & Hcl2 & Hnew2 & Hnd2 & Hkeep2 & Hlive2 & Hv2 & Hlen2 & Hcap2 & Hcase2).
  rewrite Hmk in Hnew2.
  assert (c2 ≠ c) as Hne2 by (intros ->; congruence).
  assert (c1 ≠ c2) as Hne12 by (intros ->; congruence).
  exists c1, σ1, c2, σ2. do 5 (split; [done|]).
  split; [unfold observe; by rewrite Hc1; simpl; rewrite Hv1|].
  split.
  { unfold observe. rewrite Hcl2, lookup_insert_eq. simpl. by rewrite Hv2. }
  unfold observe. rewrite Hcl2, lookup_insert_ne, Hc1 by done. simpl.
  pose proof Hv1 as (Hq1 & Hf1 & Hh1 & Hcells1 & Hrest)%view_of_Some.
  simpl in Hq1, Hf1, Hh1, Hcells1.
  assert (∀ l, l ∈ maplocs s1 → maps σ2 !! l = maps σ1 !! l) as Hm2.
  { intros l Hl. apply Hkeep2. by apply Hlive1. }
  unfold view_of. fold (slice_cells σ2 (files s1)).
  rewrite !Hm2, Hq1, Hf1, Hh1 by (unfold maplocs; set_solver). simpl.
  erewrite (shared_cell σ1 σ2 (files s) (files s1)); [done|done..|].
  destruct (decide (sl_len (files s) < sl_cap (files s))%nat).
  - destruct Hcase1 as [? ?]. destruct Hcase2 as [? ?]. done.
  - destruct Hcase2 as (? & cells & ? & _). eauto.
Qed.

(** X5. A builder and its clone.  After [Clone], [AddFile] on the original
    and then [AddFile] on the clone: with spare capacity in the original's
    slice the builder the first call returned (the original itself when
    auto-clone is off) ends up with the file given to the clone in place of
    its own; with a full slice each keeps its own file. *)
Theorem Clone_shares_files k1 f1 d1 k2 f2 d2 σ c s v :
  wf σ c = true → observe σ c = Some v → clients σ !! c = Some s →
  ∃ d σ0 c1 σ1 d1' σ2,
    Clone c σ = Some (d, σ0)
    ∧ AddFile k1 f1 d1 c σ0 = Some (c1, σ1)
    ∧ AddFile k2 f2 d2 d σ1 = Some (d1', σ2)
    ∧ (makeCopy s = false → c1 = c ∧ d1' = d)
    ∧ d ≠ c ∧ c1 ≠ d1'
    ∧ v_files <$> observe σ1 c1 = Some (v_files v ++ [FileField k1 f1 d1])
    ∧ v_files <$> observe σ2 d1' = Some (v_files v ++ [FileField k2 f2 d2])
    ∧ v_files <$> observe σ2 c1
      = Some (v_files v ++ [if decide (sl_len (files s) < sl_cap (files s))%nat
                            then FileField k2 f2 d2 else FileField k1 f1 d1]).
Proof.
  intros Hwf Hobs Hc.
  destruct (observe_WF _ _ _ Hwf Hobs) as (s0 & Hc0 & Hnd & Hv).
  assert (s0 = s) as -> by congruence. clear Hc0.
  pose proof Hv as (_ & _ & _ & Hcells & _)%view_of_Some.
  apply slice_cells_Some in Hcells as (arr & Ha & Hle & Hcap & Ht).
  rewrite (Clone_run _ _ _ _ Hc Hv).
  destruct (clone_state σ s v) as [d σ0] eqn:Hcl.
  destruct (clone_state_fresh _ _ _ _ _ Hcl Hv)
    as (sd & Hcs & Hnew & Hndd & Hfresh & Hkeep & Hvd & Hfiles & Harr & _).
  destruct (Clone_frame _ _ _ _ _ _ Hc Hv Hcl) as (sd' & Hd & _ & _ & _ & _ & _ & _ & Hold).
  assert (sd' = sd) as ->.
  { rewrite Hcs, lookup_insert_eq in Hd. congruence. }
  destruct (Hold c s v Hc Hv) as (Hne & Hc0 & Hv0 & Hdisj).
  assert (arrays σ0 !! sl_arr (files s) = Some arr) as Ha0 by by rewrite Harr.
  (* the first call, on the original *)
  destruct (AddFile_cells k1 f1 d1 σ0 c s v arr Hc0 Hnd Hv0 Ha0)
    as (c1 & σ1 & s1 & Hrun1 & Hcl1 & Hnew1 & Hnd1 & Hkeep1 & Hlive1 & Hv1 & Hlen1 & Hcap1 & Hcase1).
  assert (c1 ≠ d) as Hne1.
  { destruct (makeCopy s); [intros ->; congruence|by subst]. }
  assert (clients σ1 !! c1 = Some s1) as Hc1 by (rewrite Hcl1; apply lookup_insert_eq).
  destruct (call_spec (MAddFile k1 f1 d1) σ0 c s v Hc0 Hnd Hv0)
    as (c1' & σ1' & s1' & Hrun1' & _ & _ & _ & _ & Hframe & _).
  simpl in Hrun1'. rewrite Hrun1 in Hrun1'. injection Hrun1' as <- <-.
  destruct (Hframe d sd v) as (_ & Hd1 & Hvd1 & _); [done..| |].
  { split; [|rewrite Hfiles; lia]. intros l Hl Hl'. by apply (Hdisj l). }
  pose proof (array_after_first _ _ _ _ _ _ _ Ha0 Hcase1) as Ha1.
  (* the second call, on the clone *)
  rewrite <- Hfiles in Ha1.
  destruct (AddFile_cells k2 f2 d2 σ1 d sd v _ Hd1 Hndd Hvd1 Ha1)
    as (d1' & σ2 & sd1 & Hrun2 & Hcl2 & Hnew2 & Hnd2 & Hkeep2 & Hlive2 & Hv2 & Hlen2 & Hcap2 & Hcase2).
  assert (makeCopy sd = makeCopy s) as Hmk.
  { apply view_of_Some in Hvd as (_ & _ & _ & _ & _ & _ & _ & _ & _ & <-).
    by apply view_of_Some in Hv as (_ & _ & _ & _ & _ & _ & _ & _ & _ & ->). }
  rewrite Hmk in Hnew2.
  assert (c1 ≠ d1') as Hne2.
  { destruct (makeCopy s); [intros ->; congruence|by subst]. }
  exists d, σ0, c1, σ1, d1', σ2. do 3 (split; [done|]).
  split. { intros E. rewrite E in Hnew1, Hnew2. done. }
  split; [done|]. split; [done|].
  split; [unfold observe; by rewrite Hc1; simpl; rewrite Hv1|].
  split.
  { unfold observe. rewrite Hcl2, lookup_insert_eq. simpl. by rewrite Hv2. }
  unfold observe. rewrite Hcl2, lookup_insert_ne, Hc1 by done. simpl.
  pose proof Hv1 as (Hq1 & Hf1 & Hh1 & Hcells1 & Hrest)%view_of_Some.
  simpl in Hq1, Hf1, Hh1, Hcells1.
  assert (∀ l, l ∈ maplocs s1 → maps σ2 !! l = maps σ1 !! l) as Hm2.
  { intros l Hl. apply Hkeep2. by apply Hlive1. }
  unfold view_of. fold (slice_cells σ2 (files s1)).
  rewrite !Hm2, Hq1, Hf1, Hh1 by (unfold maplocs; set_solver). simpl.
  rewrite Hfiles in Ha1, Hcase2.
  erewrite (shared_cell σ1 σ2 (files s) (files s1)); [done|done..|].
  destruct (decide (sl_len (files s) < sl_cap (files s))%nat).
  - destruct Hcase1 as [? ?]. destruct Hcase2 as [? ?]. done.
  - destruct Hcase2 as (? & cells & ? & _). eauto.
Qed.

End Sharing.

Lemma sibling_branches_share_files_witness :
  wf template_builder.2 template_builder.1 = true
  ∧ observe template_builder.2 template_builder.1
    = Some (effects three_files new_view)
  ∧ clients template_builder.2 !! template_builder.1 = Some (struct_of template_builder)
  ∧ makeCopy (struct_of template_builder) = true
  ∧ sl_len (files (struct_of template_builder)) = 3%nat ∧ sl_cap (files (struct_of template_builder)) = 4%nat
  ∧ ∃ c1 σ1 c2 σ2,
      AddFile "x" "x.txt" [] template_builder.1 template_builder.2 = Some (c1, σ1)
      ∧ AddFile "y" "y.txt" [] template_builder.1 σ1 = Some (c2, σ2)
      ∧ c1 ≠ c2
      ∧ v_files <$> observe σ2 c1
        = Some ([FileField "a" "a.txt" []; FileField "b" "b.txt" [];
                 FileField "c" "c.txt" []] ++ [FileField "y" "y.txt" []]).
Proof.
  split; [vm_compute; reflexivity|]. split; [vm_compute; reflexivity|].
  split; [vm_compute; reflexivity|]. split; [vm_compute; reflexivity|].
  split; [vm_compute; reflexivity|]. split; [vm_compute; reflexivity|].
  destruct (sibling_branches_share_files "x" "x.txt" [] "y" "y.txt" []
              template_builder.2 template_builder.1 (struct_of template_builder)
              (effects three_files new_view))
    as (c1 & σ1 & c2 & σ2 & H1 & H2 & _ & _ & Hne & _ & _ & H3);
    [vm_compute; reflexivity..|].
  exists c1, σ1, c2, σ2. split; [exact H1|]. split; [exact H2|]. split; [exact Hne|].
  exact H3.
Defined.

Lemma Clone_shares_files_witness :
  wf frozen_template.2 frozen_template.1 = true
  ∧ observe frozen_template.2 frozen_template.1
    = Some (with_makeCopy false (effects three_files new_view))
  ∧ clients frozen_template.2 !! frozen_template.1 = Some (struct_of frozen_template)
  ∧ makeCopy (struct_of frozen_template) = false
  ∧ ∃ d σ0 c1 σ1 d1 σ2,
      Clone frozen_template.1 frozen_template.2 = Some (d, σ0)
      ∧ AddFile "x" "x.txt" [] frozen_template.1 σ0 = Some (c1, σ1)
      ∧ AddFile "y" "y.txt" [] d σ1 = Some (d1, σ2)
      ∧ c1 = frozen_template.1 ∧ d1 = d ∧ d ≠ frozen_template.1
      ∧ v_files <$> observe σ2 frozen_template.1
        = Some [FileField "a" "a.txt" []; FileField "b" "b.txt" [];
                FileField "c" "c.txt" []; FileField "y" "y.txt" []].
Proof.
  split; [vm_compute; reflexivity|]. split; [vm_compute; reflexivity|].
  split; [vm_compute; reflexivity|]. split; [vm_compute; reflexivity|].
  destruct (Clone_shares_files "x" "x.txt" [] "y" "y.txt" []
              frozen_template.2 frozen_template.1 (struct_of frozen_template)
              (with_makeCopy false (effects three_files new_view)))
    as (d & σ0 & c1 & σ1 & d1 & σ2 & H0 & H1 & H2 & Hsame & Hne & _ & _ & _ & H3);
    [vm_compute; reflexivity..|].
  destruct Hsame as [-> ->]; [vm_compute; reflexivity|].
  exists d, σ0, frozen_template.1, σ1, d, σ2.
  split; [exact H0|]. split; [exact H1|]. split; [exact H2|].
  split; [reflexivity|]. split; [reflexivity|]. split; [exact Hne|]. exact H3.
Defined.

(** ** Requests: what [ParseRequest] and [Send] hand over *)

Section Requests.
Context `{RT : GoRuntime}.

Lemma stamped_header_Authorization v :
  fst (v_basicAuth v) ≠ "" →
  stamped_header v !! "Authorization"
  = Some [basicAuthValue (fst (v_basicAuth v)) (snd (v_basicAuth v))].
Proof.
  intros Hu. unfold stamped_header, Header_Set.
  change (CanonicalMIMEHeaderKey "Authorization") with "Authorization".
  rewrite decide_True by done. apply lookup_insert_eq.
Qed.

(** Stamping a header map that already carries the stamps changes nothing. *)
Lemma stamped_header_fix v h :
  h !! "User-Agent" = Some [UserAgent] →
  (fst (v_basicAuth v) ≠ "" →
   h !! "Authorization"
   = Some [basicAuthValue (fst (v_basicAuth v)) (snd (v_basicAuth v))]) →
  stamped_header (with_header h v) = h.
Proof.
  intros Hua Hau. unfold stamped_header, Header_Set. simpl.
  change (CanonicalMIMEHeaderKey "User-Agent") with "User-Agent".
  change (CanonicalMIMEHeaderKey "Authorization") with "Authorization".
  rewrite (insert_id h "User-Agent") by done.
  destruct (decide _) as [Hu|]; [|done]. by rewrite insert_id by auto.
Qed.

Lemma materialize_fix v hd n n' :
  v_files v = [] →
  materialize (with_header (out_header (materialize v hd n)) v) hd n'
  = materialize v hd n.
Proof.
  intros Hfs.
  assert (stamped_header (with_header (stamped_header v) v) = stamped_header v) as Hfix.
  { apply stamped_header_fix;
      [apply stamped_header_User_Agent | apply stamped_header_Authorization]. }
  unfold materialize, base_request. simpl. rewrite Hfs. simpl.
  destruct (url_Parse _) as [u|e]; [|simpl; by rewrite Hfix].
  destruct (decide (v_body v ≠ None ∧ _)); [simpl; by rewrite Hfix|].
  destruct (v_body v) as [b|]; [simpl; by rewrite Hfix|].
  destruct (decide (0%nat ≠ 0%nat)); [done|].
  destruct (decide (size (v_form v) ≠ 0)); [|simpl; by rewrite Hfix].
  simpl. f_equal.
  rewrite stamped_header_fix.
  - unfold Header_Set. by rewrite insert_insert_eq.
  - unfold Header_Set. change (CanonicalMIMEHeaderKey "Content-Type") with "Content-Type".
    rewrite lookup_insert_ne by done. apply stamped_header_User_Agent.
  - intros Hu. unfold Header_Set.
    change (CanonicalMIMEHeaderKey "Content-Type") with "Content-Type".
    rewrite lookup_insert_ne by done. by apply stamped_header_Authorization.
Qed.

Lemma State_eq (σ σ' : State) :
  clients σ' = clients σ → maps σ' = maps σ → arrays σ' = arrays σ →
  streams σ' = streams σ → wire σ' = wire σ → rng σ' = rng σ → σ' = σ.
Proof. destruct σ, σ'. simpl. by intros -> -> -> -> -> ->. Qed.

Lemma materialize_no_draws v hd n :
  v_files v = [] → out_draws (materialize v hd n) = 0%nat.
Proof.
  intros Hfs. unfold materialize. rewrite Hfs. simpl.
  destruct (url_Parse _); [|done].
  destruct (decide (v_body v ≠ None ∧ _)); [done|].
  destruct (v_body v); [done|].
  destruct (decide (0%nat ≠ 0%nat)); [done|].
  by destruct (decide (size (v_form v) ≠ 0)).
Qed.

(** What a materialized request holds, read off the builder's contents. *)
Lemma materialize_Ok v hd n req :
  out_result (materialize v hd n) = Ok req →
  Method req = v_method v
  ∧ Header req = hd
  ∧ GetBody req = Body req
  ∧ ContentLength req = Z.of_nat (length (default [] (Body req)))
  ∧ (Body req = None ↔ v_body v = None ∧ v_files v = [] ∧ v_form v = ∅)
  ∧ (∃ u, url_Parse (v_url v +:+ v_path v) = Ok u
          ∧ ReqURL req = if decide (v_query v = ∅) then u
                         else set_RawQuery (Values_Encode (v_query v)) u)
  ∧ (v_files v = [] → v_form v ≠ ∅ → Body req = Some (s2b (Values_Encode (v_form v)))).
Proof.
  unfold materialize.
  destruct (url_Parse _) as [u|e] eqn:Hu; [|done].
  assert ((if decide (size (v_query v) ≠ 0)
           then set_RawQuery (Values_Encode (v_query v)) u else u)
          = if decide (v_query v = ∅) then u
            else set_RawQuery (Values_Encode (v_query v)) u) as Hurl.
  { destruct (decide (v_query v = ∅)) as [->|Hne].
    - by rewrite map_size_empty.
    - rewrite decide_True; [done|]. by rewrite map_size_empty_iff. }
  destruct (decide (v_body v ≠ None ∧ _)) as [Hconf|Hok]; [done|].
  destruct (v_body v) as [b|] eqn:Hb.
  { simpl. intros [= <-]. simpl. do 4 (split; [done|]).
    split; [naive_solver|]. split; [eauto|].
    intros Hfs Hfm. destruct Hok. split; [done|]. right. by rewrite map_size_empty_iff. }
  destruct (decide (length (v_files v) ≠ 0)) as [Hfs|Hfs].
  { simpl. intros [= <-]. simpl. do 4 (split; [done|]).
    split; [|split; [eauto|]].
    - split; [done|]. intros (_ & E & _). by rewrite E in Hfs.
    - intros E. by rewrite E in Hfs. }
  destruct (decide (size (v_form v) ≠ 0)) as [Hfm|Hfm].
  { simpl. intros [= <-]. simpl. do 4 (split; [done|]).
    split; [|split; [eauto|done]]. split; [done|]. intros (_ & _ & E).
    by rewrite E, map_size_empty in Hfm. }
  simpl. intros [= <-]. simpl. do 4 (split; [done|]).
  apply dec_stable in Hfs. apply dec_stable in Hfm.
  apply length_zero_iff_nil in Hfs. apply map_size_empty_iff in Hfm.
  split; [|split; [eauto|done]]. done.
Qed.

Lemma materialize_Header v hd n req :
  out_result (materialize v hd n) = Ok req → Header req = hd.
Proof. intros H. by destruct (materialize_Ok _ _ _ _ H) as (_ & ? & _). Qed.

Lemma Do_run σ req hd :
  maps σ !! Header req = Some hd →
  Do req σ
  = let σw := upd_wire (λ l, l ++ [mkWire req hd]) (upd_rng S σ) in
    match http_Do (rng σ) (mkWire req hd) with
    | Err e => Some (Err e, σw)
    | Ok raw =>
        Some (Ok (mkHTTPResponse (StatusCode raw) (fresh (dom (streams σ)))),
              upd_streams <[fresh (dom (streams σ))
                            := mkStream (payload raw) (payload_failure raw) false
                                 (read_after_close raw)]> σw)
    end.
Proof.
  intros Hhd. unfold Do, bind, map_load, draw. rewrite Hhd. simpl.
  by destruct (http_Do _ _).
Qed.

Lemma observe_same σ σ' c :
  clients σ' = clients σ → maps σ' = maps σ → arrays σ' = arrays σ →
  observe σ' c = observe σ c.
Proof.
  unfold observe. intros -> Hm Ha. destruct (clients σ !! c) as [s|]; simpl; [|done].
  apply view_of_frame; [intros; by rewrite Hm | by apply slice_cells_arrays].
Qed.

(** X6. A target that does not parse.  When [url.Parse] rejects [url + path],
    [ParseRequest] returns that error, whatever else the builder holds;
    [Send] wraps it without calling the transport, and [AsBytes] and
    [AsString] return it.  The builder's header map has been stamped all the
    same ([User-Agent], and [Authorization] for a non-empty user name). *)
Theorem unparsable_target σ c v e :
  wf σ c = true → observe σ c = Some v →
  url_Parse (v_url v +:+ v_path v) = Err e →
  ∃ σ', ParseRequest c σ = Some (Err e, σ')
    ∧ Send c σ = Some (mkResponse None (Some e), σ')
    ∧ wire σ' = wire σ
    ∧ AsBytes (mkResponse None (Some e)) σ' = Some (Err e, σ')
    ∧ AsString (mkResponse None (Some e)) σ' = Some (Err e, σ')
    ∧ observe σ' c = Some (with_header (stamped_header v) v).
Proof.
  intros Hwf Hobs Hu.
  destruct (ParseRequest_spec σ c v Hwf Hobs)
    as (s & σ' & Hc & Hrun & _ & _ & Hobs' & Hw & _).
  unfold materialize in Hrun, Hobs'. rewrite Hu in Hrun, Hobs'. simpl in Hrun, Hobs'.
  exists σ'. split; [done|]. split; [by apply Send_parse_error|]. done.
Qed.

(** X7. Every request [ParseRequest] returns has the builder's method, the
    builder's own header map as [Header], a [GetBody] that replays the bytes
    of [Body], and a [ContentLength] equal to the length of the body (0
    without one).  It has no body exactly when the builder has no raw body,
    no file and no form field.  Its URL is the parsed target; as soon as the
    builder holds a query parameter, the query string of that URL is replaced
    by the encoded parameters. *)
Theorem request_invariants σ c v :
  wf σ c = true → observe σ c = Some v →
  ∃ res σ' s, ParseRequest c σ = Some (res, σ') ∧ clients σ !! c = Some s
    ∧ ∀ req, res = Ok req →
        Method req = v_method v
        ∧ Header req = header s
        ∧ GetBody req = Body req
        ∧ ContentLength req = Z.of_nat (length (default [] (Body req)))
        ∧ (Body req = None ↔ v_body v = None ∧ v_files v = [] ∧ v_form v = ∅)
        ∧ ∃ u, url_Parse (v_url v +:+ v_path v) = Ok u
               ∧ ReqURL req = if decide (v_query v = ∅) then u
                              else set_RawQuery (Values_Encode (v_query v)) u.
Proof.
  intros Hwf Hobs.
  destruct (ParseRequest_spec σ c v Hwf Hobs) as (s & σ' & Hc & Hrun & _).
  eexists _, σ', s. split; [exact Hrun|]. split; [done|].
  intros req Hreq.
  destruct (materialize_Ok _ _ _ _ Hreq) as (H1 & H2 & H3 & H4 & H5 & H6 & _).
  done.
Qed.

(** X8. Without files, materializing is repeatable: a second [ParseRequest]
    returns the same result as the first and leaves the store as the first
    left it. *)
Theorem ParseRequest_repeatable σ c v :
  wf σ c = true → observe σ c = Some v → v_files v = [] →
  ∃ res σ1, ParseRequest c σ = Some (res, σ1)
    ∧ ParseRequest c σ1 = Some (res, σ1).
Proof.
  intros Hwf Hobs Hfs.
  destruct (ParseRequest_spec σ c v Hwf Hobs)
    as (s & σ1 & Hc & Hrun & Hhdr & Hwf1 & Hobs1 & _).
  destruct (observe_WF _ _ _ Hwf1 Hobs1) as (s1 & Hc1 & Hnd1 & Hv1).
  destruct (observe_WF _ _ _ Hwf Hobs) as (s0 & Hc0 & Hnd & Hv).
  assert (s0 = s) as -> by congruence.
  destruct (ParseRequest_run σ c s v Hc Hnd Hv)
    as (σ1' & Hrun' & Hcl & _).
  rewrite Hrun in Hrun'. injection Hrun' as <-.
  assert (s1 = s) as -> by (rewrite Hcl in Hc1; congruence).
  destruct (ParseRequest_run σ1 c s _ Hc1 Hnd1 Hv1)
    as (σ2 & Hrun2 & Hcl2 & Hmaps2 & Harr2 & Hst2 & Hw2 & Hrng2).
  rewrite materialize_fix in Hrun2, Hmaps2, Hrng2 by done.
  exists (out_result (materialize v (header s) (rng σ))), σ1.
  split; [done|]. rewrite Hrun2. do 2 f_equal.
  apply State_eq; try done.
  - rewrite Hmaps2. by apply insert_id.
  - rewrite Hrng2. by rewrite materialize_no_draws.
Qed.

(** X9. Two multipart requests from one builder share their header map:
    with files attached, no raw body and a target that parses, the second
    [ParseRequest] draws a new boundary and overwrites [Content-Type], so the
    header of the first request then names the boundary of the second one,
    not the boundary that delimits its own body. *)
Theorem multipart_requests_share_header σ c v u :
  wf σ c = true → observe σ c = Some v →
  v_body v = None → v_files v ≠ [] →
  url_Parse (v_url v +:+ v_path v) = Ok u →
  ∃ req1 σ1 req2 σ2 hdr,
    ParseRequest c σ = Some (Ok req1, σ1)
    ∧ ParseRequest c σ1 = Some (Ok req2, σ2)
    ∧ Header req2 = Header req1
    ∧ maps σ2 !! Header req1 = Some hdr
    ∧ (∃ parts, Body req1 = Some (multipart_body (randomBoundary (rng σ)) parts))
    ∧ (∃ parts, Body req2 = Some (multipart_body (randomBoundary (S (S (rng σ)))) parts))
    ∧ hdr !! "Content-Type"
      = Some [FormDataContentType (NewWriter (randomBoundary (S (S (rng σ)))))].
Proof.
  intros Hwf Hobs Hb Hfs Hu.
  assert (∀ v' hd n, v_url v' = v_url v → v_path v' = v_path v →
            v_body v' = None → v_files v' = v_files v → v_form v' = v_form v →
            ∃ req, materialize v' hd n
              = mkOutcome (Ok req)
                  (Header_Set "Content-Type"
                     (FormDataContentType (NewWriter (randomBoundary n)))
                     (stamped_header v')) 2
              ∧ Header req = hd
              ∧ ∃ parts, Body req = Some (multipart_body (randomBoundary n) parts))
    as Hmat.
  { intros v' hd n E1 E2 E3 E4 E5. unfold materialize.
    rewrite E1, E2, Hu, E3, E4.
    destruct (decide (None ≠ None ∧ _)) as [[? _]|_]; [done|].
    rewrite decide_True by (by rewrite length_zero_iff_nil).
    eexists. split; [reflexivity|]. simpl. eauto. }
  destruct (ParseRequest_spec σ c v Hwf Hobs)
    as (s & σ1 & Hc & Hrun & Hhdr & Hwf1 & Hobs1 & _).
  destruct (observe_WF _ _ _ Hwf Hobs) as (s0 & Hc0 & Hnd & Hv).
  assert (s0 = s) as -> by congruence.
  destruct (ParseRequest_run σ c s v Hc Hnd Hv)
    as (σ1' & Hrun' & Hcl & _ & _ & _ & _ & Hrng).
  rewrite Hrun in Hrun'. injection Hrun' as <-.
  destruct (Hmat v (header s) (rng σ)) as (req1 & Hm1 & Hh1 & Hb1); [done..|].
  rewrite Hm1 in Hrun, Hobs1, Hrng. simpl in Hrun, Hobs1, Hrng.
  destruct (ParseRequest_spec σ1 c _ Hwf1 Hobs1)
    as (s1 & σ2 & Hc1 & Hrun2 & Hhdr2 & _).
  assert (s1 = s) as -> by (rewrite Hcl in Hc1; congruence).
  destruct (Hmat (with_header (Header_Set "Content-Type"
                     (FormDataContentType (NewWriter (randomBoundary (rng σ))))
                     (stamped_header v)) v) (header s) (rng σ1))
    as (req2 & Hm2 & Hh2 & Hb2); [done..|].
  rewrite Hm2 in Hrun2, Hhdr2. simpl in Hrun2, Hhdr2.
  rewrite Hrng in Hb2, Hhdr2.
  exists req1, σ1, req2, σ2. eexists.
  split; [done|]. split; [done|]. split; [congruence|].
  split; [rewrite Hh1; exact Hhdr2|]. split; [done|]. split; [done|].
  apply Header_Set_Content_Type.
Qed.

(** X10. Credentials.  After [SetBasicAuth u p], materialization leaves
    [Authorization: Basic base64(u:p)] as the only value under that key when
    [u] is not empty, in place of any value added with [AddHeader]; when [u]
    is empty it sets nothing, whatever the password, and the header keeps the
    values it had. *)
Theorem basic_auth_header u p σ c v :
  wf σ c = true → observe σ c = Some v →
  ∃ c1 σ1 res σ2 v2, SetBasicAuth u p c σ = Some (c1, σ1)
    ∧ ParseRequest c1 σ1 = Some (res, σ2)
    ∧ observe σ2 c1 = Some v2
    ∧ (∀ req, res = Ok req → maps σ2 !! Header req = Some (v_header v2))
    ∧ v_header v2 !! "Authorization"
      = if decide (u = "") then v_header v !! "Authorization"
        else Some [basicAuthValue u p].
Proof.
  intros Hwf Hobs.
  destruct (call_observed (MSetBasicAuth u p) σ c v Hwf Hobs)
    as (c1 & σ1 & Hrun & Hwf1 & Hobs1 & _).
  destruct (ParseRequest_spec σ1 c1 _ Hwf1 Hobs1)
    as (s1 & σ2 & Hc1 & Hparse & Hhdr & _ & Hobs2 & _).
  eexists c1, σ1, _, σ2, _. split; [exact Hrun|]. split; [exact Hparse|].
  split; [exact Hobs2|]. split.
  { intros req Hreq. apply materialize_Header in Hreq. rewrite Hreq. exact Hhdr. }
  cbn [with_header v_header].
  set (v1 := effect (MSetBasicAuth u p) v).
  assert (∀ h, out_header (materialize v1 (header s1) (rng σ1)) = h →
            (h = stamped_header v1 ∨ ∃ x, h = Header_Set "Content-Type" x (stamped_header v1)))
    as Hcases.
  { intros h <-. unfold materialize.
    destruct (url_Parse _); [|by left].
    destruct (decide (v_body v1 ≠ None ∧ _)); [by left|].
    destruct (v_body v1); [by left|].
    destruct (decide (length (v_files v1) ≠ 0)); [right; eauto|].
    destruct (decide (size (v_form v1) ≠ 0)); [right; eauto|by left]. }
  assert (stamped_header v1 !! "Authorization"
          = if decide (u = "") then v_header v !! "Authorization"
            else Some [basicAuthValue u p]) as Hst.
  { destruct (decide (u = "")) as [->|Hu].
    - unfold stamped_header, Header_Set. simpl.
      change (CanonicalMIMEHeaderKey "User-Agent") with "User-Agent".
      by rewrite lookup_insert_ne.
    - by rewrite stamped_header_Authorization. }
  destruct (Hcases _ eq_refl) as [->|[x ->]]; [done|].
  unfold Header_Set at 1.
  change (CanonicalMIMEHeaderKey "Content-Type") with "Content-Type".
  by rewrite lookup_insert_ne.
Qed.

(** X11. [Send] on a well-formed builder returns a wrapper with exactly one
    of its two fields set.  When [ParseRequest] fails the wrapper carries
    that error and the transport is not called.  Otherwise the transport is
    called once, with the request [ParseRequest] returned and the header map
    as it stands; the wrapper carries the transport's error, or the response
    with a new, open body stream holding the payload.  The builder is left as
    [ParseRequest] left it. *)
Theorem Send_outcome σ c v :
  wf σ c = true → observe σ c = Some v →
  ∃ res σ1 r σ2,
    ParseRequest c σ = Some (res, σ1) ∧ Send c σ = Some (r, σ2)
    ∧ (resp r = None ↔ is_Some (RespErr r))
    ∧ observe σ2 c = observe σ1 c
    ∧ match res with
      | Err e => r = mkResponse None (Some e) ∧ wire σ2 = wire σ ∧ streams σ2 = streams σ
      | Ok req =>
          ∃ hdr, maps σ1 !! Header req = Some hdr
            ∧ wire σ2 = wire σ ++ [mkWire req hdr]
            ∧ match http_Do (rng σ1) (mkWire req hdr) with
              | Err e => r = mkResponse None (Some e) ∧ streams σ2 = streams σ
              | Ok raw =>
                  ∃ b, r = mkResponse (Some (mkHTTPResponse (StatusCode raw) b)) None
                    ∧ streams σ !! b = None
                    ∧ streams σ2 !! b
                      = Some (mkStream (payload raw) (payload_failure raw) false
                                (read_after_close raw))
              end
      end.
Proof.
  intros Hwf Hobs.
  destruct (ParseRequest_spec σ c v Hwf Hobs)
    as (s & σ1 & Hc & Hrun & Hhdr & Hwf1 & Hobs1 & Hw & Hst).
  pose proof (materialize_Header v (header s) (rng σ)) as HH.
  set (hdr := out_header (materialize v (header s) (rng σ))) in *.
  destruct (out_result (materialize v (header s) (rng σ))) as [req|e] eqn:Hres.
  - rewrite <- (HH req eq_refl) in Hhdr.
    unfold Send. erewrite bind_Some by exact Hrun.
    unfold bind. rewrite (Do_run σ1 req _ Hhdr). cbv zeta.
    destruct (http_Do (rng σ1) _) as [raw|e] eqn:Hdo.
    + eexists (Ok req), σ1, _, _. split; [done|]. split; [reflexivity|].
      split; [simpl; split; [done|by intros [? ?]]|].
      split; [by apply observe_same|].
      eexists. split; [exact Hhdr|]. simpl. rewrite Hw. split; [done|].
      rewrite Hdo. eexists. split; [reflexivity|].
      rewrite <- Hst. split; [apply fresh_lookup_None|apply lookup_insert_eq].
    + eexists (Ok req), σ1, _, _. split; [done|]. split; [reflexivity|].
      split; [simpl; split; [eauto|done]|].
      split; [by apply observe_same|].
      eexists. split; [exact Hhdr|]. simpl. rewrite Hw. split; [done|].
      rewrite Hdo. by rewrite Hst.
  - exists (Err e), σ1, (mkResponse None (Some e)), σ1.
    split; [done|]. split; [by apply Send_parse_error|].
    split; [simpl; split; [eauto|done]|]. done.
Qed.

(** X12. [Send] and then [AsBytes] or [AsString]: when the request is built
    and the transport answers, whatever the status code of the answer,
    [AsBytes] returns the payload (or the error that interrupted it),
    [AsString] the same bytes as a string, and a later [AsBytes] on the same
    wrapper finds the body closed: it returns the error with which that body
    answers a read after [Close], or, when the response came with a body that
    keeps answering EOF ([http.NoBody], for an answer without body bytes), no
    bytes and no error. *)
Theorem Send_then_read σ c req σ1 hdr raw :
  ParseRequest c σ = Some (Ok req, σ1) → maps σ1 !! Header req = Some hdr →
  http_Do (rng σ1) (mkWire req hdr) = Ok raw →
  ∃ r σ2 σ3, Send c σ = Some (r, σ2)
    ∧ wire σ2 = wire σ1 ++ [mkWire req hdr]
    ∧ AsBytes r σ2
      = Some (match payload_failure raw with
              | None => Ok (payload raw)
              | Some e => Err e
              end, σ3)
    ∧ AsString r σ2
      = Some (match payload_failure raw with
              | None => Ok (b2s (payload raw))
              | Some e => Err e
              end, σ3)
    ∧ AsBytes r σ3
      = Some (match read_after_close raw with
              | Some e => Err e
              | None => Ok []
              end, σ3).
Proof.
  intros Hrun Hhdr Hdo.
  unfold Send. erewrite bind_Some by exact Hrun.
  unfold bind at 1. rewrite (Do_run σ1 req _ Hhdr). cbv zeta. rewrite Hdo.
  set (b := fresh (dom (streams σ1))).
  set (st := mkStream (payload raw) (payload_failure raw) false (read_after_close raw)).
  set (σ2 := upd_streams <[b := st]>
               (upd_wire (λ l, l ++ [mkWire req hdr]) (upd_rng S σ1))).
  exists (mkResponse (Some (mkHTTPResponse (StatusCode raw) b)) None), σ2,
    (consumed b st σ2).
  split; [reflexivity|]. split; [reflexivity|].
  rewrite AsString_AsBytes.
  assert (AsBytes (mkResponse (Some (mkHTTPResponse (StatusCode raw) b)) None) σ2
          = Some (match payload_failure raw with
                  | None => Ok (payload raw)
                  | Some e => Err e
                  end, consumed b st σ2)) as ->.
  { unfold AsBytes, bind, ReadAll, Close. simpl.
    rewrite lookup_insert_eq. simpl. rewrite lookup_insert_eq. simpl.
    unfold consumed. by destruct (payload_failure raw). }
  split; [done|]. split; [by destruct (payload_failure raw)|].
  unfold AsBytes, bind, ReadAll, Close, consumed. simpl.
  rewrite lookup_insert_eq. simpl. rewrite lookup_insert_eq. simpl.
  assert (upd_streams
            <[b := mkStream [] (payload_failure raw) true (read_after_close raw)]>
            (upd_streams
               <[b := mkStream [] (payload_failure raw) true (read_after_close raw)]>
               (upd_streams
                  <[b := mkStream [] (payload_failure raw) false (read_after_close raw)]>
                  σ2))
          = upd_streams
              <[b := mkStream [] (payload_failure raw) true (read_after_close raw)]>
              (upd_streams
                 <[b := mkStream [] (payload_failure raw) false (read_after_close raw)]>
                 σ2)) as ->.
  { unfold upd_streams. simpl. f_equal. by rewrite !insert_insert_eq. }
  by destruct (read_after_close raw).
Qed.

End Requests.

Lemma unparsable_target_witness :
  wf bad_url_nil_body.2 bad_url_nil_body.1 = true
  ∧ observe bad_url_nil_body.2 bad_url_nil_body.1
    = Some (effects [MSetURL ":"; MAddFormField "k" "v"; MSetRawBody None] new_view)
  ∧ url_Parse ":" = Err (urlError "parse" ":" "missing protocol scheme")
  ∧ ∃ σ', ParseRequest bad_url_nil_body.1 bad_url_nil_body.2
          = Some (Err (urlError "parse" ":" "missing protocol scheme"), σ')
      ∧ Send bad_url_nil_body.1 bad_url_nil_body.2
        = Some (mkResponse None (Some (urlError "parse" ":" "missing protocol scheme")), σ')
      ∧ wire σ' = wire bad_url_nil_body.2.
Proof.
  split; [vm_compute; reflexivity|]. split; [vm_compute; reflexivity|].
  split; [vm_compute; reflexivity|].
  destruct (unparsable_target bad_url_nil_body.2 bad_url_nil_body.1
              (effects [MSetURL ":"; MAddFormField "k" "v"; MSetRawBody None] new_view)
              (urlError "parse" ":" "missing protocol scheme"))
    as (σ' & H1 & H2 & H3 & _); [vm_compute; reflexivity..|].
  exists σ'. split; [exact H1|]. split; [exact H2|exact H3].
Defined.

Lemma request_invariants_witness :
  wf form_builder.2 form_builder.1 = true
  ∧ observe form_builder.2 form_builder.1 = Some (effect (MAddFormField "k" "v") new_view)
  ∧ ∃ res σ' s, ParseRequest form_builder.1 form_builder.2 = Some (res, σ')
      ∧ clients form_builder.2 !! form_builder.1 = Some s
      ∧ ∀ req, res = Ok req →
          Method req = "POST" ∧ Header req = header s ∧ GetBody req = Body req
          ∧ ContentLength req = Z.of_nat (length (default [] (Body req))).
Proof.
  split; [vm_compute; reflexivity|]. split; [vm_compute; reflexivity|].
  destruct (request_invariants form_builder.2 form_builder.1
              (effect (MAddFormField "k" "v") new_view))
    as (res & σ' & s & Hrun & Hc & Hinv); [vm_compute; reflexivity..|].
  exists res, σ', s. split; [exact Hrun|]. split; [exact Hc|].
  intros req Hreq. destruct (Hinv req Hreq) as (H1 & H2 & H3 & H4 & _).
  split; [exact H1|]. split; [exact H2|]. split; [exact H3|exact H4].
Defined.

Lemma ParseRequest_repeatable_witness :
  wf form_builder.2 form_builder.1 = true
  ∧ observe form_builder.2 form_builder.1 = Some (effect (MAddFormField "k" "v") new_view)
  ∧ ∃ res σ1, ParseRequest form_builder.1 form_builder.2 = Some (res, σ1)
      ∧ ParseRequest form_builder.1 σ1 = Some (res, σ1).
Proof.
  split; [vm_compute; reflexivity|]. split; [vm_compute; reflexivity|].
  apply (ParseRequest_repeatable form_builder.2 form_builder.1
           (effect (MAddFormField "k" "v") new_view));
    vm_compute; reflexivity.
Defined.

Lemma multipart_requests_share_header_witness :
  wf upload_builder.2 upload_builder.1 = true
  ∧ observe upload_builder.2 upload_builder.1 = Some (effects upload_calls new_view)
  ∧ url_Parse "" = Ok zeroURL
  ∧ randomBoundary (rng upload_builder.2) ≠ randomBoundary (S (S (rng upload_builder.2)))
  ∧ ∃ req1 σ1 req2 σ2 hdr,
      ParseRequest upload_builder.1 upload_builder.2 = Some (Ok req1, σ1)
      ∧ ParseRequest upload_builder.1 σ1 = Some (Ok req2, σ2)
      ∧ Header req2 = Header req1
      ∧ maps σ2 !! Header req1 = Some hdr
      ∧ (∃ parts, Body req1
                  = Some (multipart_body (randomBoundary (rng upload_builder.2)) parts))
      ∧ hdr !! "Content-Type"
        = Some ["multipart/form-data; boundary="
                  +:+ randomBoundary (S (S (rng upload_builder.2)))].
Proof.
  split; [vm_compute; reflexivity|]. split; [vm_compute; reflexivity|].
  split; [reflexivity|]. split; [vm_compute; discriminate|].
  destruct (multipart_requests_share_header upload_builder.2 upload_builder.1
              (effects upload_calls new_view) zeroURL)
    as (req1 & σ1 & req2 & σ2 & hdr & H1 & H2 & H3 & H4 & H5 & _ & H6).
  - vm_compute; reflexivity.
  - vm_compute; reflexivity.
  - reflexivity.
  - vm_compute. discriminate.
  - reflexivity.
  - exists req1, σ1, req2, σ2, hdr. split; [exact H1|]. split; [exact H2|].
    split; [exact H3|]. split; [exact H4|]. split; [exact H5|exact H6].
Defined.

Lemma basic_auth_header_witness :
  wf login_builder.2 login_builder.1 = true
  ∧ observe login_builder.2 login_builder.1
    = Some (effects login_calls new_view)
  ∧ (∃ c1 σ1 res σ2 v2, SetBasicAuth "u" "p" login_builder.1 login_builder.2 = Some (c1, σ1)
       ∧ ParseRequest c1 σ1 = Some (res, σ2)
       ∧ observe σ2 c1 = Some v2
       ∧ v_header v2 !! "Authorization" = Some ["Basic dTpw"])
  ∧ (∃ c1 σ1 res σ2 v2, SetBasicAuth "" "p" login_builder.1 login_builder.2 = Some (c1, σ1)
       ∧ ParseRequest c1 σ1 = Some (res, σ2)
       ∧ observe σ2 c1 = Some v2
       ∧ v_header v2 !! "Authorization" = Some ["Bearer t"]).
Proof.
  split; [vm_compute; reflexivity|]. split; [vm_compute; reflexivity|]. split.
  - destruct (basic_auth_header "u" "p" login_builder.2 login_builder.1
                (effects login_calls new_view))
      as (c1 & σ1 & res & σ2 & v2 & H1 & H2 & H3 & _ & H4); [vm_compute; reflexivity..|].
    exists c1, σ1, res, σ2, v2. split; [exact H1|]. split; [exact H2|].
    split; [exact H3|exact H4].
  - destruct (basic_auth_header "" "p" login_builder.2 login_builder.1
                (effects login_calls new_view))
      as (c1 & σ1 & res & σ2 & v2 & H1 & H2 & H3 & _ & H4); [vm_compute; reflexivity..|].
    exists c1, σ1, res, σ2, v2. split; [exact H1|]. split; [exact H2|].
    split; [exact H3|exact H4].
Defined.

Lemma Send_outcome_witness :
  wf form_builder.2 form_builder.1 = true
  ∧ observe form_builder.2 form_builder.1 = Some (effect (MAddFormField "k" "v") new_view)
  ∧ ∃ res σ1 r σ2,
      ParseRequest form_builder.1 form_builder.2 = Some (res, σ1)
      ∧ Send form_builder.1 form_builder.2 = Some (r, σ2)
      ∧ (resp r = None ↔ is_Some (RespErr r))
      ∧ observe σ2 form_builder.1 = observe σ1 form_builder.1.
Proof.
  split; [vm_compute; reflexivity|]. split; [vm_compute; reflexivity|].
  destruct (Send_outcome form_builder.2 form_builder.1
              (effect (MAddFormField "k" "v") new_view))
    as (res & σ1 & r & σ2 & H1 & H2 & H3 & H4 & _); [vm_compute; reflexivity..|].
  exists res, σ1, r, σ2. split; [exact H1|]. split; [exact H2|]. split; [exact H3|exact H4].
Defined.

Lemma Send_then_read_witness :
  ∃ req σ1 hdr raw,
    ParseRequest form_builder.1 form_builder.2 = Some (Ok req, σ1)
    ∧ maps σ1 !! Header req = Some hdr
    ∧ http_Do (rng σ1) (mkWire req hdr) = Ok raw
    ∧ payload raw = s2b "k=v" ∧ payload_failure raw = None
    ∧ ∃ r σ2 σ3, Send form_builder.1 form_builder.2 = Some (r, σ2)
        ∧ AsBytes r σ2 = Some (Ok (s2b "k=v"), σ3)
        ∧ AsString r σ2 = Some (Ok "k=v", σ3)
        ∧ AsBytes r σ3 = Some (Err ErrReadOnClosedBody, σ3).
Proof.
  eexists _, _, _, _.
  split; [vm_compute; reflexivity|]. split; [vm_compute; reflexivity|].
  split; [vm_compute; reflexivity|]. split; [vm_compute; reflexivity|].
  split; [vm_compute; reflexivity|].
  edestruct (Send_then_read form_builder.2 form_builder.1)
    as (r & σ2 & σ3 & H1 & _ & H2 & H3 & H4);
    [vm_compute; reflexivity..|].
  exists r, σ2, σ3. split; [exact H1|]. split; [exact H2|]. split; [exact H3|exact H4].
Defined.

(** ** Scripts: what holds of every builder the API can build *)

Lemma target_shape_effect m v : target_shape v → target_shape (effect m v).
Proof.
  intros [Hu Hp]. destruct m; try done.
  - split; [apply no_trailing_slash|done].
  - split; [done|]. simpl. destruct (decide (p = "")); [done|].
    destruct (TrimRight (add_slash p) "/") as [|a t] eqn:E.
    + by rewrite append_empty_r.
    + right. rewrite <- E. split.
      * rewrite first_byte_app. destruct Hp as [->|[Hf _]].
        -- simpl. rewrite TrimRight_first by (by rewrite E).
           apply first_byte_add_slash.
        -- destruct (decide (v_path v = "")) as [E'|]; [by rewrite E' in Hf|done].
      * rewrite last_byte_app by (by rewrite E). apply no_trailing_slash.
Qed.

Lemma target_shape_step a v : target_shape v → target_shape (step_view a v).
Proof. destruct a; [apply target_shape_effect|done..]. Qed.

Section ScriptProperties.
Context `{RT : GoRuntime}.

Lemma script_spec calls σ c s v :
  clients σ !! c = Some s → NoDup (maplocs s) → view_of σ s = Some v →
  ∃ c' σ' s', script calls c σ = Some (c', σ')
    ∧ clients σ' !! c' = Some s' ∧ NoDup (maplocs s')
    ∧ view_of σ' s' = Some (foldl (λ v a, step_view a v) v calls)
    ∧ wire σ' = wire σ.
Proof.
  revert σ c s v. induction calls as [|a calls IH]; intros σ c s v Hc Hnd Hv.
  - exists c, σ, s. done.
  - cbn [script foldl].
    assert (∃ c1 σ1 s1, builder_call a c σ = Some (c1, σ1)
              ∧ clients σ1 !! c1 = Some s1 ∧ NoDup (maplocs s1)
              ∧ view_of σ1 s1 = Some (step_view a v) ∧ wire σ1 = wire σ)
      as (c1 & σ1 & s1 & Hrun & Hc1 & Hnd1 & Hv1 & Hw1).
    { destruct a as [m|b|]; simpl.
      - destruct (call_spec m σ c s v Hc Hnd Hv)
          as (c1 & σ1 & s1 & Hrun & Hc1 & Hnd1 & Hv1 & _ & _ & _ & Hw).
        by exists c1, σ1, s1.
      - destruct (AutoClone_spec b σ c s v Hc Hnd Hv)
          as (c1 & σ1 & s1 & Hrun & _ & Hc1 & Hnd1 & Hv1 & _).
        exists c1, σ1, s1. do 4 (split; [done|]).
        revert Hrun. unfold AutoClone, bind.
        rewrite (Clone_run _ _ _ _ Hc Hv).
        destruct (clone_state σ s v) as [c0 σ0] eqn:Hcl.
        destruct (clone_state_fresh _ _ _ _ _ Hcl Hv)
          as (s0 & Hcs & _ & _ & _ & _ & _ & _ & _ & _ & Hw0).
        unfold modify. rewrite Hcs, lookup_insert_eq. simpl.
        intros [= <- <-]. done.
      - rewrite (Clone_run _ _ _ _ Hc Hv).
        destruct (clone_state σ s v) as [c1 σ1] eqn:Hcl.
        destruct (Clone_frame _ _ _ _ _ _ Hc Hv Hcl)
          as (s1 & Hc1 & _ & Hnd1 & Hv1 & _ & _ & Hw1 & _).
        by exists c1, σ1, s1. }
    erewrite bind_Some by exact Hrun.
    destruct (IH σ1 c1 s1 _ Hc1 Hnd1 Hv1) as (c' & σ' & s' & Hrun' & Hc' & Hnd' & Hv' & Hw').
    exists c', σ', s'. do 4 (split; [done|]). congruence.
Qed.

Lemma script_from_New calls σ :
  ∃ c σ' s, (c0 <- New ;; script calls c0) σ = Some (c, σ')
    ∧ clients σ' !! c = Some s ∧ NoDup (maplocs s)
    ∧ view_of σ' s = Some (foldl (λ v a, step_view a v) new_view calls)
    ∧ wire σ' = wire σ.
Proof.
  destruct (New_spec σ) as (c0 & σ0 & s0 & Hrun & _ & Hc0 & Hnd0 & Hv0 & _ & Hw0).
  destruct (script_spec calls σ0 c0 s0 _ Hc0 Hnd0 Hv0)
    as (c & σ' & s & Hrun' & Hc & Hnd & Hv & Hw).
  exists c, σ', s. erewrite bind_Some by exact Hrun. do 4 (split; [done|]). congruence.
Qed.

(** X13. No sequence of calls of the chaining API panics: starting from
    [New], any sequence of mutators, [AutoClone] and [Clone] calls returns a
    well-formed builder without touching the transport, [Send] on it returns
    a wrapper, and [AsString] on that wrapper returns. *)
Theorem api_never_panics calls σ :
  ∃ c σ1 r σ2 out σ3,
    (c0 <- New ;; script calls c0) σ = Some (c, σ1)
    ∧ wf σ1 c = true
    ∧ wire σ1 = wire σ
    ∧ Send c σ1 = Some (r, σ2)
    ∧ AsString r σ2 = Some (out, σ3).
Proof.
  destruct (script_from_New calls σ) as (c & σ1 & s & Hrun & Hc & Hnd & Hv & Hw).
  destruct (WF_wf _ _ _ _ Hc Hnd Hv) as [Hwf Hobs].
  destruct (ParseRequest_spec σ1 c _ Hwf Hobs)
    as (s' & σp & Hc' & Hparse & Hhdr & _).
  assert (s' = s) as -> by congruence.
  assert (∃ r σ2, Send c σ1 = Some (r, σ2)
            ∧ (RespErr r = None → ∃ hr st, resp r = Some hr
                                   ∧ streams σ2 !! RespBody hr = Some st))
    as (r & σ2 & Hsend & Hresp).
  { unfold Send. erewrite bind_Some by exact Hparse.
    pose proof (materialize_Header (foldl (λ v a, step_view a v) new_view calls)
                  (header s) (rng σ1)) as HH.
    destruct (out_result _) as [req|e]; [|by eexists _, _].
    rewrite <- (HH req eq_refl) in Hhdr.
    unfold bind. rewrite (Do_run σp req _ Hhdr). cbv zeta.
    destruct (http_Do _ _) as [raw|e]; [|by eexists _, _].
    eexists _, _. split; [reflexivity|]. intros _. eexists _, _.
    split; [reflexivity|]. simpl. apply lookup_insert_eq. }
  exists c, σ1, r, σ2.
  assert (∃ out σ3, AsBytes r σ2 = Some (out, σ3)) as (out & σ3 & Hread).
  { unfold AsBytes. destruct (RespErr r) as [e|] eqn:He; [by eexists _, _|].
    destruct (Hresp eq_refl) as (hr & st & -> & Hst).
    unfold bind, ReadAll, Close. rewrite Hst. simpl.
    destruct (closed st); simpl.
    - rewrite Hst. simpl. destruct (after_close st); by eexists _, _.
    - rewrite lookup_insert_eq. simpl. destruct (failure st); by eexists _, _. }
  rewrite AsString_AsBytes, Hread.
  destruct out; eexists _, _; done.
Qed.

(** X14. The method of a builder made by the API is GET or POST.  When
    neither [Get] nor [Post] was called, it is POST exactly when some call
    attached something to the body ([AddFormField], [AddFile], [SetJSONBody],
    [SetRawBody], also with a nil payload), and GET otherwise. *)
Theorem method_is_GET_or_POST calls σ :
  ∃ c σ' v, (c0 <- New ;; script calls c0) σ = Some (c, σ')
    ∧ observe σ' c = Some v
    ∧ (v_method v = "GET" ∨ v_method v = "POST")
    ∧ (forallb (λ a, negb (names_method a)) calls = true →
       v_method v = if existsb attaches calls then "POST" else "GET").
Proof.
  destruct (script_from_New calls σ) as (c & σ' & s & Hrun & Hc & Hnd & Hv & _).
  eexists c, σ', _. split; [done|]. split; [unfold observe; by rewrite Hc|].
  assert (∀ v0, (v_method v0 = "GET" ∨ v_method v0 = "POST") →
            let v := foldl (λ v a, step_view a v) v0 calls in
            (v_method v = "GET" ∨ v_method v = "POST")
            ∧ (forallb (λ a, negb (names_method a)) calls = true →
               v_method v = if existsb attaches calls then "POST" else v_method v0))
    as Hind.
  { clear. induction calls as [|a calls IH]; intros v0 H0; cbn zeta; [done|].
    cbn [foldl forallb existsb].
    assert (v_method (step_view a v0) = "GET" ∨ v_method (step_view a v0) = "POST") as H1.
    { destruct a as [[]| |]; simpl; auto. }
    destruct (IH _ H1) as [IH1 IH2]. split; [done|].
    intros [Ha Hrest]%andb_true_iff. rewrite (IH2 Hrest).
    destruct (existsb attaches calls); [by rewrite orb_true_r|].
    rewrite orb_false_r. destruct a as [[]| |]; simpl in *; done. }
  destruct (Hind new_view) as [H1 H2]; [by left|]. done.
Qed.

(** X15. The target [url + path] of a builder made by the API never ends
    with a slash, and its path is empty or starts with one. *)
Theorem target_has_no_trailing_slash calls σ :
  ∃ c σ' v, (c0 <- New ;; script calls c0) σ = Some (c, σ')
    ∧ observe σ' c = Some v
    ∧ last_byte (v_url v +:+ v_path v) ≠ Some slash
    ∧ (v_path v = "" ∨ first_byte (v_path v) = Some slash).
Proof.
  destruct (script_from_New calls σ) as (c & σ' & s & Hrun & Hc & Hnd & Hv & _).
  eexists c, σ', _. split; [done|]. split; [unfold observe; by rewrite Hc|].
  assert (target_shape (foldl (λ v a, step_view a v) new_view calls)) as [Hu Hp].
  { assert (target_shape new_view) as H0 by (split; [done|by left]).
    clear Hrun Hv. revert H0. generalize new_view.
    induction calls as [|a calls IH]; intros v0 H0; [done|].
    cbn [foldl]. apply IH. by apply target_shape_step. }
  split; [|tauto].
  destruct Hp as [->|[Hf Hl]]; [by rewrite append_empty_r|].
  rewrite last_byte_app; [done|]. intros E. by rewrite E in Hf.
Qed.

(** X16. [AppendPath] with a segment made of slashes only (["/"], ["//"],
    ...) changes nothing, like [AppendPath("")]; any other segment makes the
    path longer. *)
Theorem AppendPath_only_slashes p σ c v :
  wf σ c = true → observe σ c = Some v →
  ∃ c' σ' v', AppendPath p c σ = Some (c', σ')
    ∧ observe σ' c' = Some v'
    ∧ (all_in "/" p = true → v' = v)
    ∧ (v_path v' = v_path v → all_in "/" p = true).
Proof.
  intros Hwf Hobs.
  destruct (call_observed (MAppendPath p) σ c v Hwf Hobs)
    as (c' & σ' & Hrun & _ & Hobs' & _).
  eexists c', σ', _. split; [exact Hrun|]. split; [exact Hobs'|].
  simpl. destruct (decide (p = "")) as [->|Hp].
  { split; [by destruct v|done]. }
  split.
  - intros Hall. rewrite <- all_in_add_slash in Hall.
    apply TrimRight_all_in in Hall. rewrite Hall, append_empty_r. by destruct v.
  - intros E. apply append_cancel_empty in E.
    apply TrimRight_all_in in E. by rewrite all_in_add_slash in E.
Qed.

(** X17. [Content-Type] given through [AddHeader], in any letter case, and
    the body calls do not commute: [SetRawBody] after it deletes it, and
    before it leaves it alone; [SetJSONBody] after it replaces it by
    [application/json], and before it makes it a second value behind
    [application/json]. *)
Theorem content_type_order k t b j σ c v :
  wf σ c = true → observe σ c = Some v →
  CanonicalMIMEHeaderKey k = "Content-Type" →
  (∃ c' σ' v', chain [MAddHeader k t; MSetRawBody b] c σ = Some (c', σ')
     ∧ observe σ' c' = Some v' ∧ v_header v' !! "Content-Type" = None)
  ∧ (∃ c' σ' v', chain [MSetRawBody b; MAddHeader k t] c σ = Some (c', σ')
       ∧ observe σ' c' = Some v' ∧ v_header v' !! "Content-Type" = Some [t])
  ∧ (∃ c' σ' v', chain [MAddHeader k t; MSetJSONBody j] c σ = Some (c', σ')
       ∧ observe σ' c' = Some v'
       ∧ v_header v' !! "Content-Type" = Some ["application/json"])
  ∧ (∃ c' σ' v', chain [MSetJSONBody j; MAddHeader k t] c σ = Some (c', σ')
       ∧ observe σ' c' = Some v'
       ∧ v_header v' !! "Content-Type" = Some ["application/json"; t]).
Proof.
  intros Hwf Hobs Hk.
  destruct (observe_WF _ _ _ Hwf Hobs) as (s & Hc & Hnd & Hv).
  assert (∀ ms, ∃ c' σ' v', chain ms c σ = Some (c', σ')
            ∧ observe σ' c' = Some v' ∧ v' = effects ms v) as Hchain.
  { intros ms.
    destruct (chain_spec ms σ c s v Hc Hnd Hv) as (c' & σ' & s' & Hrun & Hc' & _ & Hv' & _).
    eexists c', σ', _. split; [done|]. split; [|done]. unfold observe. by rewrite Hc'. }
  split; [|split; [|split]].
  - destruct (Hchain [MAddHeader k t; MSetRawBody b]) as (c' & σ' & v' & ? & ? & ->).
    eexists c', σ', _. do 2 (split; [done|]). simpl.
    unfold Header_Del. change (CanonicalMIMEHeaderKey "Content-Type") with "Content-Type".
    apply lookup_delete_eq.
  - destruct (Hchain [MSetRawBody b; MAddHeader k t]) as (c' & σ' & v' & ? & ? & ->).
    eexists c', σ', _. do 2 (split; [done|]). simpl.
    unfold Header_Add, Values_Add, Header_Del. rewrite Hk.
    change (CanonicalMIMEHeaderKey "Content-Type") with "Content-Type".
    by rewrite lookup_insert_eq, lookup_delete_eq.
  - destruct (Hchain [MAddHeader k t; MSetJSONBody j]) as (c' & σ' & v' & ? & ? & ->).
    eexists c', σ', _. do 2 (split; [done|]). simpl. apply Header_Set_Content_Type.
  - destruct (Hchain [MSetJSONBody j; MAddHeader k t]) as (c' & σ' & v' & ? & ? & ->).
    eexists c', σ', _. do 2 (split; [done|]). simpl.
    unfold Header_Add, Values_Add. rewrite Hk.
    by rewrite lookup_insert_eq, Header_Set_Content_Type.
Qed.

End ScriptProperties.

Lemma AppendPath_only_slashes_witness :
  wf sample_builder.2 sample_builder.1 = true
  ∧ observe sample_builder.2 sample_builder.1 = Some new_view
  ∧ ∃ c' σ', AppendPath "//" sample_builder.1 sample_builder.2 = Some (c', σ')
      ∧ observe σ' c' = Some new_view.
Proof.
  split; [vm_compute; reflexivity|]. split; [vm_compute; reflexivity|].
  destruct (AppendPath_only_slashes "//" sample_builder.2 sample_builder.1 new_view)
    as (c' & σ' & v' & H1 & H2 & H3 & _); [vm_compute; reflexivity..|].
  exists c', σ'. split; [exact H1|]. rewrite H2. f_equal. by apply H3.
Defined.

Lemma content_type_order_witness :
  wf sample_builder.2 sample_builder.1 = true
  ∧ observe sample_builder.2 sample_builder.1 = Some new_view
  ∧ CanonicalMIMEHeaderKey "content-type" = "Content-Type"
  ∧ (∃ c' σ' v',
       chain [MAddHeader "content-type" "text/csv"; MSetRawBody (Some (s2b "a,b"))]
         sample_builder.1 sample_builder.2 = Some (c', σ')
       ∧ observe σ' c' = Some v' ∧ v_header v' !! "Content-Type" = None)
  ∧ (∃ c' σ' v',
       chain [MSetRawBody (Some (s2b "a,b")); MAddHeader "content-type" "text/csv"]
         sample_builder.1 sample_builder.2 = Some (c', σ')
       ∧ observe σ' c' = Some v' ∧ v_header v' !! "Content-Type" = Some ["text/csv"]).
Proof.
  split; [vm_compute; reflexivity|]. split; [vm_compute; reflexivity|].
  split; [reflexivity|].
  destruct (content_type_order "content-type" "text/csv" (Some (s2b "a,b")) None
              sample_builder.2 sample_builder.1 new_view)
    as (H1 & H2 & _); [vm_compute; reflexivity..|].
  split; [exact H1|exact H2].
Defined.

(** ** What the builder encodes, a server decodes

    [url.ParseQuery] undoes [Values.Encode]. *)

Example ParseQuery_sample :
  ParseQuery "a=1&a=x+y&b=%26" = (<["b" := ["&"]]> (<["a" := ["1"; "x y"]]> ∅), None).
Proof. vm_compute. reflexivity. Qed.

Lemma unhex_hex c :
  ishex (hex_hi c) = true ∧ ishex (hex_lo c) = true
  ∧ ascii_of_N (unhex (hex_hi c) * 16 + unhex (hex_lo c)) = c
  ∧ Ascii.eqb (hex_hi c) "&" = false ∧ Ascii.eqb (hex_lo c) "&" = false
  ∧ Ascii.eqb (hex_hi c) "=" = false ∧ Ascii.eqb (hex_lo c) "=" = false
  ∧ Ascii.eqb (hex_hi c) ";" = false ∧ Ascii.eqb (hex_lo c) ";" = false.
Proof.
  destruct c as [[] [] [] [] [] [] [] []]; vm_compute; repeat split; reflexivity.
Qed.

Lemma unreserved_plain c :
  shouldEscape c = false →
  Ascii.eqb c "%" = false ∧ Ascii.eqb c "+" = false ∧ Ascii.eqb c "&" = false
  ∧ Ascii.eqb c "=" = false ∧ Ascii.eqb c ";" = false.
Proof.
  destruct c as [[] [] [] [] [] [] [] []]; vm_compute; intros H;
    first [discriminate H | repeat split; reflexivity].
Qed.

Lemma QueryUnescape_QueryEscape s : QueryUnescape (QueryEscape s) = inl s.
Proof.
  induction s as [|c s IH]; [done|]. cbn [QueryEscape].
  destruct (shouldEscape c) eqn:Hc.
  - destruct (Ascii.eqb c " ") eqn:Hsp.
    + apply Ascii.eqb_eq in Hsp as ->. cbn [QueryUnescape]. rewrite IH. reflexivity.
    + destruct (unhex_hex c) as (H1 & H2 & H3 & _).
      cbn [QueryUnescape]. fold (hex_hi c) (hex_lo c).
      change (Ascii.eqb "%" "%") with true. cbv iota. rewrite H1, H2, IH. cbn [andb].
      by rewrite H3.
  - destruct (unreserved_plain c Hc) as (H1 & H2 & _).
    cbn [QueryUnescape]. rewrite H1, H2, IH. reflexivity.
Qed.

Lemma QueryEscape_plain a s :
  a = "&"%char ∨ a = "="%char ∨ a = ";"%char → in_cutset a (QueryEscape s) = false.
Proof.
  intros Ha. induction s as [|c s IH]; [done|]. cbn [QueryEscape].
  destruct (shouldEscape c) eqn:Hc.
  - destruct (Ascii.eqb c " ") eqn:Hsp.
    + cbn [in_cutset]. rewrite IH. by destruct Ha as [->|[->| ->]].
    + destruct (unhex_hex c) as (_ & _ & _ & H1 & H2 & H3 & H4 & H5 & H6).
      fold (hex_hi c) (hex_lo c). cbn [in_cutset]. rewrite IH.
      rewrite !(Ascii.eqb_sym a).
      destruct Ha as [->|[->| ->]]; by rewrite ?H1, ?H2, ?H3, ?H4, ?H5, ?H6.
  - destruct (unreserved_plain c Hc) as (_ & _ & H1 & H2 & H3).
    cbn [in_cutset]. rewrite IH, (Ascii.eqb_sym a).
    destruct Ha as [->|[->| ->]]; by rewrite ?H1, ?H2, ?H3.
Qed.

Lemma in_cutset_app a (s t : string) :
  in_cutset a (s +:+ t) = in_cutset a s || in_cutset a t.
Proof.
  induction s as [|b s IH]; [done|]. rewrite append_cons. cbn [in_cutset].
  rewrite IH. by destruct (Ascii.eqb a b).
Qed.

Lemma piece_plain kv :
  in_cutset "&" (piece kv) = false ∧ in_cutset ";" (piece kv) = false ∧ piece kv ≠ "".
Proof.
  unfold piece. rewrite !in_cutset_app, !QueryEscape_plain by auto.
  split; [done|]. split; [done|].
  destruct (QueryEscape kv.1); done.
Qed.

Lemma Cut_plain (s t : string) (sep : ascii) :
  in_cutset sep s = false → Cut (s +:+ String sep t) sep = (s, t).
Proof.
  induction s as [|b s IH].
  - intros _. change ("" +:+ String sep t) with (String sep t).
    cbn [Cut]. by rewrite Ascii.eqb_refl.
  - rewrite append_cons. cbn [in_cutset Cut].
    rewrite (Ascii.eqb_sym b). destruct (Ascii.eqb sep b); [done|].
    intros H. by rewrite IH.
Qed.

Lemma parse_pair_piece acc kv :
  parse_pair acc (piece kv) = (Values_Add kv.1 kv.2 acc.1, acc.2).
Proof.
  destruct (piece_plain kv) as (_ & Hsemi & Hne).
  unfold parse_pair. rewrite Hsemi. rewrite decide_False by done.
  unfold piece.
  change ("=" +:+ QueryEscape kv.2) with (String "=" (QueryEscape kv.2)).
  rewrite Cut_plain by (apply QueryEscape_plain; auto).
  by rewrite !QueryUnescape_QueryEscape.
Qed.

Lemma split_amp_plain s : in_cutset "&" s = false → split_amp s = [s].
Proof.
  induction s as [|b s IH]; [done|]. cbn [in_cutset split_amp].
  rewrite (Ascii.eqb_sym b). destruct (Ascii.eqb "&" b); [done|].
  intros H. by rewrite IH.
Qed.

Lemma split_amp_nonempty s : split_amp s ≠ [].
Proof.
  destruct s as [|b s]; [done|]. cbn [split_amp].
  destruct (Ascii.eqb b "&"); [done|]. by destruct (split_amp s).
Qed.

Lemma split_amp_app s t :
  split_amp (s +:+ String "&" t) = split_amp s ++ split_amp t.
Proof.
  induction s as [|b s IH]; [done|]. rewrite append_cons. cbn [split_amp].
  destruct (Ascii.eqb b "&"); [by rewrite IH|].
  rewrite IH. pose proof (split_amp_nonempty s).
  by destruct (split_amp s).
Qed.

Lemma append_amp (s t : string) : (s +:+ "&") +:+ t = s +:+ String "&" t.
Proof. induction s as [|b s IH]; [done|]. by rewrite !append_cons, IH. Qed.

Lemma Encode_pieces (pairs : list (string * string)) :
  let out := foldl (λ buf kv,
                      (if String.eqb buf "" then buf else buf +:+ "&")
                        +:+ QueryEscape kv.1 +:+ "=" +:+ QueryEscape kv.2) "" pairs in
  (pairs = [] → out = "")
  ∧ (pairs ≠ [] → out ≠ "" ∧ split_amp out = piece <$> pairs).
Proof.
  induction pairs as [|kv pairs IH] using rev_ind; cbv zeta; [done|].
  split; [by destruct pairs|]. intros _.
  rewrite foldl_app. cbn [foldl]. fold (piece kv).
  destruct IH as [IH0 IH1].
  destruct (piece_plain kv) as (Hamp & _ & Hne).
  destruct pairs as [|kv0 pairs0] using rev_ind.
  - rewrite IH0 by done. simpl. split; [done|]. by apply split_amp_plain.
  - clear IHpairs0. destruct IH1 as [Hout Hsplit]; [by destruct pairs0|].
    set (out := foldl _ "" (pairs0 ++ [kv0])) in *.
    destruct (String.eqb out "") eqn:E; [by apply String.eqb_eq in E|].
    split.
    + destruct out; [done|]. done.
    + rewrite append_amp, split_amp_app, Hsplit, split_amp_plain by done.
      by rewrite (fmap_app piece (pairs0 ++ [kv0]) [kv]).
Qed.

Lemma parse_pieces pairs m :
  foldl parse_pair (m, None) (piece <$> pairs)
  = (foldl (λ m kv, Values_Add kv.1 kv.2 m) m pairs, None).
Proof.
  revert m. induction pairs as [|kv pairs IH]; intros m; [done|].
  cbn [fmap list_fmap foldl]. rewrite parse_pair_piece. apply IH.
Qed.

Lemma Values_Add_lookup k' x (m : gmap string (list string)) k :
  Values_Add k' x m !! k
  = if decide (k' = k) then Some (default [] (m !! k) ++ [x]) else m !! k.
Proof.
  unfold Values_Add. destruct (decide (k' = k)) as [->|Hne].
  - by rewrite lookup_insert_eq.
  - by rewrite lookup_insert_ne.
Qed.

Lemma foldl_Values_Add_lookup pairs (m : gmap string (list string)) k :
  foldl (λ m kv, Values_Add kv.1 kv.2 m) m pairs !! k
  = match values_of k pairs with
    | [] => m !! k
    | vs => Some (default [] (m !! k) ++ vs)
    end.
Proof.
  revert m. induction pairs as [|[k' x] pairs IH]; intros m; [done|].
  cbn [foldl]. rewrite IH. unfold values_of. rewrite bind_cons. cbn [fst snd].
  rewrite Values_Add_lookup. fold (values_of k pairs).
  destruct (decide (k' = k)) as [->|Hne]; cbn [app].
  - destruct (values_of k pairs); cbn; [done|]. by rewrite <- app_assoc.
  - done.
Qed.

Lemma ParseQuery_Encode (q : gmap string (list string)) :
  no_empty_list q → ParseQuery (Values_Encode q) = (q, None).
Proof.
  intros Hq. unfold ParseQuery, Values_Encode.
  destruct (Encode_pieces (Encode_pairs q)) as [H0 H1].
  assert (foldl (λ m kv, Values_Add kv.1 kv.2 m) ∅ (Encode_pairs q) = q) as Hback.
  { apply map_eq. intros k. rewrite foldl_Values_Add_lookup, Encode_pairs_values.
    rewrite lookup_total_alt, lookup_empty.
    destruct (q !! k) as [[|x vs]|] eqn:E; [by apply Hq in E|done..]. }
  destruct (Encode_pairs q) as [|kv pairs] eqn:E.
  - rewrite H0 by done. simpl. f_equal. by rewrite <- Hback.
  - destruct H1 as [_ ->]; [done|]. by rewrite parse_pieces, Hback.
Qed.

Lemma no_empty_list_Values_Add k x m : no_empty_list m → no_empty_list (Values_Add k x m).
Proof.
  intros Hm k'. rewrite Values_Add_lookup. destruct (decide (k = k')); [|apply Hm].
  intros [= H]. by destruct (default [] (m !! k')).
Qed.

Lemma no_empty_list_effect m v :
  no_empty_list (v_query v) ∧ no_empty_list (v_form v) →
  no_empty_list (v_query (effect m v)) ∧ no_empty_list (v_form (effect m v)).
Proof.
  intros [Hq Hf]. destruct m; simpl; try done.
  - split; [by apply no_empty_list_Values_Add|done].
  - split; [done|by apply no_empty_list_Values_Add].
Qed.

Lemma no_empty_list_step a v :
  no_empty_list (v_query v) ∧ no_empty_list (v_form v) →
  no_empty_list (v_query (step_view a v)) ∧ no_empty_list (v_form (step_view a v)).
Proof. destruct a; [apply no_empty_list_effect|done..]. Qed.

Section RoundTrip.
Context `{RT : GoRuntime}.

(** X18. What the builder encodes, a server decodes.  For every builder made
    from [New] by mutator, [AutoClone] and [Clone] calls, [url.ParseQuery]
    reads the encoded query parameters and the encoded form fields back
    without an error, as the very maps the builder holds: every key with all
    its values in the order they were added, whatever bytes they are made of.
    So the query string of a request [ParseRequest] returns decodes to the
    builder's parameters when there is one, and the body of a request with
    form fields and no file decodes to the builder's form. *)
Theorem encoded_values_round_trip calls σ :
  ∃ c σ' v, (c0 <- New ;; script calls c0) σ = Some (c, σ')
    ∧ observe σ' c = Some v
    ∧ ParseQuery (Values_Encode (v_query v)) = (v_query v, None)
    ∧ ParseQuery (Values_Encode (v_form v)) = (v_form v, None)
    ∧ ∀ req σ'', ParseRequest c σ' = Some (Ok req, σ'') →
        (v_query v ≠ ∅ → ParseQuery (RawQuery (ReqURL req)) = (v_query v, None))
        ∧ (v_files v = [] → v_form v ≠ ∅ →
           ∃ b, Body req = Some b ∧ ParseQuery (b2s b) = (v_form v, None)).
Proof.
  destruct (script_from_New calls σ) as (c & σ' & s & Hrun & Hc & Hnd & Hv & _).
  set (v := foldl (λ v a, step_view a v) new_view calls) in *.
  assert (no_empty_list (v_query v) ∧ no_empty_list (v_form v)) as [Hq Hf].
  { subst v. clear.
    assert (no_empty_list (v_query new_view) ∧ no_empty_list (v_form new_view)) as H0.
    { split; intros k; simpl; by rewrite lookup_empty. }
    revert H0. generalize new_view.
    induction calls as [|a calls IH]; intros v0 H0; [done|].
    cbn [foldl]. apply IH. by apply no_empty_list_step. }
  destruct (WF_wf _ _ _ _ Hc Hnd Hv) as [Hwf Hobs].
  exists c, σ', v. split; [done|]. split; [done|].
  split; [by apply ParseQuery_Encode|]. split; [by apply ParseQuery_Encode|].
  intros req σ'' Hparse.
  destruct (ParseRequest_spec σ' c v Hwf Hobs) as (s' & σp & _ & Hrun' & _).
  rewrite Hparse in Hrun'. injection Hrun' as Hres _. symmetry in Hres.
  destruct (materialize_Ok _ _ _ _ Hres) as (_ & _ & _ & _ & _ & (u & _ & Hurl) & Hbody).
  split.
  - intros Hne. rewrite Hurl, decide_False by done. simpl. by apply ParseQuery_Encode.
  - intros Hfs Hfm. eexists. split; [by apply Hbody|].
    rewrite b2s_s2b. by apply ParseQuery_Encode.
Qed.

End RoundTrip.
